(** * Guardian: decision pipeline, shell preprocessor and audit chain

    A shallow embedding of the TypeScript sources of rezzedai/guardian
    (validator.ts, blocklist.ts, budget.ts, audit.ts, kill.ts, types.ts and
    the pattern bundles) and the properties of the specification that are
    settled on it.

    Conventions of the embedding.
    - A JavaScript string is a [string]; each [ascii] stands for one code
      unit.  The scanners of blocklist.ts only compare code units with
      ASCII characters, so they treat every other unit alike.
    - Integer-valued JavaScript numbers (counters, limits, dollar amounts)
      are in [Z]; fractional amounts and floating-point rounding are
      outside the model.
    - Module-scoped variables (action counter, compiled pattern cache,
      last hash, sequence number), the file system, the clock and the
      standard error stream form the [State] threaded through the monad
      [M], whose outcomes are a normal return, a thrown exception or
      [process.exit].
    - What the JavaScript runtime provides (SHA-256, JSON.parse, RegExp,
      path.resolve, URL) is the interface [Runtime]; a concrete instance
      is given at the end of the definitions and used for the worked
      examples.
    - A field read through a TypeScript cast ([x as string]) is read at
      the type of the cast: [as_string] and [as_number].  A request or a
      file that holds a value of another type there is outside the
      model, and so is a string with a code unit above U+00FF. *)

From Stdlib Require Import ZArith Lia String Ascii List Bool DecimalString.
From stdpp Require Import base option gmap strings list.
Import ListNotations.

Local Open Scope string_scope.
Local Open Scope list_scope.
Local Open Scope Z_scope.

Set Warnings "-register-all".

(* ================================================================== *)
(** * JavaScript strings *)
(* ================================================================== *)

Module JsString.

Definition chars (s : string) : list ascii := list_ascii_of_string s.
Definition of_chars (cs : list ascii) : string := string_of_list_ascii cs.

(** The double quote, the single quote, the backslash and the backtick. *)
Definition c_dquote : ascii := "034"%char.
Definition c_squote : ascii := "039"%char.
Definition c_bslash : ascii := "092"%char.
Definition c_btick : ascii := "096"%char.
Definition c_newline : ascii := "010"%char.
Definition dq : string := String c_dquote EmptyString.
Definition nl : string := String c_newline EmptyString.

(** [s.startsWith(p)] *)
Definition startsWith (s p : string) : bool := String.prefix p s.

(** [xs.includes(x)] on an array of strings *)
Definition includes (xs : list string) (x : string) : bool :=
  existsb (String.eqb x) xs.

(** [!s] is false exactly for the non-empty string. *)
Definition nonempty (s : string) : bool :=
  match s with EmptyString => false | _ => true end.

(** White space of [String.prototype.trim] among the first 256 code
    units: TAB, LF, VT, FF, CR, SP and NBSP. *)
Definition is_ws (c : ascii) : bool :=
  let n := nat_of_ascii c in
  ((9 <=? n)%nat && (n <=? 13)%nat) || (n =? 32)%nat || (n =? 160)%nat.

Fixpoint trim_start (cs : list ascii) : list ascii :=
  match cs with
  | c :: cs' => if is_ws c then trim_start cs' else cs
  | [] => []
  end.

Definition trim_chars (cs : list ascii) : list ascii :=
  rev (trim_start (rev (trim_start cs))).

(** [s.trim()] *)
Definition trim (s : string) : string := of_chars (trim_chars (chars s)).

(** [s.split(sep)] for a one-character separator. *)
Fixpoint split_chars (sep : ascii) (cur : list ascii) (cs : list ascii)
  : list (list ascii) :=
  match cs with
  | [] => [rev cur]
  | c :: cs' =>
      if Ascii.eqb c sep then rev cur :: split_chars sep [] cs'
      else split_chars sep (c :: cur) cs'
  end.

Definition split (sep : ascii) (s : string) : list string :=
  map of_chars (split_chars sep [] (chars s)).

(** [s.split(sep)[0]] *)
Definition split_head (sep : ascii) (s : string) : string :=
  match split sep s with
  | x :: _ => x
  | [] => EmptyString
  end.

(** Position of the first occurrence of [pat] in [cs], with the text
    before it and the text after it. *)
Fixpoint find_first (pat : list ascii) (before : list ascii) (cs : list ascii)
  : option (list ascii * list ascii) :=
  if String.prefix (of_chars pat) (of_chars cs)
  then Some (rev before, skipn (length pat) cs)
  else match cs with
       | [] => None
       | c :: cs' => find_first pat (c :: before) cs'
       end.

(** GetSubstitution of ECMA-262 for a string pattern (no captures): in
    the replacement text, [$$] is a dollar sign, [$&] the matched text,
    [$`] the text before the match and [$'] the text after it. *)
Fixpoint get_substitution (matched before after : list ascii)
    (repl : list ascii) : list ascii :=
  match repl with
  | [] => []
  | c :: r =>
      if Ascii.eqb c "$"%char then
        match r with
        | d :: r' =>
            if Ascii.eqb d "$"%char then "$"%char :: get_substitution matched before after r'
            else if Ascii.eqb d "&"%char then matched ++ get_substitution matched before after r'
            else if Ascii.eqb d c_btick then before ++ get_substitution matched before after r'
            else if Ascii.eqb d c_squote then after ++ get_substitution matched before after r'
            else c :: get_substitution matched before after r
        | [] => [c]
        end
      else c :: get_substitution matched before after r
  end.

(** [s.replace(pat, repl)] with a string pattern: only the first
    occurrence of [pat] is replaced. *)
Definition replace (s pat repl : string) : string :=
  match find_first (chars pat) [] (chars s) with
  | None => s
  | Some (before, after) =>
      of_chars (before ++ get_substitution (chars pat) before after (chars repl) ++ after)
  end.

(** [String(n)] for an integer. *)
Definition of_Z (n : Z) : string := NilZero.string_of_int (Z.to_int n).

(** [xs.join(sep)] *)
Fixpoint join (sep : string) (xs : list string) : string :=
  match xs with
  | [] => EmptyString
  | [x] => x
  | x :: xs' => x +:+ sep +:+ join sep xs'
  end.

End JsString.

(* ================================================================== *)
(** * JSON values and JSON.stringify *)
(* ================================================================== *)

(** A JSON value.  An object is the list of its own properties in
    insertion order, which is the order JSON.stringify writes them in. *)
Inductive json : Type :=
| JNull
| JBool (b : bool)
| JNum (n : Z)
| JStr (s : string)
| JArr (xs : list json)
| JObj (kvs : list (string * json)).

Module Json.
Import JsString.

Definition hex_digit (n : nat) : ascii :=
  match n with
  | 0 => "0" | 1 => "1" | 2 => "2" | 3 => "3" | 4 => "4" | 5 => "5"
  | 6 => "6" | 7 => "7" | 8 => "8" | 9 => "9" | 10 => "a" | 11 => "b"
  | 12 => "c" | 13 => "d" | 14 => "e" | _ => "f"
  end%nat%char.

(** QuoteJSONString, one code unit. *)
Definition escape_char (c : ascii) : list ascii :=
  let n := nat_of_ascii c in
  if Ascii.eqb c c_dquote then [c_bslash; c_dquote]
  else if Ascii.eqb c c_bslash then [c_bslash; c_bslash]
  else if (n =? 8)%nat then [c_bslash; "b"%char]
  else if (n =? 12)%nat then [c_bslash; "f"%char]
  else if (n =? 10)%nat then [c_bslash; "n"%char]
  else if (n =? 13)%nat then [c_bslash; "r"%char]
  else if (n =? 9)%nat then [c_bslash; "t"%char]
  else if (n <? 32)%nat then
    [c_bslash; "u"%char; "0"%char; "0"%char;
     hex_digit (Nat.div n 16); hex_digit (Nat.modulo n 16)]
  else [c].

Definition quote (s : string) : string :=
  of_chars (c_dquote :: flat_map escape_char (chars s) ++ [c_dquote]).

(** [JSON.stringify(v)] with no indent argument: no white space between
    tokens, properties in insertion order. *)
Fixpoint stringify (v : json) : string :=
  match v with
  | JNull => "null"
  | JBool true => "true"
  | JBool false => "false"
  | JNum n => of_Z n
  | JStr s => quote s
  | JArr xs => "[" +:+ join "," (map stringify xs) +:+ "]"
  | JObj kvs =>
      "{" +:+ join "," (map (fun kv => quote (fst kv) +:+ ":" +:+ stringify (snd kv)) kvs) +:+ "}"
  end.

(** [o[k]] on an object: [None] is [undefined]. *)
Fixpoint lookup (k : string) (kvs : list (string * json)) : option json :=
  match kvs with
  | [] => None
  | (k', v) :: kvs' => if String.eqb k k' then Some v else lookup k kvs'
  end.

(** The rest of an object once property [k] is taken out of it. *)
Definition remove (k : string) (kvs : list (string * json)) : list (string * json) :=
  List.filter (fun kv => negb (String.eqb k (fst kv))) kvs.

(** [(x as string) ?? dflt] for a property that is a string when it is
    there: absent and null give the default. *)
Definition as_string (v : option json) (dflt : string) : string :=
  match v with
  | Some (JStr s) => s
  | _ => dflt
  end.

(** A property read at type [number]. *)
Definition as_number (v : option json) : Z :=
  match v with
  | Some (JNum n) => n
  | _ => 0
  end.

Definition of_option_string (o : option string) : json :=
  match o with
  | Some s => JStr s
  | None => JNull
  end.

Definition of_option_Z (o : option Z) : json :=
  match o with
  | Some n => JNum n
  | None => JNull
  end.

End Json.

(* ================================================================== *)
(** * types.ts *)
(* ================================================================== *)

Inductive Mode : Type := Enforce | Audit | Off.
Inductive Severity : Type := Critical | High | Medium | Low.
Inductive FileOperation : Type := OpRead | OpWrite | OpDelete | OpGitAdd.
Inductive Source : Type := SrcAllowlist | SrcScope | SrcBlocklist | SrcBudget.
Inductive BreachAction : Type := BreachKill | BreachDeny | BreachWarn.
Inductive Integrity : Type := Sha256Chain | IntegrityNone.
Inductive Rotation : Type := Daily | RotationNone.

Definition Mode_eqb (a b : Mode) : bool :=
  match a, b with
  | Enforce, Enforce | Audit, Audit | Off, Off => true
  | _, _ => false
  end.

Definition FileOperation_eqb (a b : FileOperation) : bool :=
  match a, b with
  | OpRead, OpRead | OpWrite, OpWrite | OpDelete, OpDelete | OpGitAdd, OpGitAdd => true
  | _, _ => false
  end.

Definition Severity_name (s : Severity) : string :=
  match s with
  | Critical => "critical"
  | High => "high"
  | Medium => "medium"
  | Low => "low"
  end.

(** CommandPattern and SecretPattern *)
Record CommandPattern : Type := {
  cp_pattern : string;
  cp_severity : Severity;
  cp_reason : string;
  cp_flags : option string
}.

Record FilePattern : Type := {
  fp_pattern : string;
  fp_operations : list FileOperation;
  fp_severity : Severity;
  fp_reason : string
}.

Record NetworkPattern : Type := {
  np_pattern : string;
  np_severity : Severity;
  np_reason : string
}.

Record BlocklistConfig : Type := {
  commands : list CommandPattern;
  file_patterns : list FilePattern;
  secret_patterns : list CommandPattern;
  network : list NetworkPattern
}.

Record AllowlistConfig : Type := {
  al_commands : list string;
  al_paths : list string;
  al_domains : list string
}.

Record ScopeConfig : Type := {
  allowed_paths : list string;
  denied_paths : list string;
  allow_outside_cwd : bool
}.

Record BudgetConfig : Type := {
  budget_enabled : bool;
  max_actions_per_session : Z;
  session_limit_usd : option Z;
  cost_file : string;
  action_on_breach : BreachAction
}.

Record AuditConfig : Type := {
  audit_enabled : bool;
  audit_path : string;
  include_tool_input : bool;
  include_tool_output : bool;
  integrity : Integrity;
  max_file_size_mb : Z;
  rotation : Rotation
}.

Record KillSwitchConfig : Type := {
  kill_enabled : bool;
  on_blocklist_critical : bool;
  on_budget_breach : bool;
  on_integrity_violation : bool;
  exit_code : Z
}.

Record Policy : Type := {
  version : Z;
  mode : Mode;
  blocklist : BlocklistConfig;
  allowlist : AllowlistConfig;
  scope : ScopeConfig;
  budget : BudgetConfig;
  audit : AuditConfig;
  kill_switch : KillSwitchConfig
}.

Record HookInput : Type := {
  tool_name : string;
  tool_input : list (string * json);
  session_id : option string;
  hook_cwd : option string
}.

Record ValidationResult : Type := {
  allowed : bool;
  reason : option string;
  severity : option Severity;
  pattern : option string;
  source : option Source
}.

Record BudgetState : Type := {
  action_count : Z;
  session_cost_usd : option Z;
  exceeded : bool;
  breach_reason : option string
}.

(** The budget snapshot of an audit entry. *)
Record BudgetSnapshot : Type := {
  remaining_usd : option Z;
  snapshot_action_count : Z
}.

(** [{ ...r, allowed: true }] *)
Definition with_allowed_true (r : ValidationResult) : ValidationResult :=
  {| allowed := true;
     reason := reason r;
     severity := severity r;
     pattern := pattern r;
     source := source r |}.

(** [(tool_input[k] as string) ?? ""], for a field that is a string
    when it is there. *)
Definition input_string (input : HookInput) (k : string) : string :=
  Json.as_string (Json.lookup k (tool_input input)) "".

(* ================================================================== *)
(** * The runtime, the state and the monad *)
(* ================================================================== *)

(** What the code takes from Node.js. *)
Class Runtime : Type := {
  (** [crypto.createHash("sha256").update(s).digest("hex")] *)
  sha256_hex : string -> string;
  (** [JSON.parse(s)]; [None] when it throws *)
  JSON_parse : string -> option json;
  (** compiled regular expressions *)
  RegExp : Type;
  (** [new RegExp(pattern, flags)]; [None] when it throws *)
  RegExp_new : string -> string -> option RegExp;
  (** [r.lastIndex = 0; r.test(text)] *)
  RegExp_test : RegExp -> string -> bool;
  (** [path.resolve(a, b)] *)
  path_resolve : string -> string -> string;
  (** [new URL(u).hostname]; [None] when the constructor throws *)
  URL_hostname : string -> option string
}.

(** A regular file: its content and the ISO-8601 time of its last
    modification. *)
Record File : Type := {
  content : string;
  mtime : string
}.

(** [fs.statSync(p).size]: the length of the content in UTF-8, one byte
    for a code unit below U+0080 and two for the others. *)
Definition file_size (f : File) : Z :=
  fold_right (fun c n => (if (nat_of_ascii c <? 128)%nat then 1 else 2) + n) 0
    (JsString.chars (content f)).

Inductive outcome (A : Type) : Type :=
| Ret (a : A)
| Throw (e : string)
| Exit (code : Z).

Arguments Ret {A} a.
Arguments Throw {A} e.
Arguments Exit {A} code.

Section Guardian.

Context {RT : Runtime}.

(** blocklist.ts, CompiledPattern *)
Record CompiledPattern : Type := {
  regex : RegExp;
  c_severity : Severity;
  c_reason : string;
  c_source : string
}.

(** The [Map] built by [compilePatterns]: its four keys are always set. *)
Record PatternMap : Type := {
  pm_commands : list CompiledPattern;
  pm_file_patterns : list CompiledPattern;
  pm_secret_patterns : list CompiledPattern;
  pm_network : list CompiledPattern
}.

Record State : Type := {
  (** budget.ts, [actionCount] *)
  actionCount : Z;
  (** blocklist.ts, [compiledPatterns] *)
  compiledPatterns : option PatternMap;
  (** audit.ts, [lastHash] and [sequenceNumber] *)
  lastHash : string;
  sequenceNumber : Z;
  (** the file system: regular files by absolute path *)
  files : gmap string File;
  (** files renamed away by [rotateAuditFile], oldest first, each with
      the path it was rotated from *)
  rotated : list (string * File);
  (** [new Date().toISOString()] *)
  clock : string;
  (** lines written to standard error *)
  stderr : list string
}.

Definition M (A : Type) : Type := State -> outcome A * State.

Definition ret {A : Type} (a : A) : M A := fun s => (Ret a, s).

Definition bind {A B : Type} (m : M A) (k : A -> M B) : M B :=
  fun s =>
    match m s with
    | (Ret a, s') => k a s'
    | (Throw e, s') => (Throw e, s')
    | (Exit c, s') => (Exit c, s')
    end.

Definition throw {A : Type} (e : string) : M A := fun s => (Throw e, s).
Definition exit {A : Type} (c : Z) : M A := fun s => (Exit c, s).
Definition get : M State := fun s => (Ret s, s).
Definition put (s : State) : M unit := fun _ => (Ret tt, s).

Notation "x <- m ;; k" := (bind m (fun x => k))
  (at level 100, m at next level, right associativity).
Notation "m ;;; k" := (bind m (fun _ => k))
  (at level 100, right associativity).

Definition set_actionCount (n : Z) (s : State) : State :=
  {| actionCount := n; compiledPatterns := compiledPatterns s;
     lastHash := lastHash s; sequenceNumber := sequenceNumber s;
     files := files s; rotated := rotated s; clock := clock s; stderr := stderr s |}.

Definition set_compiledPatterns (m : option PatternMap) (s : State) : State :=
  {| actionCount := actionCount s; compiledPatterns := m;
     lastHash := lastHash s; sequenceNumber := sequenceNumber s;
     files := files s; rotated := rotated s; clock := clock s; stderr := stderr s |}.

Definition set_audit (h : string) (n : Z) (s : State) : State :=
  {| actionCount := actionCount s; compiledPatterns := compiledPatterns s;
     lastHash := h; sequenceNumber := n;
     files := files s; rotated := rotated s; clock := clock s; stderr := stderr s |}.

Definition set_files (fs : gmap string File) (s : State) : State :=
  {| actionCount := actionCount s; compiledPatterns := compiledPatterns s;
     lastHash := lastHash s; sequenceNumber := sequenceNumber s;
     files := fs; rotated := rotated s; clock := clock s; stderr := stderr s |}.

Definition set_rotated (r : list (string * File)) (s : State) : State :=
  {| actionCount := actionCount s; compiledPatterns := compiledPatterns s;
     lastHash := lastHash s; sequenceNumber := sequenceNumber s;
     files := files s; rotated := r; clock := clock s; stderr := stderr s |}.

Definition set_clock (t : string) (s : State) : State :=
  {| actionCount := actionCount s; compiledPatterns := compiledPatterns s;
     lastHash := lastHash s; sequenceNumber := sequenceNumber s;
     files := files s; rotated := rotated s; clock := t; stderr := stderr s |}.

Definition set_stderr (e : list string) (s : State) : State :=
  {| actionCount := actionCount s; compiledPatterns := compiledPatterns s;
     lastHash := lastHash s; sequenceNumber := sequenceNumber s;
     files := files s; rotated := rotated s; clock := clock s; stderr := e |}.

(* ================================================================== *)
(** * blocklist.ts *)
(* ================================================================== *)

Import JsString.

Definition compileCommand (p : CommandPattern) : option CompiledPattern :=
  match RegExp_new (cp_pattern p) (default "" (cp_flags p)) with
  | Some r => Some {| regex := r; c_severity := cp_severity p;
                      c_reason := cp_reason p; c_source := cp_pattern p |}
  | None => None
  end.

Definition compileFile (p : FilePattern) : option CompiledPattern :=
  match RegExp_new (fp_pattern p) "" with
  | Some r => Some {| regex := r; c_severity := fp_severity p;
                      c_reason := fp_reason p; c_source := fp_pattern p |}
  | None => None
  end.

Definition compileNetwork (p : NetworkPattern) : option CompiledPattern :=
  match RegExp_new (np_pattern p) "" with
  | Some r => Some {| regex := r; c_severity := np_severity p;
                      c_reason := np_reason p; c_source := np_pattern p |}
  | None => None
  end.

(** [xs.map(f)] where [f] may throw: the first failure aborts the map. *)
Fixpoint map_or_throw {A B : Type} (f : A -> option B) (xs : list A) : option (list B) :=
  match xs with
  | [] => Some []
  | x :: xs' =>
      match f x with
      | Some y =>
          match map_or_throw f xs' with
          | Some ys => Some (y :: ys)
          | None => None
          end
      | None => None
      end
  end.

Definition compilePatterns (policy : Policy) : option PatternMap :=
  match map_or_throw compileCommand (commands (blocklist policy)) with
  | None => None
  | Some cs =>
  match map_or_throw compileFile (file_patterns (blocklist policy)) with
  | None => None
  | Some fs =>
  match map_or_throw compileCommand (secret_patterns (blocklist policy)) with
  | None => None
  | Some ss =>
  match map_or_throw compileNetwork (network (blocklist policy)) with
  | None => None
  | Some ns =>
      Some {| pm_commands := cs; pm_file_patterns := fs;
              pm_secret_patterns := ss; pm_network := ns |}
  end end end end.

(** The patterns are compiled on the first call and kept until
    [resetCompiledPatterns]. *)
Definition getPatterns (policy : Policy) : M PatternMap :=
  s <- get ;;
  match compiledPatterns s with
  | Some m => ret m
  | None =>
      match compilePatterns policy with
      | Some m => put (set_compiledPatterns (Some m) s) ;;; ret m
      | None => throw "SyntaxError: Invalid regular expression"
      end
  end.

Definition resetCompiledPatterns : M unit :=
  s <- get ;; put (set_compiledPatterns None s).

Definition next_is (next : option ascii) (c : ascii) : bool :=
  match next with
  | Some d => Ascii.eqb d c
  | None => false
  end.

Record SplitState : Type := {
  sp_segments : list string;
  sp_current : list ascii;
  sp_depth : nat;
  sp_inSingle : bool;
  sp_inDouble : bool
}.

(** [current += ch] *)
Definition sp_add (ch : ascii) (st : SplitState) : SplitState :=
  {| sp_segments := sp_segments st; sp_current := sp_current st ++ [ch];
     sp_depth := sp_depth st; sp_inSingle := sp_inSingle st;
     sp_inDouble := sp_inDouble st |}.

(** [segments.push(current.trim()); current = ""] *)
Definition sp_push (st : SplitState) : SplitState :=
  {| sp_segments := sp_segments st ++ [of_chars (trim_chars (sp_current st))];
     sp_current := [];
     sp_depth := sp_depth st; sp_inSingle := sp_inSingle st;
     sp_inDouble := sp_inDouble st |}.

(** One iteration of the loop of [splitShellCommand] at character [ch]
    followed by [next]; the boolean tells whether the iteration ends in
    [i++; continue], which skips the next character. *)
Definition split_step (ch : ascii) (next : option ascii) (st : SplitState)
  : SplitState * bool :=
  if Ascii.eqb ch c_squote && negb (sp_inDouble st) then
    (sp_add ch {| sp_segments := sp_segments st; sp_current := sp_current st;
                  sp_depth := sp_depth st; sp_inSingle := negb (sp_inSingle st);
                  sp_inDouble := sp_inDouble st |}, false)
  else if Ascii.eqb ch c_dquote && negb (sp_inSingle st) then
    (sp_add ch {| sp_segments := sp_segments st; sp_current := sp_current st;
                  sp_depth := sp_depth st; sp_inSingle := sp_inSingle st;
                  sp_inDouble := negb (sp_inDouble st) |}, false)
  else if sp_inSingle st || sp_inDouble st then (sp_add ch st, false)
  else if Ascii.eqb ch "("%char || (Ascii.eqb ch "$"%char && next_is next "("%char) then
    (sp_add ch {| sp_segments := sp_segments st; sp_current := sp_current st;
                  sp_depth := S (sp_depth st); sp_inSingle := sp_inSingle st;
                  sp_inDouble := sp_inDouble st |}, false)
  else if Ascii.eqb ch ")"%char then
    (sp_add ch {| sp_segments := sp_segments st; sp_current := sp_current st;
                  sp_depth := Nat.pred (sp_depth st); sp_inSingle := sp_inSingle st;
                  sp_inDouble := sp_inDouble st |}, false)
  else if (0 <? sp_depth st)%nat then (sp_add ch st, false)
  else if Ascii.eqb ch "&"%char && next_is next "&"%char then (sp_push st, true)
  else if Ascii.eqb ch "|"%char && next_is next "|"%char then (sp_push st, true)
  else if Ascii.eqb ch ";"%char then (sp_push st, false)
  else if Ascii.eqb ch "|"%char then (sp_push st, false)
  else (sp_add ch st, false).

Fixpoint split_loop (cs : list ascii) (skip : bool) (st : SplitState) : SplitState :=
  match cs with
  | [] => st
  | ch :: rest =>
      if skip then split_loop rest false st
      else let '(st', skip') := split_step ch (head rest) st in
           split_loop rest skip' st'
  end.

(** Split a shell command on &&, ||, ; and | to get individual segments *)
Definition splitShellCommand (command : string) : list string :=
  let st := split_loop (chars command) false
              {| sp_segments := []; sp_current := []; sp_depth := 0%nat;
                 sp_inSingle := false; sp_inDouble := false |} in
  let last := of_chars (trim_chars (sp_current st)) in
  let segments := if nonempty last then sp_segments st ++ [last] else sp_segments st in
  List.filter nonempty segments.

Record ExtractState : Type := {
  ex_subs : list string;
  ex_depth : nat;
  ex_start : Z
}.

(** The first loop of [extractSubcommands], at index [i]; it runs while
    [i < command.length - 1], that is, while a next character exists. *)
Fixpoint extract_loop (command : string) (i : nat) (cs : list ascii)
    (skip : bool) (st : ExtractState) : ExtractState :=
  match cs with
  | ch :: rest =>
      match rest with
      | next :: _ =>
          if skip then extract_loop command (S i) rest false st
          else if Ascii.eqb ch "$"%char && Ascii.eqb next "("%char then
            extract_loop command (S i) rest true
              {| ex_subs := ex_subs st;
                 ex_depth := S (ex_depth st);
                 ex_start := if (ex_depth st =? 0)%nat then Z.of_nat i + 2 else ex_start st |}
          else if Ascii.eqb ch ")"%char && (0 <? ex_depth st)%nat then
            let d := Nat.pred (ex_depth st) in
            if (d =? 0)%nat && (0 <=? ex_start st) then
              extract_loop command (S i) rest false
                {| ex_subs := ex_subs st ++
                     [String.substring (Z.to_nat (ex_start st))
                        (i - Z.to_nat (ex_start st)) command];
                   ex_depth := d;
                   ex_start := -1 |}
            else
              extract_loop command (S i) rest false
                {| ex_subs := ex_subs st; ex_depth := d; ex_start := ex_start st |}
          else extract_loop command (S i) rest false st
      | [] => st
      end
  | [] => st
  end.

(** [command.match(/`([^`]+)`/g)] with [m.slice(1, -1)] on each match:
    the non-empty runs between one backtick and the next.  [cur] is the
    run after an opening backtick, [None] outside. *)
Fixpoint backtick_loop (cs : list ascii) (cur : option (list ascii)) : list string :=
  match cs with
  | [] => []
  | ch :: rest =>
      match cur with
      | None =>
          if Ascii.eqb ch c_btick then backtick_loop rest (Some [])
          else backtick_loop rest None
      | Some run =>
          if Ascii.eqb ch c_btick then
            match run with
            | [] => backtick_loop rest (Some [])
            | _ => of_chars run :: backtick_loop rest None
            end
          else backtick_loop rest (Some (run ++ [ch]))
      end
  end.

(** Extract $() and backtick subcommands *)
Definition extractSubcommands (command : string) : list string :=
  let st := extract_loop command 0 (chars command) false
              {| ex_subs := []; ex_depth := 0%nat; ex_start := -1 |} in
  ex_subs st ++ backtick_loop (chars command) None.

Record StripState : Type := {
  st_result : list ascii;
  st_inSingle : bool;
  st_inDouble : bool
}.

(** One iteration of the loop of [stripQuotedStrings]; [has_next] is
    [i + 1 < text.length], the boolean result tells whether the escaped
    character is skipped. *)
Definition strip_step (ch : ascii) (has_next : bool) (st : StripState)
  : StripState * bool :=
  if Ascii.eqb ch c_bslash && st_inDouble st && has_next then (st, true)
  else if Ascii.eqb ch c_squote && negb (st_inDouble st) then
    ({| st_result := st_result st; st_inSingle := negb (st_inSingle st);
        st_inDouble := st_inDouble st |}, false)
  else if Ascii.eqb ch c_dquote && negb (st_inSingle st) then
    ({| st_result := st_result st; st_inSingle := st_inSingle st;
        st_inDouble := negb (st_inDouble st) |}, false)
  else if negb (st_inSingle st) && negb (st_inDouble st) then
    ({| st_result := st_result st ++ [ch]; st_inSingle := st_inSingle st;
        st_inDouble := st_inDouble st |}, false)
  else (st, false).

Fixpoint strip_loop (cs : list ascii) (skip : bool) (st : StripState) : StripState :=
  match cs with
  | [] => st
  | ch :: rest =>
      if skip then strip_loop rest false st
      else let '(st', skip') :=
             strip_step ch (match rest with [] => false | _ => true end) st in
           strip_loop rest skip' st'
  end.

(** Strip content inside single and double quotes, leaving only unquoted
    portions *)
Definition stripQuotedStrings (text : string) : string :=
  of_chars (st_result (strip_loop (chars text) false
    {| st_result := []; st_inSingle := false; st_inDouble := false |})).

Definition matchPatterns (text : string) (patterns : list CompiledPattern)
  : option CompiledPattern :=
  find (fun p => RegExp_test (regex p) text) patterns.

(** The denial built from a matching pattern. *)
Definition blocked (p : CompiledPattern) : ValidationResult :=
  {| allowed := false; reason := Some (c_reason p); severity := Some (c_severity p);
     pattern := Some (c_source p); source := Some SrcBlocklist |}.

(** The first element of [xs] whose image under [f] is a match. *)
Fixpoint first_match {A : Type} (f : A -> option CompiledPattern) (xs : list A)
  : option CompiledPattern :=
  match xs with
  | [] => None
  | x :: xs' =>
      match f x with
      | Some p => Some p
      | None => first_match f xs'
      end
  end.

(** The loop over file patterns of the Write/Edit and Read branches;
    [fps] is [policy.blocklist.file_patterns]. *)
Fixpoint checkFilePatterns (op : FileOperation) (fps : list FilePattern)
    (filePath : string) (ps : list CompiledPattern) : option ValidationResult :=
  match ps with
  | [] => None
  | p :: ps' =>
      if RegExp_test (regex p) filePath then
        match find (fun fp => String.eqb (fp_pattern fp) (c_source p)) fps with
        | Some fp =>
            if existsb (FileOperation_eqb op) (fp_operations fp)
            then Some (blocked p)
            else checkFilePatterns op fps filePath ps'
        | None => checkFilePatterns op fps filePath ps'
        end
      else checkFilePatterns op fps filePath ps'
  end.

(** [(toolInput.content as string) ?? (toolInput.new_string as string) ?? ""],
    for fields that are strings when they are there. *)
Definition written_content (input : HookInput) : string :=
  match Json.lookup "content" (tool_input input) with
  | Some (JStr s) => s
  | _ => input_string input "new_string"
  end.

(** The loop over [Object.values(toolInput)] of the MCP branch. *)
Fixpoint checkMcpValues (m : PatternMap) (kvs : list (string * json))
  : option ValidationResult :=
  match kvs with
  | [] => None
  | (_, JStr value) :: kvs' =>
      match matchPatterns value (pm_commands m) with
      | Some p => Some (blocked p)
      | None =>
      match matchPatterns value (pm_network m) with
      | Some p => Some (blocked p)
      | None =>
      match matchPatterns value (pm_secret_patterns m) with
      | Some p => Some (blocked p)
      | None => checkMcpValues m kvs'
      end end end
  | _ :: kvs' => checkMcpValues m kvs'
  end.

(** The Bash branch of [checkBlocklist]. *)
Definition checkBash (m : PatternMap) (command : string) : option ValidationResult :=
  match matchPatterns (stripQuotedStrings command) (pm_commands m) with
  | Some p => Some (blocked p)
  | None =>
  match first_match (fun seg => matchPatterns (stripQuotedStrings seg) (pm_commands m))
                    (splitShellCommand command) with
  | Some p => Some (blocked p)
  | None =>
  match first_match (fun sub => matchPatterns sub (pm_commands m))
                    (extractSubcommands command) with
  | Some p => Some (blocked p)
  | None =>
  match matchPatterns command (pm_network m) with
  | Some p => Some (blocked p)
  | None => None
  end end end end.

Definition checkBlocklist (input : HookInput) (policy : Policy)
  : M (option ValidationResult) :=
  m <- getPatterns policy ;;
  let tool := tool_name input in
  if String.eqb tool "Bash" then
    ret (checkBash m (input_string input "command"))
  else if String.eqb tool "Write" || String.eqb tool "Edit" then
    match checkFilePatterns OpWrite (file_patterns (blocklist policy))
            (input_string input "file_path") (pm_file_patterns m) with
    | Some r => ret (Some r)
    | None =>
        let content := written_content input in
        if nonempty content then
          match matchPatterns content (pm_secret_patterns m) with
          | Some p => ret (Some (blocked p))
          | None => ret None
          end
        else ret None
    end
  else if String.eqb tool "Read" then
    ret (checkFilePatterns OpRead (file_patterns (blocklist policy))
           (input_string input "file_path") (pm_file_patterns m))
  else if String.eqb tool "WebFetch" then
    match matchPatterns (input_string input "url") (pm_network m) with
    | Some p => ret (Some (blocked p))
    | None => ret None
    end
  else if startsWith tool "mcp__" then
    ret (checkMcpValues m (tool_input input))
  else ret None.

(* ================================================================== *)
(** * budget.ts *)
(* ================================================================== *)

(** [n.toFixed(2)] for an integer amount below 10^21. *)
Definition toFixed2 (n : Z) : string := of_Z n +:+ ".00".

(** The cost check of [checkBudget], for whole amounts: the state to
    return when the cost file gives a numeric [total_cost_usd], [None]
    when the file is missing or unreadable (the catch block), or
    carries no number. *)
Definition checkCost (limit : Z) (costPath : string) (count : Z)
    (fs : gmap string File) : option BudgetState :=
  match fs !! costPath with
  | Some f =>
      match JSON_parse (content f) with
      | Some (JObj costData) =>
          match Json.lookup "total_cost_usd" costData with
          | Some (JNum cost) =>
              if limit <=? cost then
                Some {| action_count := count; session_cost_usd := Some cost;
                        exceeded := true;
                        breach_reason := Some ("Cost limit exceeded: $" +:+ toFixed2 cost
                                               +:+ "/$" +:+ toFixed2 limit) |}
              else
                Some {| action_count := count; session_cost_usd := Some cost;
                        exceeded := false; breach_reason := None |}
          | _ => None
          end
      | _ => None
      end
  | None => None
  end.

Definition checkBudget (policy : Policy) (cwd : string) : M BudgetState :=
  s0 <- get ;;
  let count := actionCount s0 + 1 in
  put (set_actionCount count s0) ;;;
  let b := budget policy in
  let no_breach := {| action_count := count; session_cost_usd := None;
                      exceeded := false; breach_reason := None |} in
  if negb (budget_enabled b) then ret no_breach
  else if (0 <? max_actions_per_session b) && (max_actions_per_session b <? count) then
    ret {| action_count := count; session_cost_usd := None; exceeded := true;
           breach_reason := Some ("Action limit exceeded: " +:+ of_Z count +:+ "/"
                                  +:+ of_Z (max_actions_per_session b)) |}
  else
    match session_limit_usd b with
    | Some limit =>
        if nonempty (cost_file b) then
          match checkCost limit (path_resolve cwd (cost_file b)) count (files s0) with
          | Some st => ret st
          | None => ret no_breach
          end
        else ret no_breach
    | None => ret no_breach
    end.

Definition getActionCount : M Z := s <- get ;; ret (actionCount s).

Definition resetActionCount : M unit := s <- get ;; put (set_actionCount 0 s).

(* ================================================================== *)
(** * kill.ts *)
(* ================================================================== *)

Definition is_critical (sev : option Severity) : bool :=
  match sev with
  | Some Critical => true
  | _ => false
  end.

Definition is_kill (a : BreachAction) : bool :=
  match a with
  | BreachKill => true
  | _ => false
  end.

(** [shouldKill]: [Some reason] for [{ kill: true, reason }]. *)
Definition shouldKill (policy : Policy) (result : ValidationResult)
    (budgetState : BudgetState) : option string :=
  if negb (kill_enabled (kill_switch policy)) then None
  else if on_blocklist_critical (kill_switch policy) && negb (allowed result)
          && is_critical (severity result) then
    Some ("Critical policy violation: " +:+ default "null" (reason result))
  else if on_budget_breach (kill_switch policy) && exceeded budgetState
          && is_kill (action_on_breach (budget policy)) then
    Some ("Budget exceeded: " +:+ default "null" (breach_reason budgetState))
  else None.

Definition executeKill {A : Type} (why : string) (exitCode : Z) : M A :=
  s <- get ;;
  put (set_stderr (stderr s ++ ["GUARDIAN KILL SWITCH: " +:+ why +:+ ". Session terminated."]) s) ;;;
  exit exitCode.

(* ================================================================== *)
(** * audit.ts *)
(* ================================================================== *)

Definition computeHash (prevHash : string) (entryWithoutHash : list (string * json)) : string :=
  "sha256:" +:+ sha256_hex (prevHash +:+ Json.stringify (JObj entryWithoutHash)).

Definition getAuditPath (policy : Policy) (cwd : string) : string :=
  path_resolve cwd (audit_path (audit policy)).

(** The date part of an ISO-8601 time: [t.split("T")[0]]. *)
Definition iso_date (t : string) : string := split_head "T"%char t.

Definition is_daily (r : Rotation) : bool :=
  match r with
  | Daily => true
  | RotationNone => false
  end.

Definition shouldRotate (policy : Policy) (auditPath : string) (s : State) : bool :=
  match files s !! auditPath with
  | None => false
  | Some f =>
      if max_file_size_mb (audit policy) * (1024 * 1024) <=? file_size f then true
      else if is_daily (rotation (audit policy))
              && negb (String.eqb (iso_date (clock s)) (iso_date (mtime f)))
      then true
      else false
  end.

(** The file is renamed to [<base>.<date><ext>], or to
    [<base>.<date>.<N><ext>] for the first [N] that names no file; the
    model keeps the renamed file in [rotated] and does not compute its
    new name. *)
Definition rotateAuditFile (auditPath : string) : M unit :=
  s <- get ;;
  match files s !! auditPath with
  | Some f =>
      put (set_audit "" 0
             (set_rotated (rotated s ++ [(auditPath, f)])
                (set_files (delete auditPath (files s)) s)))
  | None => throw "ENOENT: no such file or directory, rename"
  end.

(** [content.trim()] and, unless it is empty, [content.split("\n")]. *)
Definition read_lines (content : string) : list string :=
  let c := trim content in
  if nonempty c then split c_newline c else [].

(** The object literal [entryWithoutHash] of [writeAuditEntry]. *)
Definition entryWithoutHash (ts : string) (seq : Z) (input : HookInput)
    (result : ValidationResult) (policy : Policy) (cwd : string)
    (budgetState : option BudgetSnapshot) : list (string * json) :=
  [ ("v", JNum 1);
    ("ts", JStr ts);
    ("sid", JStr (default "unknown" (session_id input)));
    ("seq", JNum seq);
    ("tool", JStr (tool_name input));
    ("input", if include_tool_input (audit policy) then JObj (tool_input input) else JNull);
    ("allowed", JBool (allowed result));
    ("reason", Json.of_option_string (reason result));
    ("severity", Json.of_option_string (option_map Severity_name (severity result)));
    ("policy_match", Json.of_option_string (pattern result));
    ("budget", match budgetState with
               | Some b => JObj [("remaining_usd", Json.of_option_Z (remaining_usd b));
                                 ("action_count", JNum (snapshot_action_count b))]
               | None => JNull
               end);
    ("cwd", JStr cwd) ].

(** Sequence number and hash recovered from the last line of an existing
    audit file; [None] when the file is blank or its last line does not
    parse (the catch block). *)
Definition resume_from (f : File) : option (Z * string) :=
  match last (read_lines (content f)) with
  | Some lastLine =>
      if nonempty lastLine then
        match JSON_parse lastLine with
        | Some (JObj lastEntry) =>
            Some (Json.as_number (Json.lookup "seq" lastEntry),
                  Json.as_string (Json.lookup "hash" lastEntry) "")
        | _ => None
        end
      else None
  | None => None
  end.

(** [fs.appendFileSync(path, text)] at the time of the clock. *)
Definition appendFile (path text : string) (s : State) : State :=
  let old := match files s !! path with
             | Some f => content f
             | None => ""
             end in
  set_files (<[path := {| content := old +:+ text; mtime := clock s |}]> (files s)) s.

Definition is_sha256_chain (i : Integrity) : bool :=
  match i with
  | Sha256Chain => true
  | IntegrityNone => false
  end.

(** The first half of [writeAuditEntry]: the rotation check, then the
    recovery of the sequence number and of the last hash from the tail of
    an existing file when [sequenceNumber] is 0. *)
Definition prepareAudit (policy : Policy) (auditPath : string) : M unit :=
  s0 <- get ;;
  (if shouldRotate policy auditPath s0 then rotateAuditFile auditPath else ret tt) ;;;
  s1 <- get ;;
  if sequenceNumber s1 =? 0 then
    match files s1 !! auditPath with
    | Some f =>
        match resume_from f with
        | Some (seq, h) => put (set_audit h seq s1)
        | None => ret tt
        end
    | None => ret tt
    end
  else ret tt.

(** The hash field of the entry [e] written after the hash [prev]. *)
Definition entryHash (policy : Policy) (prev : string) (e : list (string * json)) : string :=
  if is_sha256_chain (integrity (audit policy)) then computeHash prev e else "none".

Definition writeAuditEntry (input : HookInput) (result : ValidationResult)
    (policy : Policy) (cwd : string) (budgetState : option BudgetSnapshot) : M unit :=
  if negb (audit_enabled (audit policy)) then ret tt
  else
    let auditPath := getAuditPath policy cwd in
    prepareAudit policy auditPath ;;;
    s2 <- get ;;
    let seq := sequenceNumber s2 + 1 in
    let e := entryWithoutHash (clock s2) seq input result policy cwd budgetState in
    let hash := entryHash policy (lastHash s2) e in
    let entry := e ++ [("hash", JStr hash)] in
    put (appendFile auditPath (Json.stringify (JObj entry) +:+ nl) (set_audit hash seq s2)).

Record VerifyResult : Type := {
  valid : bool;
  entries : Z;
  brokenAt : option Z
}.

(** The loop of [verifyAuditChain] from index [i] on; [total] is
    [lines.length].  Destructuring [null] throws a TypeError; any other
    value that is not an object has no [hash] property. *)
Fixpoint verify_loop (total : Z) (i : Z) (prevHash : string) (lines : list string)
  : outcome VerifyResult :=
  match lines with
  | [] => Ret {| valid := true; entries := total; brokenAt := None |}
  | line :: rest =>
      match JSON_parse line with
      | None => Ret {| valid := false; entries := i; brokenAt := Some (i + 1) |}
      | Some JNull => Throw "TypeError: Cannot destructure 'entry' as it is null."
      | Some (JObj entry) =>
          let expectedHash := computeHash prevHash (Json.remove "hash" entry) in
          match Json.lookup "hash" entry with
          | Some (JStr hash) =>
              if String.eqb hash expectedHash
              then verify_loop total (i + 1) hash rest
              else Ret {| valid := false; entries := total; brokenAt := Some (i + 1) |}
          | _ => Ret {| valid := false; entries := total; brokenAt := Some (i + 1) |}
          end
      | Some _ => Ret {| valid := false; entries := total; brokenAt := Some (i + 1) |}
      end
  end.

(** [verifyAuditChain] on the content of an existing file. *)
Definition verifyContent (text : string) : outcome VerifyResult :=
  let lines := read_lines text in
  verify_loop (Z.of_nat (length lines)) 0 "" lines.

Definition verifyAuditChain (auditPath : string) (s : State) : outcome VerifyResult :=
  match files s !! auditPath with
  | None => Ret {| valid := true; entries := 0; brokenAt := None |}
  | Some f => verifyContent (content f)
  end.

Definition resetAuditState : M unit := s <- get ;; put (set_audit "" 0 s).

(* ================================================================== *)
(** * validator.ts *)
(* ================================================================== *)

Definition checkAllowlist (input : HookInput) (policy : Policy) : bool :=
  if String.eqb (tool_name input) "Bash"
     && includes (al_commands (allowlist policy)) (input_string input "command")
  then true
  else
    let filePath := input_string input "file_path" in
    if nonempty filePath
       && existsb (fun p => startsWith filePath p) (al_paths (allowlist policy))
    then true
    else if String.eqb (tool_name input) "WebFetch" then
      match URL_hostname (input_string input "url") with
      | Some hostname => includes (al_domains (allowlist policy)) hostname
      | None => false
      end
    else false.

Definition checkScope (input : HookInput) (policy : Policy) (cwd : string)
  : option ValidationResult :=
  let filePath := input_string input "file_path" in
  if negb (nonempty filePath) then None
  else
    let resolved := path_resolve cwd filePath in
    match find (fun denied => startsWith resolved denied) (denied_paths (scope policy)) with
    | Some denied =>
        Some {| allowed := false;
                reason := Some ("Path in denied scope: " +:+ denied);
                severity := Some High;
                pattern := Some denied;
                source := Some SrcScope |}
    | None =>
        if negb (allow_outside_cwd (scope policy)) then
          let expandedAllowed :=
            map (fun p => JsString.replace p "{cwd}" cwd) (allowed_paths (scope policy)) in
          let inAllowed := existsb (fun a => startsWith resolved a) expandedAllowed in
          if negb inAllowed then
            Some {| allowed := false;
                    reason := Some ("Path outside allowed scope: " +:+ resolved);
                    severity := Some High;
                    pattern := Some cwd;
                    source := Some SrcScope |}
          else None
        else None
    end.

Definition allow (src : option Source) : ValidationResult :=
  {| allowed := true; reason := None; severity := None; pattern := None; source := src |}.

(** [session_limit_usd - session_cost_usd] when both are known. *)
Definition remaining (policy : Policy) (budgetState : BudgetState) : option Z :=
  match session_cost_usd budgetState, session_limit_usd (budget policy) with
  | Some cost, Some limit => Some (limit - cost)
  | _, _ => None
  end.

Definition snapshot (policy : Policy) (budgetState : BudgetState) : option BudgetSnapshot :=
  Some {| remaining_usd := remaining policy budgetState;
          snapshot_action_count := action_count budgetState |}.

(** The object literal [budgetResult] of [validate]. *)
Definition budgetResult (budgetState : BudgetState) : ValidationResult :=
  {| allowed := false; reason := breach_reason budgetState;
     severity := Some High; pattern := None; source := Some SrcBudget |}.

Definition validate (input : HookInput) (policy : Policy) (cwd : string)
  : M ValidationResult :=
  if Mode_eqb (mode policy) Off then ret (allow None)
  else if checkAllowlist input policy then ret (allow (Some SrcAllowlist))
  else
    match checkScope input policy cwd with
    | Some scopeResult =>
        if Mode_eqb (mode policy) Audit then ret (with_allowed_true scopeResult)
        else ret scopeResult
    | None =>
        blocklistResult <- checkBlocklist input policy ;;
        match blocklistResult with
        | Some r =>
            if Mode_eqb (mode policy) Audit then ret (with_allowed_true r)
            else ret r
        | None =>
            budgetState <- checkBudget policy cwd ;;
            if exceeded budgetState then
              let r := budgetResult budgetState in
              if Mode_eqb (mode policy) Audit then ret (with_allowed_true r)
              else
                writeAuditEntry input r policy cwd (snapshot policy budgetState) ;;;
                match shouldKill policy r budgetState with
                | Some why => executeKill why (exit_code (kill_switch policy))
                | None => ret r
                end
            else ret (allow None)
        end
    end.

Definition validateAndAudit (input : HookInput) (policy : Policy) (cwd : string)
  : M ValidationResult :=
  result <- validate input policy cwd ;;
  budgetState <- checkBudget policy cwd ;;
  writeAuditEntry input result policy cwd (snapshot policy budgetState) ;;;
  if negb (allowed result) && is_critical (severity result) then
    match shouldKill policy result budgetState with
    | Some why => executeKill why (exit_code (kill_switch policy))
    | None => ret result
    end
  else ret result.

End Guardian.

(* ================================================================== *)
(** * A model of the Node.js runtime *)
(* ================================================================== *)

(** ** Regular expressions

    The part of the ECMAScript pattern language that the bundled
    patterns use: alternation, groups, look-ahead, quantifiers,
    character classes, class escapes, word boundaries and anchors, with
    the flags g, i, m, s, y and d.  Back-references, named groups and
    Unicode escapes are outside this model, whose constructor rejects
    them. *)
Module Regex.
Import JsString.

Inductive item : Type :=
| IChar (c : ascii)
| IRange (lo hi : ascii)
| ISpace (neg : bool)
| IDigit (neg : bool)
| IWord (neg : bool).

Inductive re : Type :=
| REmpty
| RChar (c : ascii)
| RAny
| RClass (neg : bool) (items : list item)
| RSeq (a b : re)
| RAlt (a b : re)
| RStar (a : re)
| RLook (neg : bool) (a : re)
| RWordB (neg : bool)
| RBol
| REol.

Record flags : Type := {
  ignoreCase : bool;
  multiline : bool;
  dotAll : bool;
  sticky : bool
}.

Record compiled : Type := { body : re; fl : flags }.

Definition code (c : ascii) : nat := nat_of_ascii c.

Definition between (lo hi : nat) (c : ascii) : bool :=
  (lo <=? code c)%nat && (code c <=? hi)%nat.

Definition is_digit (c : ascii) : bool := between 48 57 c.
Definition is_upper (c : ascii) : bool := between 65 90 c.
Definition is_lower (c : ascii) : bool := between 97 122 c.
Definition is_word (c : ascii) : bool :=
  is_digit c || is_upper c || is_lower c || Ascii.eqb c "_"%char.
Definition is_line_end (c : ascii) : bool :=
  (code c =? 10)%nat || (code c =? 13)%nat.

Definition upper (c : ascii) : ascii :=
  if is_lower c then ascii_of_nat (code c - 32) else c.
Definition lower (c : ascii) : ascii :=
  if is_upper c then ascii_of_nat (code c + 32) else c.

Definition item_has (i : item) (c : ascii) : bool :=
  match i with
  | IChar d => Ascii.eqb c d
  | IRange lo hi => between (code lo) (code hi) c
  | ISpace neg => xorb neg (is_ws c)
  | IDigit neg => xorb neg (is_digit c)
  | IWord neg => xorb neg (is_word c)
  end.

Definition items_have (ic : bool) (items : list item) (c : ascii) : bool :=
  existsb (fun i => item_has i c
                    || (ic && (item_has i (upper c) || item_has i (lower c)))) items.

Definition char_eq (ic : bool) (c d : ascii) : bool :=
  if ic then Ascii.eqb (upper c) (upper d) else Ascii.eqb c d.

Definition word_opt (o : option ascii) : bool :=
  match o with
  | Some c => is_word c
  | None => false
  end.

Definition line_end_opt (o : option ascii) : bool :=
  match o with
  | Some c => is_line_end c
  | None => false
  end.

(** Backtracking matcher in continuation-passing style: [prev] is the
    character before the current position, [s] the rest of the input,
    [k] what remains to be matched.  An iteration of a star has to
    consume input. *)
Fixpoint run (f : flags) (r : re) (prev : option ascii) (s : list ascii)
    (k : option ascii -> list ascii -> bool) {struct r} : bool :=
  match r with
  | REmpty => k prev s
  | RChar c =>
      match s with
      | d :: s' => char_eq (ignoreCase f) d c && k (Some d) s'
      | [] => false
      end
  | RAny =>
      match s with
      | d :: s' => (dotAll f || negb (is_line_end d)) && k (Some d) s'
      | [] => false
      end
  | RClass neg items =>
      match s with
      | d :: s' => xorb neg (items_have (ignoreCase f) items d) && k (Some d) s'
      | [] => false
      end
  | RSeq a b => run f a prev s (fun p' s' => run f b p' s' k)
  | RAlt a b => run f a prev s k || run f b prev s k
  | RStar a =>
      (fix star (n : nat) (prev : option ascii) (s : list ascii) {struct n} : bool :=
         match n with
         | O => k prev s
         | S n' =>
             run f a prev s
               (fun p' s' => (length s' <? length s)%nat && star n' p' s')
             || k prev s
         end) (S (length s)) prev s
  | RLook neg a => xorb neg (run f a prev s (fun _ _ => true)) && k prev s
  | RWordB neg => xorb neg (xorb (word_opt prev) (word_opt (head s))) && k prev s
  | RBol =>
      match prev with
      | None => k prev s
      | Some c => multiline f && is_line_end c && k prev s
      end
  | REol =>
      match s with
      | [] => k prev s
      | c :: _ => multiline f && is_line_end c && k prev s
      end
  end.

Fixpoint search (f : flags) (r : re) (prev : option ascii) (s : list ascii) : bool :=
  run f r prev s (fun _ _ => true)
  || match s with
     | [] => false
     | c :: s' => search f r (Some c) s'
     end.

(** [r.lastIndex = 0; r.test(text)] *)
Definition test (r : compiled) (text : string) : bool :=
  if sticky (fl r) then run (fl r) (body r) None (chars text) (fun _ _ => true)
  else search (fl r) (body r) None (chars text).

(** *** The pattern parser *)

Definition one_of (c : ascii) (s : string) : bool :=
  existsb (Ascii.eqb c) (chars s).

Fixpoint digits (acc : nat) (seen : bool) (cs : list ascii) : option (nat * list ascii) :=
  match cs with
  | c :: cs' =>
      if is_digit c then digits (10 * acc + (code c - 48)) true cs'
      else if seen then Some (acc, cs) else None
  | [] => if seen then Some (acc, cs) else None
  end.

Fixpoint times (n : nat) (a : re) : re :=
  match n with
  | O => REmpty
  | S n' => RSeq a (times n' a)
  end.

Fixpoint upto (n : nat) (a : re) : re :=
  match n with
  | O => REmpty
  | S n' => RAlt (RSeq a (upto n' a)) REmpty
  end.

(** A braced quantifier after its opening brace. *)
Definition braces (a : re) (cs : list ascii) : option (re * list ascii) :=
  match digits 0 false cs with
  | Some (lo, c :: rest) =>
      if Ascii.eqb c "}"%char then Some (times lo a, rest)
      else if Ascii.eqb c ","%char then
        match rest with
        | d :: rest' =>
            if Ascii.eqb d "}"%char then Some (RSeq (times lo a) (RStar a), rest')
            else
              match digits 0 false rest with
              | Some (hi, e :: rest'') =>
                  if Ascii.eqb e "}"%char && (lo <=? hi)%nat
                  then Some (RSeq (times lo a) (upto (hi - lo) a), rest'')
                  else None
              | _ => None
              end
        | [] => None
        end
      else None
  | _ => None
  end.

(** A lazy quantifier matches the same texts as the greedy one. *)
Definition lazy_mark (cs : list ascii) : list ascii :=
  match cs with
  | c :: rest => if Ascii.eqb c "?"%char then rest else cs
  | [] => cs
  end.

Definition quantifier (a : re) (cs : list ascii) : re * list ascii :=
  match cs with
  | c :: rest =>
      if Ascii.eqb c "*"%char then (RStar a, lazy_mark rest)
      else if Ascii.eqb c "+"%char then (RSeq a (RStar a), lazy_mark rest)
      else if Ascii.eqb c "?"%char then (RAlt a REmpty, lazy_mark rest)
      else if Ascii.eqb c "{"%char then
        match braces a rest with
        | Some (r, rest') => (r, lazy_mark rest')
        | None => (a, cs)
        end
      else (a, cs)
  | [] => (a, cs)
  end.

(** The class escapes, inside and outside a character class. *)
Definition class_escape (e : ascii) : option item :=
  if Ascii.eqb e "s"%char then Some (ISpace false)
  else if Ascii.eqb e "S"%char then Some (ISpace true)
  else if Ascii.eqb e "d"%char then Some (IDigit false)
  else if Ascii.eqb e "D"%char then Some (IDigit true)
  else if Ascii.eqb e "w"%char then Some (IWord false)
  else if Ascii.eqb e "W"%char then Some (IWord true)
  else None.

(** The character an escape stands for; [None] for escapes that are
    not modelled. *)
Definition char_escape (e : ascii) : option ascii :=
  if Ascii.eqb e "n"%char then Some "010"%char
  else if Ascii.eqb e "r"%char then Some "013"%char
  else if Ascii.eqb e "t"%char then Some "009"%char
  else if Ascii.eqb e "f"%char then Some "012"%char
  else if Ascii.eqb e "v"%char then Some "011"%char
  else if Ascii.eqb e "0"%char then Some "000"%char
  else if is_digit e || is_upper e || is_lower e then None
  else Some e.

(** One member of a character class: a character or a class escape. *)
Definition class_atom (cs : list ascii) : option (item * list ascii) :=
  match cs with
  | c :: rest =>
      if Ascii.eqb c c_bslash then
        match rest with
        | e :: rest' =>
            match class_escape e with
            | Some i => Some (i, rest')
            | None =>
                if Ascii.eqb e "b"%char then Some (IChar "008"%char, rest')
                else match char_escape e with
                     | Some d => Some (IChar d, rest')
                     | None => None
                     end
            end
        | [] => None
        end
      else Some (IChar c, rest)
  | [] => None
  end.

(** The members of a class up to its closing bracket. *)
Fixpoint class_items (fuel : nat) (cs : list ascii) : option (list item * list ascii) :=
  match fuel with
  | O => None
  | S n =>
      match cs with
      | [] => None
      | c :: rest =>
          if Ascii.eqb c "]"%char then Some ([], rest)
          else
            match class_atom cs with
            | Some (IChar lo, d :: rest1) =>
                if Ascii.eqb d "-"%char then
                  match rest1 with
                  | e :: _ =>
                      if Ascii.eqb e "]"%char then
                        match class_items n (d :: rest1) with
                        | Some (its, r) => Some (IChar lo :: its, r)
                        | None => None
                        end
                      else
                        match class_atom rest1 with
                        | Some (IChar hi, rest2) =>
                            if (code lo <=? code hi)%nat then
                              match class_items n rest2 with
                              | Some (its, r) => Some (IRange lo hi :: its, r)
                              | None => None
                              end
                            else None
                        | Some (i, rest2) =>
                            match class_items n rest2 with
                            | Some (its, r) => Some (IChar lo :: IChar "-"%char :: i :: its, r)
                            | None => None
                            end
                        | None => None
                        end
                  | [] => None
                  end
                else
                  match class_items n (d :: rest1) with
                  | Some (its, r) => Some (IChar lo :: its, r)
                  | None => None
                  end
            | Some (i, rest1) =>
                match class_items n rest1 with
                | Some (its, r) => Some (i :: its, r)
                | None => None
                end
            | None => None
            end
      end
  end.

Definition char_class (cs : list ascii) : option (re * list ascii) :=
  let '(neg, cs') :=
    match cs with
    | c :: rest => if Ascii.eqb c "^"%char then (true, rest) else (false, cs)
    | [] => (false, cs)
    end in
  match class_items (S (length cs')) cs' with
  | Some (its, rest) => Some (RClass neg its, rest)
  | None => None
  end.

(** What follows the opening parenthesis of a group: the kind of the
    group and the start of its body. *)
Definition group_kind (cs : list ascii) : option ((re -> re) * list ascii) :=
  match cs with
  | c :: d :: rest =>
      if Ascii.eqb c "?"%char then
        if Ascii.eqb d ":"%char then Some (fun r => r, rest)
        else if Ascii.eqb d "="%char then Some (RLook false, rest)
        else if Ascii.eqb d "!"%char then Some (RLook true, rest)
        else None
      else Some (fun r => r, cs)
  | _ => Some (fun r => r, cs)
  end.

Fixpoint disjunction (fuel : nat) (cs : list ascii) : option (re * list ascii) :=
  match fuel with
  | O => None
  | S n =>
      match alternative n cs with
      | Some (a, c :: rest) =>
          if Ascii.eqb c "|"%char then
            match disjunction n rest with
            | Some (b, rest') => Some (RAlt a b, rest')
            | None => None
            end
          else Some (a, c :: rest)
      | other => other
      end
  end
with alternative (fuel : nat) (cs : list ascii) : option (re * list ascii) :=
  match fuel with
  | O => None
  | S n =>
      match cs with
      | [] => Some (REmpty, [])
      | c :: _ =>
          if one_of c "|)" then Some (REmpty, cs)
          else
            match term n cs with
            | Some (t, rest) =>
                match alternative n rest with
                | Some (u, rest') => Some (RSeq t u, rest')
                | None => None
                end
            | None => None
            end
      end
  end
with term (fuel : nat) (cs : list ascii) : option (re * list ascii) :=
  match fuel with
  | O => None
  | S n =>
      match cs with
      | [] => None
      | c :: rest =>
          if Ascii.eqb c "("%char then
            match group_kind rest with
            | Some (wrap, inner) =>
                match disjunction n inner with
                | Some (r, d :: rest') =>
                    if Ascii.eqb d ")"%char then Some (quantifier (wrap r) rest')
                    else None
                | _ => None
                end
            | None => None
            end
          else if Ascii.eqb c "["%char then
            match char_class rest with
            | Some (r, rest') => Some (quantifier r rest')
            | None => None
            end
          else if Ascii.eqb c "."%char then Some (quantifier RAny rest)
          else if Ascii.eqb c "^"%char then Some (RBol, rest)
          else if Ascii.eqb c "$"%char then Some (REol, rest)
          else if Ascii.eqb c c_bslash then
            match rest with
            | e :: rest' =>
                if Ascii.eqb e "b"%char then Some (RWordB false, rest')
                else if Ascii.eqb e "B"%char then Some (RWordB true, rest')
                else
                  match class_escape e with
                  | Some i => Some (quantifier (RClass false [i]) rest')
                  | None =>
                      match char_escape e with
                      | Some d => Some (quantifier (RChar d) rest')
                      | None => None
                      end
                  end
            | [] => None
            end
          else if one_of c "*+?" then None
          else Some (quantifier (RChar c) rest)
      end
  end.

Fixpoint parse_flags (cs : list ascii) (seen : list ascii) (f : flags) : option flags :=
  match cs with
  | [] => Some f
  | c :: cs' =>
      if existsb (Ascii.eqb c) seen then None
      else if Ascii.eqb c "i"%char then
        parse_flags cs' (c :: seen)
          {| ignoreCase := true; multiline := multiline f; dotAll := dotAll f; sticky := sticky f |}
      else if Ascii.eqb c "m"%char then
        parse_flags cs' (c :: seen)
          {| ignoreCase := ignoreCase f; multiline := true; dotAll := dotAll f; sticky := sticky f |}
      else if Ascii.eqb c "s"%char then
        parse_flags cs' (c :: seen)
          {| ignoreCase := ignoreCase f; multiline := multiline f; dotAll := true; sticky := sticky f |}
      else if Ascii.eqb c "y"%char then
        parse_flags cs' (c :: seen)
          {| ignoreCase := ignoreCase f; multiline := multiline f; dotAll := dotAll f; sticky := true |}
      else if one_of c "gd" then parse_flags cs' (c :: seen) f
      else None
  end.

(** [new RegExp(pattern, flags)] *)
Definition make (pattern flags_text : string) : option compiled :=
  match parse_flags (chars flags_text) []
          {| ignoreCase := false; multiline := false; dotAll := false; sticky := false |} with
  | Some f =>
      match disjunction (4 * String.length pattern + 8) (chars pattern) with
      | Some (r, []) => Some {| body := r; fl := f |}
      | _ => None
      end
  | None => None
  end.

End Regex.

(** ** JSON.parse

    A recursive-descent parser of JSON texts into [json].  Number tokens
    with a fraction or an exponent and [\u] escapes above U+00FF have no
    value in [json]; the parser rejects them. *)
Module JsonParse.
Import JsString.

Definition is_json_ws (c : ascii) : bool :=
  let n := nat_of_ascii c in
  (n =? 32)%nat || (n =? 9)%nat || (n =? 10)%nat || (n =? 13)%nat.

Fixpoint skip_ws (cs : list ascii) : list ascii :=
  match cs with
  | c :: cs' => if is_json_ws c then skip_ws cs' else cs
  | [] => []
  end.

(** [cs] without the prefix [p], when it starts with it. *)
Fixpoint strip_prefix (p cs : list ascii) : option (list ascii) :=
  match p, cs with
  | [], _ => Some cs
  | a :: p', c :: cs' => if Ascii.eqb a c then strip_prefix p' cs' else None
  | _ :: _, [] => None
  end.

Definition hex_value (c : ascii) : option nat :=
  let n := nat_of_ascii c in
  if (48 <=? n)%nat && (n <=? 57)%nat then Some (n - 48)%nat
  else if (97 <=? n)%nat && (n <=? 102)%nat then Some (n - 87)%nat
  else if (65 <=? n)%nat && (n <=? 70)%nat then Some (n - 55)%nat
  else None.

(** The four hexadecimal digits of a [\u] escape. *)
Definition unicode_escape (cs : list ascii) : option (ascii * list ascii) :=
  match cs with
  | a :: b :: c :: d :: rest =>
      match hex_value a, hex_value b, hex_value c, hex_value d with
      | Some 0%nat, Some 0%nat, Some h, Some l => Some (ascii_of_nat (16 * h + l), rest)
      | _, _, _, _ => None
      end
  | _ => None
  end.

(** The characters of a string token after its opening quote. *)
Fixpoint string_body (cs : list ascii) (acc : list ascii) : option (string * list ascii) :=
  match cs with
  | [] => None
  | c :: rest =>
      if Ascii.eqb c c_dquote then Some (of_chars (rev acc), rest)
      else if Ascii.eqb c c_bslash then
        match rest with
        | e :: rest' =>
            if Ascii.eqb e c_dquote then string_body rest' (c_dquote :: acc)
            else if Ascii.eqb e c_bslash then string_body rest' (c_bslash :: acc)
            else if Ascii.eqb e "/"%char then string_body rest' ("/"%char :: acc)
            else if Ascii.eqb e "b"%char then string_body rest' ("008"%char :: acc)
            else if Ascii.eqb e "f"%char then string_body rest' ("012"%char :: acc)
            else if Ascii.eqb e "n"%char then string_body rest' ("010"%char :: acc)
            else if Ascii.eqb e "r"%char then string_body rest' ("013"%char :: acc)
            else if Ascii.eqb e "t"%char then string_body rest' ("009"%char :: acc)
            else if Ascii.eqb e "u"%char then
              match rest' with
              | a :: rest2 =>
                  match rest2 with
                  | b :: rest3 =>
                      match rest3 with
                      | x :: rest4 =>
                          match rest4 with
                          | y :: rest5 =>
                              match unicode_escape [a; b; x; y] with
                              | Some (u, _) => string_body rest5 (u :: acc)
                              | None => None
                              end
                          | [] => None
                          end
                      | [] => None
                      end
                  | [] => None
                  end
              | [] => None
              end
            else None
        | [] => None
        end
      else if (nat_of_ascii c <? 32)%nat then None
      else string_body rest (c :: acc)
  end.

Fixpoint digit_run (cs : list ascii) (acc : Z) : Z * list ascii :=
  match cs with
  | c :: rest =>
      if Regex.is_digit c then digit_run rest (10 * acc + Z.of_nat (nat_of_ascii c - 48))
      else (acc, cs)
  | [] => (acc, cs)
  end.

(** An integer token: an optional minus sign, then [0] or a run of
    digits that does not start with [0]; a fraction or an exponent
    after it is rejected. *)
Definition number (cs : list ascii) : option (Z * list ascii) :=
  let '(neg, ds) :=
    match cs with
    | c :: rest => if Ascii.eqb c "-"%char then (true, rest) else (false, cs)
    | [] => (false, cs)
    end in
  match ds with
  | d :: rest =>
      if Regex.is_digit d then
        let '(n, rest') :=
          if Ascii.eqb d "0"%char then (0, rest) else digit_run ds 0 in
        match rest' with
        | e :: _ =>
            if Regex.one_of e ".eE" || Regex.is_digit e then None
            else Some (if neg then - n else n, rest')
        | [] => Some (if neg then - n else n, rest')
        end
      else None
  | [] => None
  end.

(** [o[k] = v]: an existing property keeps its place. *)
Fixpoint obj_set (k : string) (v : json) (kvs : list (string * json))
  : list (string * json) :=
  match kvs with
  | [] => [(k, v)]
  | (k', v') :: kvs' =>
      if String.eqb k k' then (k, v) :: kvs' else (k', v') :: obj_set k v kvs'
  end.

Fixpoint value (fuel : nat) (cs : list ascii) : option (json * list ascii) :=
  match fuel with
  | O => None
  | S n =>
      match skip_ws cs with
      | [] => None
      | c :: rest =>
          if Ascii.eqb c c_dquote then
            match string_body rest [] with
            | Some (s, rest') => Some (JStr s, rest')
            | None => None
            end
          else if Ascii.eqb c "["%char then
            match skip_ws rest with
            | d :: rest' =>
                if Ascii.eqb d "]"%char then Some (JArr [], rest')
                else
                  match elements n rest with
                  | Some (xs, rest'') => Some (JArr xs, rest'')
                  | None => None
                  end
            | [] => None
            end
          else if Ascii.eqb c "{"%char then
            match skip_ws rest with
            | d :: rest' =>
                if Ascii.eqb d "}"%char then Some (JObj [], rest')
                else
                  match members n rest [] with
                  | Some (kvs, rest'') => Some (JObj kvs, rest'')
                  | None => None
                  end
            | [] => None
            end
          else if Ascii.eqb c "n"%char then
            option_map (fun r => (JNull, r)) (strip_prefix (chars "ull") rest)
          else if Ascii.eqb c "t"%char then
            option_map (fun r => (JBool true, r)) (strip_prefix (chars "rue") rest)
          else if Ascii.eqb c "f"%char then
            option_map (fun r => (JBool false, r)) (strip_prefix (chars "alse") rest)
          else
            match number (c :: rest) with
            | Some (z, rest') => Some (JNum z, rest')
            | None => None
            end
      end
  end
with elements (fuel : nat) (cs : list ascii) : option (list json * list ascii) :=
  match fuel with
  | O => None
  | S n =>
      match value n cs with
      | Some (v, rest) =>
          match skip_ws rest with
          | c :: rest' =>
              if Ascii.eqb c ","%char then
                match elements n rest' with
                | Some (vs, rest'') => Some (v :: vs, rest'')
                | None => None
                end
              else if Ascii.eqb c "]"%char then Some ([v], rest')
              else None
          | [] => None
          end
      | None => None
      end
  end
with members (fuel : nat) (cs : list ascii) (acc : list (string * json))
  : option (list (string * json) * list ascii) :=
  match fuel with
  | O => None
  | S n =>
      match skip_ws cs with
      | q :: rest0 =>
          if Ascii.eqb q c_dquote then
            match string_body rest0 [] with
            | Some (k, rest1) =>
                match skip_ws rest1 with
                | colon :: rest2 =>
                    if Ascii.eqb colon ":"%char then
                      match value n rest2 with
                      | Some (v, rest3) =>
                          match skip_ws rest3 with
                          | c :: rest4 =>
                              if Ascii.eqb c ","%char then members n rest4 (obj_set k v acc)
                              else if Ascii.eqb c "}"%char then Some (obj_set k v acc, rest4)
                              else None
                          | [] => None
                          end
                      | None => None
                      end
                    else None
                | [] => None
                end
            | None => None
            end
          else None
      | [] => None
      end
  end.

(** [JSON.parse(text)] *)
Definition parse (text : string) : option json :=
  match value (2 * String.length text + 2) (chars text) with
  | Some (v, rest) =>
      match skip_ws rest with
      | [] => Some v
      | _ :: _ => None
      end
  | None => None
  end.

End JsonParse.

(** ** path.resolve and URL *)
Module NodePath.
Import JsString.

(** The segments of a path, with [.] and empty segments dropped and
    [..] resolved. *)
Fixpoint normalize (segs : list string) (stack : list string) : list string :=
  match segs with
  | [] => rev stack
  | seg :: segs' =>
      if String.eqb seg "" || String.eqb seg "." then normalize segs' stack
      else if String.eqb seg ".." then normalize segs' (tail stack)
      else normalize segs' (seg :: stack)
  end.

Definition absolute (p : string) : string :=
  "/" +:+ join "/" (normalize (split "/"%char p) []).

(** [path.resolve(a, b)] on POSIX, the working directory of the
    process being the root. *)
Definition resolve (a b : string) : string :=
  if startsWith b "/" then absolute b
  else absolute (a +:+ "/" +:+ b).

Fixpoint take_until (stop : ascii -> bool) (cs : list ascii) (acc : list ascii)
  : list ascii * list ascii :=
  match cs with
  | [] => (rev acc, [])
  | c :: rest => if stop c then (rev acc, cs) else take_until stop rest (c :: acc)
  end.

Definition is_scheme_char (c : ascii) : bool :=
  Regex.is_digit c || Regex.is_upper c || Regex.is_lower c || Regex.one_of c "+-.".

(** [new URL(u).hostname] for a URL of the form
    [scheme://userinfo@host:port/...]; a text without a scheme is not a
    URL. *)
Definition hostname (u : string) : option string :=
  let '(scheme, rest) := take_until (fun c => negb (is_scheme_char c)) (chars u) [] in
  match scheme, rest with
  | s0 :: _, colon :: after =>
      if (Regex.is_upper s0 || Regex.is_lower s0) && Ascii.eqb colon ":"%char then
        match JsonParse.strip_prefix (chars "//") after with
        | Some auth =>
            let '(authority, _) := take_until (fun c => Regex.one_of c "/?#") auth [] in
            let host_port :=
              match find_first ["@"%char] [] authority with
              | Some (_, h) => h
              | None => authority
              end in
            let '(host, _) := take_until (fun c => Ascii.eqb c ":"%char) host_port [] in
            Some (of_chars (map Regex.lower host))
        | None => Some ""
        end
      else None
  | _, _ => None
  end.

End NodePath.

(** ** SHA-256 (FIPS 180-4) over the UTF-8 bytes of a string *)
Module Sha256.
Import JsString.

Definition w32 (x : Z) : Z := x mod 4294967296.
Definition add (x y : Z) : Z := w32 (x + y).
Definition rotr (n x : Z) : Z := Z.lor (Z.shiftr x n) (w32 (Z.shiftl x (32 - n))).
Definition shr (n x : Z) : Z := Z.shiftr x n.
Definition xor3 (x y z : Z) : Z := Z.lxor (Z.lxor x y) z.

Definition Ch (x y z : Z) : Z := Z.lxor (Z.land x y) (Z.land (w32 (Z.lnot x)) z).
Definition Maj (x y z : Z) : Z := xor3 (Z.land x y) (Z.land x z) (Z.land y z).
Definition Sigma0 (x : Z) : Z := xor3 (rotr 2 x) (rotr 13 x) (rotr 22 x).
Definition Sigma1 (x : Z) : Z := xor3 (rotr 6 x) (rotr 11 x) (rotr 25 x).
Definition sigma0 (x : Z) : Z := xor3 (rotr 7 x) (rotr 18 x) (shr 3 x).
Definition sigma1 (x : Z) : Z := xor3 (rotr 17 x) (rotr 19 x) (shr 10 x).

(** The largest [r] below [2 ^ bits] with [r ^ 3 <= x]. *)
Fixpoint cube_root (bits : nat) (x r : Z) : Z :=
  match bits with
  | O => r
  | S n =>
      let r' := r + 2 ^ Z.of_nat n in
      cube_root n x (if r' * r' * r' <=? x then r' else r)
  end.

Definition is_prime (n : Z) : bool :=
  forallb (fun d => negb (n mod Z.of_nat d =? 0)) (seq 2 (Z.to_nat n - 2)).

(** The first [n] primes. *)
Definition primes (n : nat) : list Z :=
  firstn n (List.filter is_prime (map Z.of_nat (seq 2 400))).

(** The round constants: the first 32 bits of the fractional parts of
    the cube roots of the first 64 primes. *)
Definition K : list Z :=
  Eval vm_compute in map (fun q => w32 (cube_root 36 (q * 2 ^ 96) 0)) (primes 64).

(** The initial hash value: the first 32 bits of the fractional parts of
    the square roots of the first 8 primes. *)
Definition H0 : list Z :=
  Eval vm_compute in map (fun q => w32 (Z.sqrt (q * 2 ^ 64))) (primes 8).

(** The UTF-8 bytes of a code unit below U+0100. *)
Definition utf8 (c : ascii) : list Z :=
  let n := Z.of_nat (nat_of_ascii c) in
  if n <? 128 then [n] else [192 + n / 64; 128 + n mod 64].

Definition be64 (n : Z) : list Z :=
  map (fun i => Z.shiftr n (8 * i) mod 256) [7; 6; 5; 4; 3; 2; 1; 0].

(** The message followed by the bit 1, zero bytes up to 56 modulo 64
    and the bit length on eight bytes. *)
Definition pad (bytes : list Z) : list Z :=
  let len := Z.of_nat (length bytes) in
  let zeros := Z.to_nat ((55 - len) mod 64) in
  bytes ++ [128] ++ repeat 0 zeros ++ be64 (8 * len).

(** Big-endian words of a byte string whose length is a multiple of 4. *)
Fixpoint words (fuel : nat) (bytes : list Z) : list Z :=
  match fuel with
  | O => []
  | S n =>
      match bytes with
      | a :: b :: c :: d :: rest =>
          (((a * 256 + b) * 256 + c) * 256 + d) :: words n rest
      | _ => []
      end
  end.

(** The message schedule: [w] holds the last sixteen words. *)
Fixpoint schedule (n : nat) (w : list Z) : list Z :=
  match n with
  | O => []
  | S n' =>
      let next := add (add (sigma1 (nth 14 w 0)) (nth 9 w 0))
                      (add (sigma0 (nth 1 w 0)) (nth 0 w 0)) in
      next :: schedule n' (tail w ++ [next])
  end.

Definition round (st : list Z) (kw : Z * Z) : list Z :=
  match st with
  | [a; b; c; d; e; f; g; h] =>
      let t1 := add (add (add h (Sigma1 e)) (add (Ch e f g) (fst kw))) (snd kw) in
      let t2 := add (Sigma0 a) (Maj a b c) in
      [add t1 t2; a; b; c; add d t1; e; f; g]
  | _ => st
  end.

Definition compress (h : list Z) (block : list Z) : list Z :=
  let w := block ++ schedule 48 block in
  let st := fold_left round (combine K w) h in
  map (fun p => add (fst p) (snd p)) (combine h st).

Fixpoint blocks (fuel : nat) (ws : list Z) (h : list Z) : list Z :=
  match fuel with
  | O => h
  | S n =>
      match ws with
      | [] => h
      | _ => blocks n (skipn 16 ws) (compress h (firstn 16 ws))
      end
  end.

Definition hex8 (x : Z) : list ascii :=
  map (fun i => Json.hex_digit (Z.to_nat (Z.shiftr x (4 * i) mod 16)))
      [7; 6; 5; 4; 3; 2; 1; 0].

(** [crypto.createHash("sha256").update(s).digest("hex")] *)
Definition hex (s : string) : string :=
  let bytes := pad (flat_map utf8 (chars s)) in
  let ws := words (length bytes) bytes in
  of_chars (flat_map hex8 (blocks (length ws) ws H0)).

End Sha256.

(** The runtime of the worked examples. *)
#[export] Instance node : Runtime := {|
  sha256_hex := Sha256.hex;
  JSON_parse := JsonParse.parse;
  RegExp := Regex.compiled;
  RegExp_new := Regex.make;
  RegExp_test := Regex.test;
  path_resolve := NodePath.resolve;
  URL_hostname := NodePath.hostname
|}.

(* ================================================================== *)
(** * The pattern bundles (src/patterns) and the default policy *)
(* ================================================================== *)

(** Four reasons of the bundles hold a dash U+2014, which is no code
    unit of the model; it is written as a hyphen.  A reason is only
    copied into the verdict and the audit entry. *)
Module Patterns.
Import JsString.

Definition cmd (p : string) (sev : Severity) (why : string) : CommandPattern :=
  {| cp_pattern := p; cp_severity := sev; cp_reason := why; cp_flags := None |}.

Definition cmd_i (p : string) (sev : Severity) (why : string) : CommandPattern :=
  {| cp_pattern := p; cp_severity := sev; cp_reason := why; cp_flags := Some "i" |}.

(** destructive.ts *)
Definition DESTRUCTIVE_PATTERNS : list CommandPattern :=
  [ cmd "rm\s+(-[a-zA-Z]*f[a-zA-Z]*|--force)" Critical "Forced file deletion";
    cmd "rm\s+(-[a-zA-Z]*r[a-zA-Z]*|--recursive)\s+/(?!tmp)" Critical
        "Recursive deletion outside /tmp";
    cmd "git\s+push\s+.*--force" High "Force push can destroy remote history";
    cmd "git\s+reset\s+--hard" High "Hard reset destroys uncommitted work";
    cmd "git\s+clean\s+.*-f" High "Git clean -f deletes untracked files permanently";
    cmd_i "DROP\s+(TABLE|DATABASE|INDEX)" Critical "SQL destructive operation";
    cmd_i "TRUNCATE\s+TABLE" Critical "SQL destructive operation";
    cmd "\bmkfs\b" Critical "Disk formatting";
    cmd "\bdd\s+if=" Critical "Raw disk write";
    cmd "kill\s+-9" High "Force kill process";
    cmd "pkill\s+-9" High "Force kill processes by name" ].

(** privilege.ts *)
Definition PRIVILEGE_PATTERNS : list CommandPattern :=
  [ cmd "\bsudo\b" High "Privilege escalation via sudo";
    cmd "chmod\s+777" High "World-writable permissions";
    cmd "\bchown\s+root\b" High "Ownership change to root";
    cmd "chmod\s+[ug]\+s" High "Setuid/setgid bit - privilege inheritance on execution" ].

(** exfiltration.ts *)
Definition EXFILTRATION_COMMAND_PATTERNS : list CommandPattern :=
  [ cmd "curl\s.*\|\s*(ba)?sh" Critical "Remote code execution via pipe to shell";
    cmd "\beval\b.*\$" High "Dynamic eval with variable expansion" ].

Definition NETWORK_PATTERNS : list NetworkPattern :=
  [ {| np_pattern := "169\.254\.169\.254"; np_severity := Critical;
       np_reason := "AWS metadata endpoint - SSRF vector" |};
    {| np_pattern := "metadata\.google\.internal"; np_severity := Critical;
       np_reason := "GCP metadata endpoint - SSRF vector" |} ].

(** supply-chain.ts *)
Definition SUPPLY_CHAIN_PATTERNS : list CommandPattern :=
  [ cmd "npm\s+install\s+.*--registry\s+(?!https://registry\.npmjs\.org)" Medium
        "npm install from non-standard registry";
    cmd "pip\s+install\s+https?://" Medium
        "pip install from URL - untrusted package source" ].

(** secrets.ts *)
Definition SECRET_CONTENT_PATTERNS : list CommandPattern :=
  [ cmd_i ("(?:api[_-]?key|apikey|secret[_-]?key|access[_-]?token)\s*[:=]\s*['"
           +:+ dq +:+ "]?[A-Za-z0-9+/=_-]{20,}")
          High "Potential API key or secret in content";
    cmd "-----BEGIN (RSA |EC |DSA |OPENSSH )?PRIVATE KEY-----" Critical
        "Private key in content";
    cmd "AKIA[0-9A-Z]{16}" Critical "AWS access key ID";
    cmd "sk-[a-zA-Z0-9]{20,}" High "Potential API secret key (OpenAI, Stripe, etc.)" ].

Definition SECRET_FILE_PATTERNS : list FilePattern :=
  [ {| fp_pattern := "\.env$"; fp_operations := [OpWrite; OpDelete; OpGitAdd];
       fp_severity := High; fp_reason := "Environment file with potential secrets" |};
    {| fp_pattern := "credentials\.json$"; fp_operations := [OpWrite; OpDelete; OpGitAdd];
       fp_severity := Critical; fp_reason := "Credentials file" |};
    {| fp_pattern := "id_rsa$|id_ed25519$|\.pem$";
       fp_operations := [OpRead; OpWrite; OpDelete; OpGitAdd];
       fp_severity := Critical; fp_reason := "Private key file" |} ].

End Patterns.

(** Modelled from the spec: [.guardian/policy.default.json] is not among
    the sources.  Its blocklist is the built-in bundle of destructive,
    privilege, exfiltration, supply-chain and secret rules of
    src/patterns; the other fields are those of the policy shown in
    README.md (enforce mode, empty allowlist, scope of the working
    directory, budget disabled, audit and kill switch enabled). *)
Definition default_policy : Policy :=
  {| version := 1;
     mode := Enforce;
     blocklist :=
       {| commands := Patterns.DESTRUCTIVE_PATTERNS ++ Patterns.PRIVILEGE_PATTERNS
                      ++ Patterns.EXFILTRATION_COMMAND_PATTERNS
                      ++ Patterns.SUPPLY_CHAIN_PATTERNS;
          file_patterns := Patterns.SECRET_FILE_PATTERNS;
          secret_patterns := Patterns.SECRET_CONTENT_PATTERNS;
          network := Patterns.NETWORK_PATTERNS |};
     allowlist := {| al_commands := []; al_paths := []; al_domains := [] |};
     scope := {| allowed_paths := ["{cwd}"];
                 denied_paths := ["/etc"; "/usr"; "/var"; "/sys"];
                 allow_outside_cwd := false |};
     budget := {| budget_enabled := false;
                  max_actions_per_session := 500;
                  session_limit_usd := None;
                  cost_file := ".guardian/costs.json";
                  action_on_breach := BreachKill |};
     audit := {| audit_enabled := true;
                 audit_path := ".guardian/audit.jsonl";
                 include_tool_input := true;
                 include_tool_output := false;
                 integrity := Sha256Chain;
                 max_file_size_mb := 50;
                 rotation := Daily |};
     kill_switch := {| kill_enabled := true;
                       on_blocklist_critical := true;
                       on_budget_breach := true;
                       on_integrity_violation := true;
                       exit_code := 2 |} |}.

(** Record updates used by the tests of the repository
    ([{ ...policy, mode }], [{ ...policy, budget }], ...). *)
Definition with_mode (m : Mode) (p : Policy) : Policy :=
  {| version := version p; mode := m; blocklist := blocklist p;
     allowlist := allowlist p; scope := scope p; budget := budget p;
     audit := audit p; kill_switch := kill_switch p |}.

Definition with_scope (sc : ScopeConfig) (p : Policy) : Policy :=
  {| version := version p; mode := mode p; blocklist := blocklist p;
     allowlist := allowlist p; scope := sc; budget := budget p;
     audit := audit p; kill_switch := kill_switch p |}.

Definition with_budget (b : BudgetConfig) (p : Policy) : Policy :=
  {| version := version p; mode := mode p; blocklist := blocklist p;
     allowlist := allowlist p; scope := scope p; budget := b;
     audit := audit p; kill_switch := kill_switch p |}.

Definition with_audit (a : AuditConfig) (p : Policy) : Policy :=
  {| version := version p; mode := mode p; blocklist := blocklist p;
     allowlist := allowlist p; scope := scope p; budget := budget p;
     audit := a; kill_switch := kill_switch p |}.

Definition with_allowlist (al : AllowlistConfig) (p : Policy) : Policy :=
  {| version := version p; mode := mode p; blocklist := blocklist p;
     allowlist := al; scope := scope p; budget := budget p;
     audit := audit p; kill_switch := kill_switch p |}.

(** A Bash request. *)
Definition bash (command : string) : HookInput :=
  {| tool_name := "Bash"; tool_input := [("command", JStr command)];
     session_id := Some "test"; hook_cwd := None |}.

(** A Read request. *)
Definition read_file (file_path : string) : HookInput :=
  {| tool_name := "Read"; tool_input := [("file_path", JStr file_path)];
     session_id := Some "test"; hook_cwd := None |}.

(** The state of a process that has just started, with the file system
    [fs] and the clock at [t]. *)
Definition start {RT : Runtime} (fs : gmap string File) (t : string) : State :=
  {| actionCount := 0; compiledPatterns := None; lastHash := ""; sequenceNumber := 0;
     files := fs; rotated := []; clock := t; stderr := [] |}.

(* ================================================================== *)
(** * The wording of the specification *)
(* ================================================================== *)

Module Spec.
Import JsString.

(** Section 4.3, view 1, read off the specification: outside quotes a
    quote character opens a region and is elided, any other character is
    kept; inside single quotes everything up to the closing quote is
    removed and no escape is interpreted; inside double quotes a
    backslash removes itself and the character after it, and everything
    up to the closing quote is removed; a region that is never closed
    runs to the end of the string. *)
Fixpoint unquoted (cs : list ascii) : list ascii :=
  match cs with
  | [] => []
  | c :: rest =>
      if Ascii.eqb c c_squote then in_single rest
      else if Ascii.eqb c c_dquote then in_double rest
      else c :: unquoted rest
  end
with in_single (cs : list ascii) : list ascii :=
  match cs with
  | [] => []
  | c :: rest => if Ascii.eqb c c_squote then unquoted rest else in_single rest
  end
with in_double (cs : list ascii) : list ascii :=
  match cs with
  | [] => []
  | c :: rest =>
      if Ascii.eqb c c_bslash then
        match rest with
        | [] => []
        | _ :: rest' => in_double rest'
        end
      else if Ascii.eqb c c_dquote then unquoted rest
      else in_double rest
  end.

Definition stripped (command : string) : string :=
  of_chars (unquoted (chars command)).

(** An entry with one of its fields given another value. *)
Fixpoint mutate (k : string) (v : json) (kvs : list (string * json))
  : list (string * json) :=
  match kvs with
  | [] => []
  | (k', v') :: rest =>
      if String.eqb k k' then (k', v) :: rest else (k', v') :: mutate k v rest
  end.

End Spec.

(* ================================================================== *)
(** * Runs of the audit writer *)
(* ================================================================== *)

Section AuditRuns.

Context {RT : Runtime}.

(** What happens to the audit state of a deployment: an entry is written
    at some time of the clock, or the process ends and another starts,
    with its module variables at their initial values. *)
Inductive event : Type :=
| EvWrite (t : string) (input : HookInput) (result : ValidationResult)
    (b : option BudgetSnapshot)
| EvRestart.

Definition restart (s : State) : State :=
  {| actionCount := 0; compiledPatterns := None; lastHash := ""; sequenceNumber := 0;
     files := files s; rotated := rotated s; clock := clock s; stderr := [] |}.

Definition step (policy : Policy) (cwd : string) (ev : event) (s : State) : State :=
  match ev with
  | EvWrite t input result b =>
      snd (writeAuditEntry input result policy cwd b (set_clock t s))
  | EvRestart => restart s
  end.

Definition run (policy : Policy) (cwd : string) (evs : list event) (s : State) : State :=
  fold_left (fun s ev => step policy cwd ev s) evs s.

(** The entry, hash included, that [writeAuditEntry] appends in state [s]. *)
Definition written_entry (input : HookInput) (result : ValidationResult)
    (policy : Policy) (cwd : string) (b : option BudgetSnapshot) (s : State)
  : list (string * json) :=
  let s2 := snd (prepareAudit policy (getAuditPath policy cwd) s) in
  let e := entryWithoutHash (clock s2) (sequenceNumber s2 + 1) input result policy cwd b in
  e ++ [("hash", JStr (entryHash policy (lastHash s2) e))].

(** JSON.parse gives back the object that JSON.stringify wrote. *)
Definition parses_back (o : list (string * json)) : Prop :=
  JSON_parse (Json.stringify (JObj o)) = Some (JObj o).

(** JSON.parse gives back every entry written during a run. *)
Fixpoint run_parses_back (policy : Policy) (cwd : string) (evs : list event)
    (s : State) : Prop :=
  match evs with
  | [] => True
  | ev :: evs' =>
      match ev with
      | EvWrite t input result b =>
          parses_back (written_entry input result policy cwd b (set_clock t s))
      | EvRestart => True
      end /\ run_parses_back policy cwd evs' (step policy cwd ev s)
  end.

(** The entries of a file, each completed with the hash that chains it
    to the entry before; [prev] is the hash before the first of them. *)
Fixpoint chain (prev : string) (es : list (list (string * json)))
  : list (list (string * json)) :=
  match es with
  | [] => []
  | e :: es' =>
      let h := computeHash prev e in
      (e ++ [("hash", JStr h)]) :: chain h es'
  end.

(** The content of a JSON Lines file with the given objects. *)
Fixpoint render (objs : list (list (string * json))) : string :=
  match objs with
  | [] => ""
  | o :: objs' => Json.stringify (JObj o) +:+ JsString.nl +:+ render objs'
  end.

(** The file at [path] given the content [text]. *)
Definition overwrite (path text : string) (s : State) : State :=
  set_files (<[path := {| content := text; mtime := clock s |}]> (files s)) s.

(** The lines of the audit file at [path]. *)
Definition audit_lines (path : string) (s : State) : list string :=
  match files s !! path with
  | Some f => read_lines (content f)
  | None => []
  end.

(** No line feed among the characters. *)
Definition no_newline (cs : list ascii) : Prop :=
  Forall (fun c => c <> JsString.c_newline) cs.

(** A line of an audit file: an object, written without a line feed. *)
Definition line_ok (l : list ascii) : Prop :=
  no_newline l /\ exists mid, l = "{"%char :: mid ++ ["}"%char].

(** Lines each followed by a line feed, and lines separated by one. *)
Definition terminated (ls : list (list ascii)) : list ascii :=
  flat_map (fun l => l ++ [JsString.c_newline]) ls.

Fixpoint joined (ls : list (list ascii)) : list ascii :=
  match ls with
  | [] => []
  | l :: ls' =>
      match ls' with
      | [] => l
      | _ :: _ => l ++ JsString.c_newline :: joined ls'
      end
  end.

(** The text of an object on a line of its own. *)
Definition line (o : list (string * json)) : string := Json.stringify (JObj o).

(** The hash that ends the chain of [es] started at [prev]. *)
Fixpoint last_hash (prev : string) (es : list (list (string * json))) : string :=
  match es with
  | [] => prev
  | e :: es' => last_hash (computeHash prev e) es'
  end.

(** An entry without a hash field. *)
Definition no_hash (e : list (string * json)) : Prop := Json.lookup "hash" e = None.

(** The audit file at [path] holds the chain of [es], every line of it
    parses back, and the last hash of the process is that of the file,
    or the process has written nothing yet. *)
Definition in_sync (path : string) (s : State) (es : list (list (string * json))) : Prop :=
  match files s !! path with
  | Some f => content f = render (chain "" es) /\ es <> []
  | None => es = []
  end
  /\ Forall no_hash es
  /\ Forall parses_back (chain "" es)
  /\ (lastHash s = last_hash "" es \/ (sequenceNumber s = 0 /\ lastHash s = "")).

(** The text of the audit file at [path]; nothing when there is none. *)
Definition audit_text (path : string) (s : State) : string :=
  match files s !! path with
  | Some f => content f
  | None => ""
  end.

(** The entries of the audit file at [path]: its lines that are objects. *)
Definition audit_entries (path : string) (s : State) : list (list (string * json)) :=
  omap (fun l => match JSON_parse l with
                 | Some (JObj o) => Some o
                 | _ => None
                 end) (audit_lines path s).

(** The hash field of an entry. *)
Definition hash_of (o : list (string * json)) : string :=
  Json.as_string (Json.lookup "hash" o) "".

(** The hash of the entry before the one at index [i]; the empty string
    before the first one. *)
Definition prev_hash (objs : list (list (string * json))) (i : nat) : string :=
  match i with
  | O => ""
  | S j => from_option hash_of "" (objs !! j)
  end.

(** Every entry's hash field is "sha256:" followed by the hex SHA-256 of
    the hash before it and the serialization of the entry without its
    hash field. *)
Definition chained (objs : list (list (string * json))) : Prop :=
  forall (i : nat) (o : list (string * json)),
    objs !! i = Some o ->
    Json.lookup "hash" o =
      Some (JStr ("sha256:" +:+
                  sha256_hex (prev_hash objs i +:+
                              Json.stringify (JObj (Json.remove "hash" o))))).

(** An entry written without the hash chain. *)
Definition unhashed (o : list (string * json)) : Prop :=
  Json.lookup "hash" o = Some (JStr "none").

(** The audit file at [path] holds the objects [objs], every one of
    them parses back and none of them carries a hash. *)
Definition unchained (path : string) (s : State) (objs : list (list (string * json)))
  : Prop :=
  match files s !! path with
  | Some f => content f = render objs /\ objs <> []
  | None => objs = []
  end
  /\ Forall parses_back objs
  /\ Forall unhashed objs.

(** [if (policy.mode === "audit") return { ...r, allowed: true }; return r] *)
Definition coerce (m : Mode) (r : ValidationResult) : ValidationResult :=
  if Mode_eqb m Audit then with_allowed_true r else r.

End AuditRuns.

(* ================================================================== *)
(** * Worked examples *)
(* ================================================================== *)

Module Examples.
Import JsString.

Definition cwd : string := "/home/u/proj".
Definition t0 : string := "2025-02-20T10:00:00.000Z".
Definition t1 : string := "2025-02-20T10:00:01.000Z".
Definition t2 : string := "2025-02-20T10:00:02.000Z".
Definition audit_file : string := "/home/u/proj/.guardian/audit.jsonl".

(** A process that has just started in an empty directory. *)
Definition s0 : State := start (RT := node) ∅ t0.


(** The budget of the test "should deny when budget is exceeded". *)
Definition budget_two : BudgetConfig :=
  {| budget_enabled := true; max_actions_per_session := 2; session_limit_usd := None;
     cost_file := "costs.json"; action_on_breach := BreachDeny |}.

Definition budget_one : BudgetConfig :=
  {| budget_enabled := true; max_actions_per_session := 1; session_limit_usd := None;
     cost_file := "costs.json"; action_on_breach := BreachDeny |}.

(** The default audit configuration without the hash chain. *)
Definition audit_plain : AuditConfig :=
  {| audit_enabled := true; audit_path := ".guardian/audit.jsonl";
     include_tool_input := true; include_tool_output := false;
     integrity := IntegrityNone; max_file_size_mb := 50; rotation := Daily |}.

(** The state after [validateAndAudit], whatever its outcome. *)
Definition after (input : HookInput) (policy : Policy) (s : State) : State :=
  snd (validateAndAudit input policy cwd s).

(** The state after [validate], whatever its outcome. *)
Definition after_validate (input : HookInput) (policy : Policy) (s : State) : State :=
  snd (validate input policy cwd s).

(** A scope whose template names the working directory twice. *)
Definition scope_twice : ScopeConfig :=
  {| allowed_paths := ["{cwd}/vendor{cwd}"]; denied_paths := []; allow_outside_cwd := false |}.

(** The scope of scenario 5. *)
Definition scope_cwd : ScopeConfig :=
  {| allowed_paths := ["{cwd}"]; denied_paths := []; allow_outside_cwd := false |}.

(** Scenario 6: the default policy with at most two actions per session. *)
Definition policy_two : Policy := with_budget budget_two default_policy.
Definition policy_one : Policy := with_budget budget_one default_policy.
Definition safe : HookInput := bash "echo test".

(** The states between three requests handled by [validateAndAudit] in
    one process under [policy_two]. *)
Definition two_s1 : State := after safe policy_two s0.
Definition two_s2 : State := after safe policy_two two_s1.

(** The states between three calls of [validate] in one process. *)
Definition two_v1 : State := after_validate safe policy_two s0.
Definition two_v2 : State := after_validate safe policy_two two_v1.

(** The states between two requests under [policy_one]. *)
Definition one_s1 : State := after safe policy_one s0.
Definition one_s2 : State := after safe policy_one one_s1.

(** The denial of the budget step at the given count and limit. *)
Definition over_budget (count limit : string) : ValidationResult :=
  {| allowed := false;
     reason := Some ("Action limit exceeded: " +:+ count +:+ "/" +:+ limit);
     severity := Some High; pattern := None; source := Some SrcBudget |}.

(** The default policy without the hash chain, and the state after one
    entry is written under it. *)
Definition policy_plain : Policy := with_audit audit_plain default_policy.
Definition plain_s1 : State :=
  snd (writeAuditEntry (bash "ls") (allow None) policy_plain cwd None s0).

(** The default policy with the certificates directory on the path
    allowlist, and a Read of a key file in it: the default scope denies
    /etc and the default blocklist denies the reading of .pem files. *)
Definition trusting_policy : Policy :=
  with_allowlist {| al_commands := []; al_paths := ["/etc/ssl/"]; al_domains := [] |}
    default_policy.
Definition read_pem : HookInput := read_file "/etc/ssl/private/server.pem".

(** The denial of [rm -rf /] by the blocklist. *)
Definition blocked_rm : ValidationResult :=
  {| allowed := false; reason := Some "Forced file deletion";
     severity := Some Critical;
     pattern := Some "rm\s+(-[a-zA-Z]*f[a-zA-Z]*|--force)";
     source := Some SrcBlocklist |}.

(** Three entries written to one audit file by two processes, the
    second one started between the first entry and the second. *)
Definition trace : list event :=
  [EvWrite t0 (bash "ls") (allow None) None;
   EvRestart;
   EvWrite t1 safe (allow None) None;
   EvWrite t2 (bash "rm -rf /") blocked_rm None].

End Examples.

(* ================================================================== *)
(** * Vocabulary of the further properties *)
(* ================================================================== *)

(** Neither a single nor a double quote. *)
Definition not_quote (c : ascii) : Prop :=
  c <> JsString.c_squote /\ c <> JsString.c_dquote.

(** None of the characters [;], [|] and [&] that separate commands. *)
Definition not_operator (c : ascii) : Prop :=
  c <> ";"%char /\ c <> "|"%char /\ c <> "&"%char.

(** Empty, or starting with a character that is not white space. *)
Definition starts_black (cs : list ascii) : Prop :=
  match cs with
  | [] => True
  | c :: _ => JsString.is_ws c = false
  end.

(** A segment as [splitShellCommand] pushes it: trimmed text. *)
Definition trimmed (seg : string) : Prop := JsString.trim seg = seg.

(** The state of [extractSubcommands] outside every substitution. *)
Definition outside (subs : list string) : ExtractState :=
  {| ex_subs := subs; ex_depth := 0%nat; ex_start := -1 |}.

(** Inside one substitution opened at [start]. *)
Definition inside (subs : list string) (start : Z) : ExtractState :=
  {| ex_subs := subs; ex_depth := 1%nat; ex_start := start |}.

Section EffectsDefs.
Context {RT : Runtime}.

(** What a request may change in the file system: the audit file when
    the audit is enabled, nothing otherwise. *)
Definition files_kept (policy : Policy) (cwd : string) (s s' : State) : Prop :=
  if audit_enabled (audit policy)
  then forall q, q <> getAuditPath policy cwd -> files s' !! q = files s !! q
  else files s' = files s.

(** The line that [executeKill] writes to standard error. *)
Definition kill_line (why : string) : string :=
  "GUARDIAN KILL SWITCH: " +:+ why +:+ ". Session terminated.".

(** A tool that [checkBlocklist] has no branch for. *)
Definition other_tool (tool : string) : Prop :=
  tool <> "Bash" /\ tool <> "Write" /\ tool <> "Edit" /\ tool <> "Read"
  /\ tool <> "WebFetch" /\ JsString.startsWith tool "mcp__" = false.

(** The audit file ends with the record of a denial of [input]. *)
Definition denial_recorded (input : HookInput) (policy : Policy) (cwd : string)
    (s : State) : Prop :=
  exists old ts seq r b h t,
    allowed r = false
    /\ files s !! getAuditPath policy cwd =
         Some {| content :=
                   old +:+ Json.stringify
                             (JObj (entryWithoutHash ts seq input r policy cwd b
                                    ++ [("hash", JStr h)]))
                   +:+ JsString.nl;
                 mtime := t |}.

(** The audit file ends with the record of the verdict [v] on [input]. *)
Definition verdict_recorded (input : HookInput) (v : ValidationResult)
    (policy : Policy) (cwd : string) (s : State) : Prop :=
  exists old ts seq b h t,
    files s !! getAuditPath policy cwd =
      Some {| content :=
                old +:+ Json.stringify
                          (JObj (entryWithoutHash ts seq input v policy cwd b
                                 ++ [("hash", JStr h)]))
                +:+ JsString.nl;
              mtime := t |}.

(** The conditions of a kill on a budget breach. *)
Definition budget_kill (policy : Policy) : Prop :=
  mode policy = Enforce
  /\ kill_enabled (kill_switch policy) = true
  /\ on_budget_breach (kill_switch policy) = true
  /\ action_on_breach (budget policy) = BreachKill.

End EffectsDefs.

Section MoreDefs.
Context {RT : Runtime}.

(** The state after [n] calls of [checkBudget]. *)
Definition budget_calls (policy : Policy) (cwd : string) (n : nat) (s : State) : State :=
  Nat.iter n (fun s => snd (checkBudget policy cwd s)) s.

End MoreDefs.

Section NumberedDefs.
Context {RT : Runtime}.

(** An object as [writeAuditEntry] writes it. *)
Definition is_entry (o : list (string * json)) : Prop :=
  exists ts seq input result policy cwd b h,
    o = entryWithoutHash ts seq input result policy cwd b ++ [("hash", JStr h)].

(** The entries at [path] are [objs], numbered from one, and the
    sequence number of the process is that of the last one, or 0 when
    the process has written nothing yet. *)
Definition numbered (path : string) (s : State) (objs : list (list (string * json)))
  : Prop :=
  match files s !! path with
  | Some f => content f = render objs /\ objs <> []
  | None => objs = []
  end
  /\ Forall parses_back objs
  /\ Forall is_entry objs
  /\ (forall (i : nat) o, objs !! i = Some o ->
        Json.lookup "seq" o = Some (JNum (Z.of_nat i + 1)))
  /\ (sequenceNumber s = Z.of_nat (length objs) \/ sequenceNumber s = 0).

End NumberedDefs.

(* ================================================================== *)
(** * audit.ts, [getAuditSummary] *)
(* ================================================================== *)

Module Js.
Import JsString.

(** ToBoolean of a property that may be absent. *)
Definition truthy (v : option json) : bool :=
  match v with
  | None | Some JNull => false
  | Some (JBool b) => b
  | Some (JNum n) => negb (n =? 0)
  | Some (JStr s) => nonempty s
  | Some (JArr _) | Some (JObj _) => true
  end.

(** ToString of a value that JSON.parse built; [None] is a TypeError.
    An array is joined with commas, null elements giving the empty text;
    an object gives [[object Object]] through the inherited [toString],
    and a TypeError when a property of its own hides that method, which
    leaves no way to a primitive value. *)
Fixpoint to_string (v : json) : option string :=
  match v with
  | JNull => Some "null"
  | JBool true => Some "true"
  | JBool false => Some "false"
  | JNum n => Some (of_Z n)
  | JStr s => Some s
  | JArr xs =>
      option_map (join ",")
        (map_or_throw (fun x => match x with
                                | JNull => Some ""
                                | _ => to_string x
                                end) xs)
  | JObj kvs =>
      match Json.lookup "toString" kvs with
      | Some _ => None
      | None => Some "[object Object]"
      end
  end.

(** ToPropertyKey of [entry.k]. *)
Definition to_key (v : option json) : option string :=
  match v with
  | None => Some "undefined"
  | Some x => to_string x
  end.

(** [entry.k] for a value other than null and a name that is no
    property of arrays, strings, numbers or booleans, nor inherited. *)
Definition prop (entry : json) (k : string) : option json :=
  match entry with
  | JObj kvs => Json.lookup k kvs
  | _ => None
  end.

(** [String(Object.prototype[k])] for the properties that every object
    inherits, as V8 prints them. *)
Definition Object_prototype (k : string) : option string :=
  if String.eqb k "__proto__" then Some "[object Object]"
  else if String.eqb k "constructor" then Some "function Object() { [native code] }"
  else if includes ["__defineGetter__"; "__defineSetter__"; "hasOwnProperty";
                    "__lookupGetter__"; "__lookupSetter__"; "isPrototypeOf";
                    "propertyIsEnumerable"; "toString"; "valueOf"; "toLocaleString"] k
  then Some ("function " +:+ k +:+ "() { [native code] }")
  else None.

End Js.

(** A value of [byTool] or [bySeverity]: a count, or the text that
    [+ 1] makes of an inherited property. *)
Inductive tally : Type :=
| Count (n : Z)
| Text (t : string).

Record Summary : Type := {
  su_total : Z;
  su_allowed : Z;
  su_denied : Z;
  su_byTool : gmap string tally;
  su_bySeverity : gmap string tally
}.

(** [m[k] = (m[k] ?? 0) + 1] on an object literal [m]: an inherited
    property is read where [m] has none of its own, and the assignment
    to [__proto__] of a text is ignored. *)
Definition bump (k : string) (m : gmap string tally) : gmap string tally :=
  match m !! k with
  | Some (Count n) => <[k := Count (n + 1)]> m
  | Some (Text t) => <[k := Text (t +:+ "1")]> m
  | None =>
      match Js.Object_prototype k with
      | Some t => if String.eqb k "__proto__" then m else <[k := Text (t +:+ "1")]> m
      | None => <[k := Count 1]> m
      end
  end.

Section SummaryDefs.
Context {RT : Runtime}.

(** The body of the loop of [getAuditSummary] on one line.  A line that
    does not parse is skipped; [null] is counted in [total] before
    [entry.allowed] throws; a tool or a severity with no text for a key
    throws after the counts before it are made. *)
Definition summarize (acc : Summary) (line : string) : Summary :=
  match JSON_parse line with
  | None => acc
  | Some JNull =>
      {| su_total := su_total acc + 1; su_allowed := su_allowed acc;
         su_denied := su_denied acc; su_byTool := su_byTool acc;
         su_bySeverity := su_bySeverity acc |}
  | Some entry =>
      let ok := Js.truthy (Js.prop entry "allowed") in
      let a := if ok then su_allowed acc + 1 else su_allowed acc in
      let d := if ok then su_denied acc else su_denied acc + 1 in
      match Js.to_key (Js.prop entry "tool") with
      | None =>
          {| su_total := su_total acc + 1; su_allowed := a; su_denied := d;
             su_byTool := su_byTool acc; su_bySeverity := su_bySeverity acc |}
      | Some tool =>
          let sev := Js.prop entry "severity" in
          {| su_total := su_total acc + 1; su_allowed := a; su_denied := d;
             su_byTool := bump tool (su_byTool acc);
             su_bySeverity :=
               if Js.truthy sev then
                 match Js.to_key sev with
                 | Some k => bump k (su_bySeverity acc)
                 | None => su_bySeverity acc
                 end
               else su_bySeverity acc |}
      end
  end.

Definition no_entries : Summary :=
  {| su_total := 0; su_allowed := 0; su_denied := 0; su_byTool := ∅; su_bySeverity := ∅ |}.

Definition getAuditSummary (auditPath : string) (s : State) : Summary :=
  match files s !! auditPath with
  | None => no_entries
  | Some f => fold_left summarize (read_lines (content f)) no_entries
  end.

(** The lines that parse, and those among them that are not [null]. *)
Definition parsed (lines : list string) : list json := omap JSON_parse lines.

Definition not_null (v : json) : bool :=
  match v with
  | JNull => false
  | _ => true
  end.

(** The entries on which [entry.allowed] holds, and the others. *)
Definition allowed_entry (o : list (string * json)) : bool :=
  Js.truthy (Json.lookup "allowed" o).

(** The entries of tool [t], and those of severity [sev]. *)
Definition has_tool (t : string) (o : list (string * json)) : bool :=
  match Json.lookup "tool" o with
  | Some (JStr x) => String.eqb x t
  | _ => false
  end.

Definition has_severity (sev : Severity) (o : list (string * json)) : bool :=
  match Json.lookup "severity" o with
  | Some (JStr x) => String.eqb x (Severity_name sev)
  | _ => false
  end.

(** A count as [bump] leaves it: no property for zero. *)
Definition counted (n : nat) : option tally :=
  match n with
  | O => None
  | S _ => Some (Count (Z.of_nat n))
  end.

End SummaryDefs.

(* ================================================================== *)
(** * policy.ts *)
(* ================================================================== *)

(** ** path.join on POSIX *)
Module NodeJoin.
Import JsString.

(** normalizeString of a relative path: [..] removes the segment before
    it, and stays when there is none or when that segment is [..]. *)
Fixpoint normalize_relative (segs : list string) (stack : list string) : list string :=
  match segs with
  | [] => rev stack
  | seg :: segs' =>
      if String.eqb seg "" || String.eqb seg "." then normalize_relative segs' stack
      else if String.eqb seg ".." then
        match stack with
        | top :: below =>
            if String.eqb top ".." then normalize_relative segs' (seg :: stack)
            else normalize_relative segs' below
        | [] => normalize_relative segs' [seg]
        end
      else normalize_relative segs' (seg :: stack)
  end.

(** [path.normalize(p)] *)
Definition normalize (p : string) : string :=
  if negb (nonempty p) then "."
  else
    let isAbsolute := startsWith p "/" in
    let trailing := match last (chars p) with
                    | Some c => Ascii.eqb c "/"%char
                    | None => false
                    end in
    let segs := split "/"%char p in
    let body := join "/" (if isAbsolute then NodePath.normalize segs []
                          else normalize_relative segs []) in
    if negb (nonempty body) then
      if isAbsolute then "/" else if trailing then "./" else "."
    else
      (if isAbsolute then "/" else "") +:+ body +:+ (if trailing then "/" else "").

(** [path.join(...args)]: the arguments that are not empty, joined with
    a slash and normalized. *)
Definition join (args : list string) : string :=
  match List.filter nonempty args with
  | [] => "."
  | parts => normalize (JsString.join "/" parts)
  end.

End NodeJoin.

(** ** policy.ts *)

Definition REQUIRED_FIELDS : list string :=
  ["version"; "mode"; "blocklist"; "allowlist"; "scope"; "audit"; "kill_switch"].

Definition VALID_MODES : list string := ["enforce"; "audit"; "off"].

(** What [loadPolicy] throws.  The messages of its errors name the path,
    the field, the version or the mode; the message of the SyntaxError of
    JSON.parse and that of the TypeError of [in] on a value that is no
    object are the runtime's and are not modelled. *)
Inductive PolicyError : Type :=
| PolicyNotFound (path : string)
| InvalidJson
| NotAnObject (parsed : json)
| MissingField (field : string)
| UnsupportedVersion (found : option json)
| InvalidMode (found : option json).

Inductive loaded : Type :=
| Loaded (policy : json)
| Failed (e : PolicyError).

(** The module variables of policy.ts; [cachedMtime] is a time of the
    clock of the model, which starts at the epoch. *)
Record PolicyCache : Type := {
  cachedPolicy : option json;
  cachedPolicyPath : option string;
  cachedMtime : string
}.

Definition epoch : string := "1970-01-01T00:00:00.000Z".

Definition policyPath (cwd : string) : string :=
  NodeJoin.join [cwd; ".guardian"; "policy.json"].

(** [field in policy]: a property of the object's own (none of the
    required names is inherited, neither by objects nor by arrays);
    [None] is the TypeError on a value that is no object. *)
Definition has_field (policy : json) (field : string) : option bool :=
  match policy with
  | JObj kvs => Some (bool_decide (is_Some (Json.lookup field kvs)))
  | JArr _ => Some false
  | _ => None
  end.

(** The loop over [REQUIRED_FIELDS]. *)
Fixpoint check_fields (policy : json) (fields : list string) : option PolicyError :=
  match fields with
  | [] => None
  | field :: rest =>
      match has_field policy field with
      | None => Some (NotAnObject policy)
      | Some false => Some (MissingField field)
      | Some true => check_fields policy rest
      end
  end.

(** [policy.version !== 1] *)
Definition version_is_1 (v : option json) : bool :=
  match v with
  | Some (JNum 1) => true
  | _ => false
  end.

(** [VALID_MODES.includes(policy.mode)] *)
Definition mode_is_valid (m : option json) : bool :=
  match m with
  | Some (JStr x) => JsString.includes VALID_MODES x
  | _ => false
  end.

Section PolicyLoader.
Context {RT : Runtime}.

(** The file that the functions of [fs] reach under a path: a relative
    path is resolved against the working directory of the process. *)
Definition file_at (fs : gmap string File) (p : string) : option File :=
  fs !! path_resolve "" p.

(** The first block of [loadPolicy]: the cached policy, when the cache
    is for [policyPath] and the file still has the modification time
    recorded with it; a file that is gone makes [statSync] throw, which
    is caught. *)
Definition cache_hit (p : string) (fs : gmap string File) (c : PolicyCache)
  : option json :=
  match cachedPolicy c, cachedPolicyPath c, file_at fs p with
  | Some policy, Some q, Some f =>
      if String.eqb q p && String.eqb (mtime f) (cachedMtime c) then Some policy else None
  | _, _, _ => None
  end.

Definition loadPolicy (cwd : string) (fs : gmap string File) (c : PolicyCache)
  : loaded * PolicyCache :=
  let p := policyPath cwd in
  match cache_hit p fs c with
  | Some policy => (Loaded policy, c)
  | None =>
      match file_at fs p with
      | None => (Failed (PolicyNotFound p), c)
      | Some f =>
          match JSON_parse (content f) with
          | None => (Failed InvalidJson, c)
          | Some policy =>
              match check_fields policy REQUIRED_FIELDS with
              | Some e => (Failed e, c)
              | None =>
                  if negb (version_is_1 (Js.prop policy "version")) then
                    (Failed (UnsupportedVersion (Js.prop policy "version")), c)
                  else if negb (mode_is_valid (Js.prop policy "mode")) then
                    (Failed (InvalidMode (Js.prop policy "mode")), c)
                  else
                    (Loaded policy,
                     {| cachedPolicy := Some policy;
                        cachedPolicyPath := Some p;
                        cachedMtime := mtime f |})
              end
          end
      end
  end.

Definition resetCache (c : PolicyCache) : PolicyCache :=
  {| cachedPolicy := None; cachedPolicyPath := None; cachedMtime := epoch |}.

(** A policy that passed the checks of [loadPolicy]. *)
Definition validated (policy : json) : Prop :=
  exists kvs,
    policy = JObj kvs
    /\ Forall (fun field => is_Some (Json.lookup field kvs)) REQUIRED_FIELDS
    /\ Json.lookup "version" kvs = Some (JNum 1)
    /\ exists m, Json.lookup "mode" kvs = Some (JStr m) /\ In m VALID_MODES.

(** The cache holds nothing or a validated policy. *)
Definition cache_ok (c : PolicyCache) : Prop :=
  match cachedPolicy c with
  | Some policy => validated policy
  | None => True
  end.

End PolicyLoader.


(* ================================================================== *)
(** * Further worked examples *)
(* ================================================================== *)

Module Cases.
Import JsString.

(** A process that has handled one request. *)
Definition spent : State := set_actionCount 1 Examples.s0.

(** A process that has handled two requests. *)
Definition spent_twice : State := set_actionCount 2 Examples.s0.

(** The default policy with a command pattern that is no regular
    expression. *)
Definition broken_policy : Policy :=
  {| version := 1; mode := Enforce;
     blocklist := {| commands := [Patterns.cmd "(" High "Unclosed group"];
                     file_patterns := []; secret_patterns := []; network := [] |};
     allowlist := allowlist default_policy; scope := scope default_policy;
     budget := budget default_policy; audit := audit default_policy;
     kill_switch := kill_switch default_policy |}.

(** The default policy with an empty blocklist. *)
Definition lax_policy : Policy :=
  {| version := 1; mode := Enforce;
     blocklist := {| commands := []; file_patterns := []; secret_patterns := [];
                     network := [] |};
     allowlist := allowlist default_policy; scope := scope default_policy;
     budget := budget default_policy; audit := audit default_policy;
     kill_switch := kill_switch default_policy |}.

(** A Glob request whose pattern reads like a destructive command. *)
Definition glob : HookInput :=
  {| tool_name := "Glob"; tool_input := [("pattern", JStr "rm -rf /")];
     session_id := None; hook_cwd := None |}.

(** The state after the first check of the blocklist in a process. *)
Definition warmed : State :=
  snd (checkBlocklist (RT := node) (bash "ls") default_policy Examples.s0).

(** An audit file last written the day before. *)
Definition yesterday : File :=
  {| content := "{}" +:+ nl; mtime := "2025-02-19T23:59:59.000Z" |}.

Definition next_day : State :=
  start (RT := node) {[ Examples.audit_file := yesterday ]} Examples.t0.

(** A policy file with the required fields and nothing else. *)
Definition minimal_policy : json :=
  JObj [("version", JNum 1); ("mode", JStr "audit"); ("blocklist", JObj []);
        ("allowlist", JObj []); ("scope", JObj []); ("audit", JObj []);
        ("kill_switch", JObj [])].

Definition policy_files : gmap string File :=
  {[ "/home/u/proj/.guardian/policy.json" :=
       {| content := Json.stringify minimal_policy; mtime := Examples.t0 |} ]}.

(** The same path with other content and the same modification time. *)
Definition edited_files : gmap string File :=
  {[ "/home/u/proj/.guardian/policy.json" :=
       {| content := "not a policy"; mtime := Examples.t0 |} ]}.

(** At most one action, and a kill on the breach. *)
Definition kill_budget : BudgetConfig :=
  {| budget_enabled := true; max_actions_per_session := 1; session_limit_usd := None;
     cost_file := "costs.json"; action_on_breach := BreachKill |}.

Definition kill_policy : Policy := with_budget kill_budget default_policy.

(** The module variables of policy.ts at some point of a process. *)
Definition cold : PolicyCache :=
  {| cachedPolicy := Some minimal_policy; cachedPolicyPath := Some "/tmp/policy.json";
     cachedMtime := Examples.t1 |}.

(** A request for an MCP tool with its command inside an array. *)
Definition mcp_nested : HookInput :=
  {| tool_name := "mcp__shell__run"; tool_input := [("args", JArr [JStr "rm -rf /"])];
     session_id := None; hook_cwd := None |}.

(** The default policy with one file pattern, for writing only. *)
Definition write_only_policy : Policy :=
  {| version := 1; mode := Enforce;
     blocklist := {| commands := []; 
                     file_patterns :=
                       [{| fp_pattern := "\.env$"; fp_operations := [OpWrite];
                           fp_severity := High; fp_reason := "Environment file" |}];
                     secret_patterns := []; network := [] |};
     allowlist := allowlist default_policy; scope := scope default_policy;
     budget := budget default_policy; audit := audit default_policy;
     kill_switch := kill_switch default_policy |}.

(** The default audit configuration without the tool input. *)
Definition audit_private : AuditConfig :=
  {| audit_enabled := true; audit_path := ".guardian/audit.jsonl";
     include_tool_input := false; include_tool_output := false;
     integrity := Sha256Chain; max_file_size_mb := 50; rotation := Daily |}.

Definition private_policy : Policy := with_audit audit_private default_policy.

(** A working directory that holds a file of notes. *)
Definition notes_path : string := "/home/u/proj/notes.txt".
Definition notes : File := {| content := "keep me"; mtime := Examples.t0 |}.
Definition with_notes : State := start (RT := node) {[ notes_path := notes ]} Examples.t1.

(** The default policy with the audit disabled. *)
Definition silent_policy : Policy :=
  with_audit {| audit_enabled := false; audit_path := ".guardian/audit.jsonl";
                include_tool_input := true; include_tool_output := false;
                integrity := Sha256Chain; max_file_size_mb := 50; rotation := Daily |}
    default_policy.

(** A cost limit of ten dollars and no action limit, with a kill on
    the breach. *)
Definition cost_policy : Policy :=
  with_budget {| budget_enabled := true; max_actions_per_session := 0;
                 session_limit_usd := Some 10; cost_file := "costs.json";
                 action_on_breach := BreachKill |}
    default_policy.

(** A cost file that is no JSON text: its key is not quoted. *)
Definition garbled : File :=
  {| content := "{total_cost_usd: 99}"; mtime := Examples.t0 |}.
Definition with_garbled : State :=
  start (RT := node) {[ "/home/u/proj/costs.json" := garbled ]} Examples.t1.

(** An audit file whose last line is cut short. *)
Definition torn : File :=
  {| content := "{" +:+ nl; mtime := Examples.t0 |}.

Definition after_crash : State :=
  start (RT := node) {[ Examples.audit_file := torn ]} Examples.t1.

End Cases.

(* ================================================================== *)
(** * Properties of the decision pipeline *)
(* ================================================================== *)

Section Pipeline.

Context {RT : Runtime}.

Notation "x <- m ;; k" := (bind m (fun x => k))
  (at level 100, m at next level, right associativity).

Lemma Mode_eqb_eq (a b : Mode) : Mode_eqb a b = true <-> a = b.
Proof. destruct a, b; simpl; split; intros H; congruence. Qed.

Lemma Mode_eqb_neq (a b : Mode) : Mode_eqb a b = false <-> a <> b.
Proof. destruct a, b; simpl; split; intros H; congruence. Qed.

(** A scope denial is a denial of severity high with source "scope". *)
Lemma checkScope_shape (input : HookInput) (policy : Policy) (cwd : string)
    (r : ValidationResult) :
  checkScope input policy cwd = Some r ->
  allowed r = false /\ severity r = Some High /\ source r = Some SrcScope.
Proof.
  unfold checkScope.
  destruct (negb (JsString.nonempty (input_string input "file_path"))); [discriminate|].
  destruct (find _ (denied_paths (scope policy))).
  - intros [= <-]. auto.
  - destruct (negb (allow_outside_cwd (scope policy))); [|discriminate].
    destruct (negb (existsb _ _)); [|discriminate].
    intros [= <-]. auto.
Qed.

Lemma checkFilePatterns_shape (op : FileOperation) (fps : list FilePattern)
    (path : string) (ps : list CompiledPattern) (r : ValidationResult) :
  checkFilePatterns op fps path ps = Some r -> exists p, r = blocked p.
Proof.
  induction ps as [|p ps IH]; simpl; [discriminate|].
  destruct (RegExp_test (regex p) path); [|exact IH].
  destruct (find _ fps) as [fp|]; [|exact IH].
  destruct (existsb _ (fp_operations fp)); [|exact IH].
  intros [= <-]. eauto.
Qed.

Lemma checkMcpValues_shape (m : PatternMap) (kvs : list (string * json))
    (r : ValidationResult) :
  checkMcpValues m kvs = Some r -> exists p, r = blocked p.
Proof.
  induction kvs as [|[k v] kvs IH]; simpl; [discriminate|].
  destruct v; try exact IH.
  destruct (matchPatterns s (pm_commands m)); [intros [= <-]; eauto|].
  destruct (matchPatterns s (pm_network m)); [intros [= <-]; eauto|].
  destruct (matchPatterns s (pm_secret_patterns m)); [intros [= <-]; eauto|].
  exact IH.
Qed.

Lemma checkBash_shape (m : PatternMap) (command : string) (r : ValidationResult) :
  checkBash m command = Some r -> exists p, r = blocked p.
Proof.
  unfold checkBash.
  repeat match goal with
         | |- context [match ?x with Some _ => _ | None => _ end] =>
             destruct x; [intros [= <-]; eauto|]
         end.
  discriminate.
Qed.

(** Whatever [checkBlocklist] returns is built by [blocked]. *)
Lemma checkBlocklist_shape (input : HookInput) (policy : Policy) (s s' : State)
    (r : ValidationResult) :
  checkBlocklist input policy s = (Ret (Some r), s') -> exists p, r = blocked p.
Proof.
  unfold checkBlocklist, bind.
  destruct (getPatterns policy s) as [[m| |] s1]; try discriminate.
  destruct (String.eqb (tool_name input) "Bash").
  { unfold ret. intros [= H _]. eapply checkBash_shape; eauto. }
  destruct (String.eqb (tool_name input) "Write" || String.eqb (tool_name input) "Edit").
  { destruct (checkFilePatterns OpWrite _ _ _) eqn:E.
    - unfold ret. intros [= <- _]. eapply checkFilePatterns_shape; eauto.
    - destruct (JsString.nonempty _); [|discriminate].
      destruct (matchPatterns _ _); [|discriminate].
      unfold ret. intros [= <- _]. eauto. }
  destruct (String.eqb (tool_name input) "Read").
  { unfold ret. intros [= H _]. eapply checkFilePatterns_shape; eauto. }
  destruct (String.eqb (tool_name input) "WebFetch").
  { destruct (matchPatterns _ _); [|discriminate].
    unfold ret. intros [= <- _]. eauto. }
  destruct (JsString.startsWith (tool_name input) "mcp__").
  { unfold ret. intros [= H _]. eapply checkMcpValues_shape; eauto. }
  discriminate.
Qed.

(** [checkBudget] always returns, and counts the call. *)
Lemma checkBudget_counts (policy : Policy) (cwd : string) (s : State) :
  exists b, checkBudget policy cwd s = (Ret b, set_actionCount (actionCount s + 1) s)
            /\ action_count b = actionCount s + 1
            /\ (exceeded b = true <-> breach_reason b <> None).
Proof.
  unfold checkBudget, bind, get, put, ret. simpl.
  destruct (negb (budget_enabled (budget policy))).
  { eexists; split; [reflexivity|]. simpl. split; [reflexivity|]. split; congruence. }
  destruct ((0 <? _) && _).
  { eexists; split; [reflexivity|]. simpl. split; [reflexivity|]. split; congruence. }
  destruct (session_limit_usd (budget policy)) as [limit|].
  2:{ eexists; split; [reflexivity|]. simpl. split; [reflexivity|]. split; congruence. }
  destruct (JsString.nonempty (cost_file (budget policy))).
  2:{ eexists; split; [reflexivity|]. simpl. split; [reflexivity|]. split; congruence. }
  destruct (checkCost limit _ _ (files s)) as [b|] eqn:E.
  2:{ eexists; split; [reflexivity|]. simpl. split; [reflexivity|]. split; congruence. }
  exists b. split; [reflexivity|].
  unfold checkCost in E.
  destruct (files s !! _) as [f|]; [|discriminate].
  destruct (JSON_parse (content f)) as [[| | | | |kvs]|]; try discriminate.
  destruct (Json.lookup "total_cost_usd" kvs) as [[| |c| | |]|]; try discriminate.
  destruct (limit <=? c); injection E as <-; simpl; (split; [reflexivity|]); split; congruence.
Qed.

(** The state in which [writeAuditEntry] builds its entry. *)
Lemma prepareAudit_returns (policy : Policy) (path : string) (s : State) :
  prepareAudit policy path s = (Ret tt, snd (prepareAudit policy path s)).
Proof.
  unfold prepareAudit, bind, get, put, ret.
  destruct (shouldRotate policy path s) eqn:Hrot.
  - unfold shouldRotate in Hrot. unfold rotateAuditFile, bind, get, put.
    destruct (files s !! path) as [f|] eqn:Hf; [|discriminate].
    simpl. rewrite lookup_delete_eq. reflexivity.
  - simpl. destruct (sequenceNumber s =? 0); [|reflexivity].
    destruct (files s !! path) as [f|]; [|reflexivity].
    destruct (resume_from f) as [[seq h]|]; reflexivity.
Qed.

(** After a rotation the audit file is gone and the chain starts anew. *)
Lemma prepareAudit_rotated (policy : Policy) (path : string) (s : State) :
  shouldRotate policy path s = true ->
  exists f, files s !! path = Some f /\
    snd (prepareAudit policy path s) =
      set_audit "" 0 (set_rotated (rotated s ++ [(path, f)])
                        (set_files (delete path (files s)) s)).
Proof.
  intros Hrot. unfold prepareAudit, bind, get, put, ret. rewrite Hrot.
  unfold shouldRotate in Hrot. unfold rotateAuditFile, bind, get, put.
  destruct (files s !! path) as [f|] eqn:Hf; [|discriminate].
  exists f. split; [reflexivity|]. simpl. rewrite lookup_delete_eq. reflexivity.
Qed.

(** Without a rotation only the last hash and the sequence number may
    change, and only when the sequence number is 0. *)
Lemma prepareAudit_kept (policy : Policy) (path : string) (s : State) :
  shouldRotate policy path s = false ->
  snd (prepareAudit policy path s) =
    if sequenceNumber s =? 0 then
      match files s !! path with
      | Some f =>
          match resume_from f with
          | Some (seq, h) => set_audit h seq s
          | None => s
          end
      | None => s
      end
    else s.
Proof.
  intros Hrot. unfold prepareAudit, bind, get, put, ret. rewrite Hrot. simpl.
  destruct (sequenceNumber s =? 0); [|reflexivity].
  destruct (files s !! path) as [f|]; [|reflexivity].
  destruct (resume_from f) as [[seq h]|]; reflexivity.
Qed.

(** The preparation leaves the counter, the clock and every other file
    alone, and the audit file is either kept or rotated away. *)
Lemma prepareAudit_frame (policy : Policy) (path : string) (s : State) :
  let s' := snd (prepareAudit policy path s) in
  actionCount s' = actionCount s /\ clock s' = clock s /\
  compiledPatterns s' = compiledPatterns s /\ stderr s' = stderr s /\
  files s' !! path = (if shouldRotate policy path s then None else files s !! path) /\
  (forall q, q <> path -> files s' !! q = files s !! q).
Proof.
  destruct (shouldRotate policy path s) eqn:Hrot.
  - destruct (prepareAudit_rotated policy path s Hrot) as (f & Hf & ->).
    simpl. repeat split; try reflexivity.
    + apply lookup_delete_eq.
    + intros q Hq. apply lookup_delete_ne. congruence.
  - rewrite (prepareAudit_kept policy path s Hrot).
    destruct (sequenceNumber s =? 0); [|repeat split; reflexivity].
    destruct (files s !! path) as [f|] eqn:Hf; [|rewrite ?Hf; repeat split; auto].
    destruct (resume_from f) as [[seq h]|]; simpl; rewrite ?Hf; repeat split; auto.
Qed.

(** [writeAuditEntry] with the audit enabled: it returns, having appended
    one line to the audit file. *)
Lemma writeAuditEntry_enabled (input : HookInput) (result : ValidationResult)
    (policy : Policy) (cwd : string) (b : option BudgetSnapshot) (s : State) :
  audit_enabled (audit policy) = true ->
  let path := getAuditPath policy cwd in
  let s2 := snd (prepareAudit policy path s) in
  let entry := written_entry input result policy cwd b s in
  writeAuditEntry input result policy cwd b s =
    (Ret tt,
     appendFile path (Json.stringify (JObj entry) +:+ JsString.nl)
       (set_audit (Json.as_string (Json.lookup "hash" entry) "")
                  (sequenceNumber s2 + 1) s2)).
Proof.
  intros Hen. unfold writeAuditEntry. rewrite Hen.
  change (negb true) with false. cbv iota.
  unfold bind. rewrite prepareAudit_returns.
  unfold get, put, written_entry. reflexivity.
Qed.

Lemma writeAuditEntry_disabled (input : HookInput) (result : ValidationResult)
    (policy : Policy) (cwd : string) (b : option BudgetSnapshot) (s : State) :
  audit_enabled (audit policy) = false ->
  writeAuditEntry input result policy cwd b s = (Ret tt, s).
Proof. intros Hen. unfold writeAuditEntry. rewrite Hen. reflexivity. Qed.

(** [writeAuditEntry] always returns. *)
Lemma writeAuditEntry_returns (input : HookInput) (result : ValidationResult)
    (policy : Policy) (cwd : string) (b : option BudgetSnapshot) (s : State) :
  writeAuditEntry input result policy cwd b s =
    (Ret tt, snd (writeAuditEntry input result policy cwd b s)).
Proof.
  destruct (audit_enabled (audit policy)) eqn:Hen.
  - rewrite (writeAuditEntry_enabled _ _ _ _ _ _ Hen). reflexivity.
  - rewrite (writeAuditEntry_disabled _ _ _ _ _ _ Hen). reflexivity.
Qed.

(** The budget step of [validate], reached when the first three gates
    pass: no breach allows, a breach is returned with allowed = true in
    audit mode, and in enforce mode it is recorded and then either
    returned or turned into a kill. *)
Lemma validate_budget_step (input : HookInput) (policy : Policy) (cwd : string)
    (s s1 : State) :
  mode policy <> Off ->
  checkAllowlist input policy = false ->
  checkScope input policy cwd = None ->
  checkBlocklist input policy s = (Ret None, s1) ->
  exists b sb,
    checkBudget policy cwd s1 = (Ret b, sb) /\
    validate input policy cwd s =
      if exceeded b then
        if Mode_eqb (mode policy) Audit
        then (Ret (with_allowed_true (budgetResult b)), sb)
        else
          let sw := snd (writeAuditEntry input (budgetResult b) policy cwd
                           (snapshot policy b) sb) in
          match shouldKill policy (budgetResult b) b with
          | Some why => executeKill why (exit_code (kill_switch policy)) sw
          | None => (Ret (budgetResult b), sw)
          end
      else (Ret (allow None), sb).
Proof.
  intros Hmode Hal Hsc Hbl.
  destruct (checkBudget_counts policy cwd s1) as (b & Hb & _).
  exists b, (set_actionCount (actionCount s1 + 1) s1). split; [exact Hb|].
  unfold validate. apply Mode_eqb_neq in Hmode. rewrite Hmode, Hal, Hsc.
  unfold bind at 1. rewrite Hbl. unfold bind at 1. rewrite Hb.
  destruct (exceeded b); [|reflexivity].
  destruct (Mode_eqb (mode policy) Audit); [reflexivity|].
  unfold bind. rewrite writeAuditEntry_returns.
  destruct (shouldKill policy (budgetResult b) b); reflexivity.
Qed.

(** Past the allowlist, a scope denial is the verdict. *)
Lemma validate_scope_step (input : HookInput) (policy : Policy) (cwd : string)
    (s : State) (r : ValidationResult) :
  mode policy <> Off ->
  checkAllowlist input policy = false ->
  checkScope input policy cwd = Some r ->
  validate input policy cwd s = (Ret (coerce (mode policy) r), s).
Proof.
  intros Hmode Hal Hsc. apply Mode_eqb_neq in Hmode.
  unfold validate, coerce. rewrite Hmode, Hal, Hsc.
  destruct (Mode_eqb (mode policy) Audit); reflexivity.
Qed.

(** Past the allowlist and the scope, a blocklist denial is the verdict. *)
Lemma validate_blocklist_step (input : HookInput) (policy : Policy) (cwd : string)
    (s s1 : State) (r : ValidationResult) :
  mode policy <> Off ->
  checkAllowlist input policy = false ->
  checkScope input policy cwd = None ->
  checkBlocklist input policy s = (Ret (Some r), s1) ->
  validate input policy cwd s = (Ret (coerce (mode policy) r), s1).
Proof.
  intros Hmode Hal Hsc Hbl. apply Mode_eqb_neq in Hmode.
  unfold validate, coerce. rewrite Hmode, Hal, Hsc.
  unfold bind. rewrite Hbl.
  destruct (Mode_eqb (mode policy) Audit); reflexivity.
Qed.

(** C2. For every request evaluated with a mode other than off, [validate]
    applies the gates in the order allowlist, scope, blocklist, budget and
    returns the verdict of the first one that decides: an allowlist hit
    returns allowed = true with source "allowlist", the other fields
    null, and the state untouched, whatever the later gates would say;
    failing that, a scope denial is returned with source "scope"
    whatever the blocklist would say; failing that, a blocklist denial
    with source "blocklist"; failing that, the budget step decides.  In
    particular a request that both the scope gate and the blocklist gate
    would deny comes back with source "scope", and with source
    "allowlist" and allowed = true when the allowlist has it. *)
Theorem validate_first_match (input : HookInput) (policy : Policy) (cwd : string)
    (s : State) :
  mode policy <> Off ->
  (checkAllowlist input policy = true ->
     validate input policy cwd s
     = (Ret {| allowed := true; reason := None; severity := None; pattern := None;
               source := Some SrcAllowlist |}, s))
  /\ (forall r,
        checkAllowlist input policy = false ->
        checkScope input policy cwd = Some r ->
        validate input policy cwd s = (Ret (coerce (mode policy) r), s)
        /\ source (coerce (mode policy) r) = Some SrcScope)
  /\ (forall r s1,
        checkAllowlist input policy = false ->
        checkScope input policy cwd = None ->
        checkBlocklist input policy s = (Ret (Some r), s1) ->
        validate input policy cwd s = (Ret (coerce (mode policy) r), s1)
        /\ source (coerce (mode policy) r) = Some SrcBlocklist)
  /\ (forall s1,
        checkAllowlist input policy = false ->
        checkScope input policy cwd = None ->
        checkBlocklist input policy s = (Ret None, s1) ->
        exists b sb,
          checkBudget policy cwd s1 = (Ret b, sb)
          /\ (exceeded b = false ->
              validate input policy cwd s
              = (Ret {| allowed := true; reason := None; severity := None;
                        pattern := None; source := None |}, sb))
          /\ (exceeded b = true ->
              forall v s2, validate input policy cwd s = (Ret v, s2) ->
                           source v = Some SrcBudget))
  /\ (forall r rb s1,
        checkAllowlist input policy = false ->
        checkScope input policy cwd = Some r ->
        checkBlocklist input policy s = (Ret (Some rb), s1) ->
        exists v, validate input policy cwd s = (Ret v, s) /\ source v = Some SrcScope)
  /\ (forall r rb s1,
        checkAllowlist input policy = true ->
        checkScope input policy cwd = Some r ->
        checkBlocklist input policy s = (Ret (Some rb), s1) ->
        exists v, validate input policy cwd s = (Ret v, s)
                  /\ allowed v = true /\ source v = Some SrcAllowlist).
Proof.
  intros Hmode.
  assert (Hoff : Mode_eqb (mode policy) Off = false) by (apply Mode_eqb_neq; exact Hmode).
  assert (Hallow : checkAllowlist input policy = true ->
             validate input policy cwd s
             = (Ret {| allowed := true; reason := None; severity := None; pattern := None;
                       source := Some SrcAllowlist |}, s)).
  { intros Hal. unfold validate. rewrite Hoff, Hal. reflexivity. }
  assert (Hscope : forall r,
             checkAllowlist input policy = false ->
             checkScope input policy cwd = Some r ->
             validate input policy cwd s = (Ret (coerce (mode policy) r), s)
             /\ source (coerce (mode policy) r) = Some SrcScope).
  { intros r Hal Hsc. split.
    - exact (validate_scope_step input policy cwd s r Hmode Hal Hsc).
    - destruct (checkScope_shape _ _ _ _ Hsc) as (_ & _ & Hsrc).
      unfold coerce. destruct (Mode_eqb (mode policy) Audit); exact Hsrc. }
  split; [exact Hallow|split; [exact Hscope|split; [|split; [|split]]]].
  - intros r s1 Hal Hsc Hbl. split.
    + exact (validate_blocklist_step input policy cwd s s1 r Hmode Hal Hsc Hbl).
    + destruct (checkBlocklist_shape _ _ _ _ _ Hbl) as (p & ->).
      unfold coerce. destruct (Mode_eqb (mode policy) Audit); reflexivity.
  - intros s1 Hal Hsc Hbl.
    destruct (validate_budget_step input policy cwd s s1 Hmode Hal Hsc Hbl)
      as (b & sb & Hb & Hv).
    exists b, sb. split; [exact Hb|]. split.
    + intros Hex. rewrite Hv, Hex. reflexivity.
    + intros Hex v s2. rewrite Hv, Hex.
      destruct (Mode_eqb (mode policy) Audit).
      * intros [= <- _]. reflexivity.
      * cbv zeta. destruct (shouldKill policy (budgetResult b) b).
        -- unfold executeKill, bind, get, put, exit. discriminate.
        -- intros [= <- _]. reflexivity.
  - intros r rb s1 Hal Hsc _.
    destruct (Hscope r Hal Hsc) as (Hv & Hsrc). eauto.
  - intros r rb s1 Hal _ _. eexists. split; [exact (Hallow Hal)|]. split; reflexivity.
Qed.


(** C10. In off mode with the audit enabled, [validateAndAudit] returns
    the allow of [validate] and still has two effects: its own call of
    [checkBudget] adds one to the action counter, and one entry, with
    allowed = true and that count in its budget snapshot, is appended to
    the audit file (to an empty file when the old one is rotated away or
    does not exist). *)
Theorem off_mode_side_effects (input : HookInput) (policy : Policy) (cwd : string)
    (s : State) :
  mode policy = Off ->
  audit_enabled (audit policy) = true ->
  exists (b : BudgetState) (seq : Z) (h : string) (s' : State),
    validateAndAudit input policy cwd s = (Ret (allow None), s')
    /\ actionCount s' = actionCount s + 1
    /\ action_count b = actionCount s + 1
    /\ files s' !! getAuditPath policy cwd =
         Some {| content :=
                   (if shouldRotate policy (getAuditPath policy cwd) s then ""
                    else match files s !! getAuditPath policy cwd with
                         | Some f => content f
                         | None => ""
                         end)
                   +:+ Json.stringify
                         (JObj (entryWithoutHash (clock s) seq input (allow None) policy cwd
                                  (snapshot policy b) ++ [("hash", JStr h)]))
                   +:+ JsString.nl;
                 mtime := clock s |}
    /\ Json.lookup "allowed"
         (entryWithoutHash (clock s) seq input (allow None) policy cwd (snapshot policy b))
       = Some (JBool true).
Proof.
  intros Hmode Hen.
  destruct (checkBudget_counts policy cwd s) as (b & Hb & Hcount & _).
  set (sb := set_actionCount (actionCount s + 1) s) in *.
  set (path := getAuditPath policy cwd).
  set (s2 := snd (prepareAudit policy path sb)).
  destruct (prepareAudit_frame policy path sb) as (Hac & Hclk & _ & _ & Hfile & _).
  fold s2 in Hac, Hclk, Hfile.
  exists b, (sequenceNumber s2 + 1),
    (entryHash policy (lastHash s2)
       (entryWithoutHash (clock s2) (sequenceNumber s2 + 1) input (allow None) policy cwd
          (snapshot policy b))).
  eexists. split; [|split; [|split; [exact Hcount|split; [|reflexivity]]]].
  - unfold validateAndAudit, validate. rewrite Hmode. simpl Mode_eqb. cbv iota.
    unfold bind at 1. unfold ret at 1. unfold bind at 1. rewrite Hb.
    unfold bind at 1. rewrite (writeAuditEntry_enabled _ _ _ _ _ _ Hen).
    reflexivity.
  - simpl. exact Hac.
  - unfold appendFile. simpl. rewrite lookup_insert_eq.
    unfold written_entry. fold path. fold s2. rewrite Hclk.
    change (clock sb) with (clock s).
    rewrite Hfile.
    change (shouldRotate policy path sb) with (shouldRotate policy path s).
    change (files sb) with (files s).
    destruct (shouldRotate policy path s); [reflexivity|].
    destruct (files s !! path); reflexivity.
Qed.

End Pipeline.

(* ================================================================== *)
(** * The shell preprocessor *)
(* ================================================================== *)

Section Preprocessor.

Import JsString.

(** The loop of [stripQuotedStrings] and the three readings of the
    specification, in each of the states the loop can be in. *)
Lemma strip_loop_refines (cs : list ascii) :
  (forall res,
     st_result (strip_loop cs false
       {| st_result := res; st_inSingle := false; st_inDouble := false |})
     = res ++ Spec.unquoted cs)
  /\ (forall res,
        st_result (strip_loop cs false
          {| st_result := res; st_inSingle := true; st_inDouble := false |})
        = res ++ Spec.in_single cs)
  /\ (forall res,
        st_result (strip_loop cs false
          {| st_result := res; st_inSingle := false; st_inDouble := true |})
        = res ++ Spec.in_double cs)
  /\ (forall res,
        st_result (strip_loop cs true
          {| st_result := res; st_inSingle := false; st_inDouble := true |})
        = res ++ Spec.in_double (tail cs)).
Proof.
  induction cs as [|c cs (IHu & IHs & IHd & IHk)].
  - simpl. repeat split; intros res; rewrite app_nil_r; reflexivity.
  - repeat split; intros res.
    + cbn [strip_loop Spec.unquoted]. unfold strip_step. cbn [st_inDouble st_inSingle st_result].
      rewrite andb_false_r. cbn [andb negb].
      rewrite !andb_true_r.
      destruct (Ascii.eqb c c_squote) eqn:Hs.
      * apply IHs.
      * destruct (Ascii.eqb c c_dquote) eqn:Hd.
        -- apply IHd.
        -- rewrite IHu. rewrite <- app_assoc. reflexivity.
    + cbn [strip_loop Spec.in_single]. unfold strip_step. cbn [st_inDouble st_inSingle st_result].
      rewrite andb_false_r. cbn [andb negb].
      rewrite !andb_true_r, !andb_false_r.
      destruct (Ascii.eqb c c_squote) eqn:Hs.
      * apply IHu.
      * apply IHs.
    + cbn [strip_loop Spec.in_double]. unfold strip_step. cbn [st_inDouble st_inSingle st_result].
      rewrite !andb_true_r. cbn [andb negb]. rewrite !andb_false_r.
      destruct (Ascii.eqb c c_bslash) eqn:Hb.
      * destruct cs as [|d cs'].
        -- cbn [andb].
           assert (Hq : Ascii.eqb c c_dquote = false).
           { apply Ascii.eqb_eq in Hb. subst c. reflexivity. }
           rewrite Hq. simpl. rewrite app_nil_r. reflexivity.
        -- cbn [andb]. rewrite IHk. reflexivity.
      * cbn [andb].
        destruct (Ascii.eqb c c_dquote) eqn:Hd.
        -- apply IHu.
        -- apply IHd.
    + cbn [strip_loop tail]. apply IHd.
Qed.

Lemma stripQuotedStrings_stripped (text : string) :
  stripQuotedStrings text = Spec.stripped text.
Proof.
  unfold stripQuotedStrings, Spec.stripped.
  destruct (strip_loop_refines (chars text)) as (H & _).
  rewrite H. reflexivity.
Qed.


End Preprocessor.


(** C5, a failing input.  [splitShellCommand] counts the two characters
    of [$(] as two levels of nesting and the closing parenthesis as one,
    so after a command substitution it never splits again: the
    top-level [;] of [echo $(date); ls] is not a split point.  Commands
    without a substitution are split, and [echo hi && rm -rf /] is
    denied under the default policy. *)
Theorem split_after_substitution :
  splitShellCommand "echo $(date); ls" = ["echo $(date); ls"]
  /\ splitShellCommand "echo hi; ls" = ["echo hi"; "ls"]
  /\ splitShellCommand "echo hi && rm -rf /" = ["echo hi"; "rm -rf /"]
  /\ fst (validate (RT := node) (bash "echo hi && rm -rf /") default_policy
            Examples.cwd Examples.s0)
     = Ret {| allowed := false; reason := Some "Forced file deletion";
              severity := Some Critical;
              pattern := Some "rm\s+(-[a-zA-Z]*f[a-zA-Z]*|--force)";
              source := Some SrcBlocklist |}.
Proof. repeat apply conj; vm_compute; reflexivity. Qed.

(** C6, a failing input.  The loop of [extractSubcommands] stops one
    character before the end of the command, so a substitution that
    closes on the last character is not returned; and a parenthesis
    inside a substitution closes it. *)
Theorem substitution_at_end_missed :
  extractSubcommands "echo $(whoami)" = []
  /\ extractSubcommands "echo $(whoami) " = ["whoami"]
  /\ extractSubcommands "echo $(a (b) c) " = ["a (b"]
  /\ extractSubcommands "echo $(a $(b) c) " = ["a $(b) c"].
Proof. repeat apply conj; vm_compute; reflexivity. Qed.

(** C7, a failing input.  [p.replace("{cwd}", cwd)] substitutes the first
    [{cwd}] only and reads [$&] in the working directory as a
    replacement pattern: a file under the expansion of a template that
    names [{cwd}] twice is denied, and so is a file inside a working
    directory whose name contains [$&].  Scenario 5 holds. *)
Theorem first_cwd_only :
  JsString.replace "{cwd}/vendor{cwd}" "{cwd}" "/home/u/proj"
    = "/home/u/proj/vendor{cwd}"
  /\ checkScope (RT := node) (read_file "/home/u/proj/vendor/home/u/proj/lib.js")
       (with_scope Examples.scope_twice default_policy) "/home/u/proj"
     = Some {| allowed := false;
               reason := Some "Path outside allowed scope: /home/u/proj/vendor/home/u/proj/lib.js";
               severity := Some High;
               pattern := Some "/home/u/proj";
               source := Some SrcScope |}
  /\ checkScope (RT := node) (read_file "/srv/a$&b/notes.txt")
       (with_scope Examples.scope_cwd default_policy) "/srv/a$&b"
     = Some {| allowed := false;
               reason := Some "Path outside allowed scope: /srv/a$&b/notes.txt";
               severity := Some High;
               pattern := Some "/srv/a$&b";
               source := Some SrcScope |}
  /\ fst (validate (RT := node) (read_file "/etc/passwd")
            (with_scope Examples.scope_cwd default_policy) Examples.cwd Examples.s0)
     = Ret {| allowed := false;
              reason := Some "Path outside allowed scope: /etc/passwd";
              severity := Some High;
              pattern := Some "/home/u/proj";
              source := Some SrcScope |}.
Proof. repeat apply conj; vm_compute; reflexivity. Qed.

(** C8, a failing input.  [checkBudget] counts every call, whether or not
    the budget is enabled; but [validateAndAudit] calls it a second time
    for each request that reaches the budget step, so with at most two
    actions per session three safe requests in one process come back
    allow, deny, deny.  Three calls of [validate] alone, as in the test
    of the repository, come back allow, allow, deny. *)
Theorem budget_counted_twice :
  (fst (checkBudget (RT := node) default_policy Examples.cwd Examples.s0)
     = Ret {| action_count := 1; session_cost_usd := None; exceeded := false;
              breach_reason := None |}
   /\ actionCount (snd (checkBudget (RT := node) default_policy Examples.cwd Examples.s0)) = 1)
  /\ (fst (validateAndAudit Examples.safe Examples.policy_two Examples.cwd Examples.s0)
        = Ret (allow None)
      /\ fst (validateAndAudit Examples.safe Examples.policy_two Examples.cwd Examples.two_s1)
        = Ret (Examples.over_budget "3" "2")
      /\ fst (validateAndAudit Examples.safe Examples.policy_two Examples.cwd Examples.two_s2)
        = Ret (Examples.over_budget "5" "2"))
  /\ (actionCount Examples.two_s1 = 2 /\ actionCount Examples.two_s2 = 4)
  /\ (fst (validate Examples.safe Examples.policy_two Examples.cwd Examples.s0)
        = Ret (allow None)
      /\ fst (validate Examples.safe Examples.policy_two Examples.cwd Examples.two_v1)
        = Ret (allow None)
      /\ fst (validate Examples.safe Examples.policy_two Examples.cwd Examples.two_v2)
        = Ret (Examples.over_budget "3" "2")).
Proof. repeat apply conj; vm_compute; reflexivity. Qed.

(** C9, a failing input.  In enforce mode a request denied by the budget
    step is recorded by [validate] and, when the kill switch does not
    fire, once more by [validateAndAudit]: the second of two requests
    under a limit of one action adds two lines to the audit file. *)
Theorem budget_denial_audited_twice :
  length (audit_lines Examples.audit_file Examples.s0) = 0%nat
  /\ length (audit_lines Examples.audit_file Examples.one_s1) = 1%nat
  /\ fst (validateAndAudit Examples.safe Examples.policy_one Examples.cwd Examples.one_s1)
     = Ret (Examples.over_budget "3" "1")
  /\ length (audit_lines Examples.audit_file Examples.one_s2) = 3%nat.
Proof. repeat apply conj; vm_compute; reflexivity. Qed.

(** A pair is its first component with its second. *)
Lemma pair_with_snd {A B : Type} (x : A * B) (a : A) : fst x = a -> x = (a, snd x).
Proof. intros <-. destruct x; reflexivity. Defined.

(** A request that the scope gate and the blocklist gate both deny: it
    comes back allowed from the allowlist when the allowlist has its
    path, and denied by the scope gate under the default policy. *)
Lemma validate_first_match_witness :
  (mode Examples.trusting_policy <> Off
   /\ checkAllowlist (RT := node) Examples.read_pem Examples.trusting_policy = true
   /\ validate (RT := node) Examples.read_pem Examples.trusting_policy
        Examples.cwd Examples.s0
      = (Ret {| allowed := true; reason := None; severity := None; pattern := None;
                source := Some SrcAllowlist |}, Examples.s0)
   /\ exists v,
        validate (RT := node) Examples.read_pem Examples.trusting_policy
          Examples.cwd Examples.s0 = (Ret v, Examples.s0)
        /\ allowed v = true /\ source v = Some SrcAllowlist)
  /\ (mode default_policy <> Off
      /\ checkAllowlist (RT := node) Examples.read_pem default_policy = false
      /\ exists v,
           validate (RT := node) Examples.read_pem default_policy
             Examples.cwd Examples.s0 = (Ret v, Examples.s0)
           /\ source v = Some SrcScope).
Proof.
  pose (r := {| allowed := false; reason := Some "Path in denied scope: /etc";
                severity := Some High; pattern := Some "/etc"; source := Some SrcScope |}).
  pose (rb := {| allowed := false; reason := Some "Private key file";
                 severity := Some Critical; pattern := Some "id_rsa$|id_ed25519$|\.pem$";
                 source := Some SrcBlocklist |}).
  split.
  - assert (Hal : checkAllowlist (RT := node) Examples.read_pem Examples.trusting_policy
                  = true) by (vm_compute; reflexivity).
    destruct (validate_first_match (RT := node) Examples.read_pem Examples.trusting_policy
                Examples.cwd Examples.s0) as (H1 & _ & _ & _ & _ & H6); [discriminate|].
    split; [discriminate|]. split; [exact Hal|]. split; [exact (H1 Hal)|].
    apply (H6 r rb (snd (checkBlocklist (RT := node) Examples.read_pem
                           Examples.trusting_policy Examples.s0))).
    + exact Hal.
    + vm_compute. reflexivity.
    + apply pair_with_snd. vm_compute. reflexivity.
  - assert (Hal : checkAllowlist (RT := node) Examples.read_pem default_policy = false)
      by (vm_compute; reflexivity).
    destruct (validate_first_match (RT := node) Examples.read_pem default_policy
                Examples.cwd Examples.s0) as (_ & _ & _ & _ & H5 & _); [discriminate|].
    split; [discriminate|]. split; [exact Hal|].
    apply (H5 r rb (snd (checkBlocklist (RT := node) Examples.read_pem default_policy
                           Examples.s0))).
    + exact Hal.
    + vm_compute. reflexivity.
    + apply pair_with_snd. vm_compute. reflexivity.
Defined.


(** A request in off mode with the default audit configuration. *)
Lemma off_mode_side_effects_witness :
  mode (with_mode Off default_policy) = Off
  /\ audit_enabled (audit (with_mode Off default_policy)) = true
  /\ exists (b : BudgetState) (seq : Z) (h : string) (s' : State),
       validateAndAudit (RT := node) (bash "rm -rf /") (with_mode Off default_policy)
         Examples.cwd Examples.s0 = (Ret (allow None), s')
       /\ actionCount s' = 1
       /\ action_count b = 1.
Proof.
  split; [reflexivity|]. split; [reflexivity|].
  destruct (off_mode_side_effects (RT := node) (bash "rm -rf /")
              (with_mode Off default_policy) Examples.cwd Examples.s0 eq_refl eq_refl)
    as (b & seq & h & s' & Hv & Hc & Hb & _).
  exists b, seq, h, s'. auto.
Defined.

(* ================================================================== *)
(** * JSON Lines: what is written is what is read *)
(* ================================================================== *)

Section JsonLines.

Import JsString.

Lemma append_cons (c : ascii) (s t : string) : String c s +:+ t = String c (s +:+ t).
Proof. reflexivity. Qed.

Lemma chars_append (a b : string) : chars (a +:+ b) = chars a ++ chars b.
Proof.
  induction a as [|c a IH]; [reflexivity|].
  rewrite append_cons. simpl. f_equal. exact IH.
Qed.

Lemma of_chars_chars (s : string) : of_chars (chars s) = s.
Proof. apply string_of_list_ascii_of_string. Qed.

Lemma chars_of_chars (cs : list ascii) : chars (of_chars cs) = cs.
Proof. apply list_ascii_of_string_of_list_ascii. Qed.

Lemma append_empty_r (s : string) : s +:+ "" = s.
Proof.
  induction s as [|c s IH]; [reflexivity|].
  rewrite append_cons. f_equal. exact IH.
Qed.

Lemma append_assoc (a b c : string) : (a +:+ b) +:+ c = a +:+ (b +:+ c).
Proof.
  induction a as [|x a IH]; [reflexivity|].
  rewrite !append_cons. f_equal. exact IH.
Qed.

Lemma append_inj_l (a b c : string) : a +:+ b = a +:+ c -> b = c.
Proof.
  induction a as [|x a IH]; [auto|].
  rewrite !append_cons. intros [= H]. auto.
Qed.

Lemma no_newline_app (a b : list ascii) :
  no_newline a -> no_newline b -> no_newline (a ++ b).
Proof. unfold no_newline. intros Ha Hb. apply Forall_app. split; assumption. Qed.

(** An escaped character is never a raw line feed. *)
Lemma escape_char_no_newline (c : ascii) : no_newline (Json.escape_char c).
Proof.
  destruct c as [b0 b1 b2 b3 b4 b5 b6 b7].
  destruct b0, b1, b2, b3, b4, b5, b6, b7;
    vm_compute; repeat constructor; discriminate.
Qed.

Lemma quote_no_newline (s : string) : no_newline (chars (Json.quote s)).
Proof.
  unfold Json.quote. rewrite chars_of_chars.
  constructor; [discriminate|].
  apply no_newline_app; [|repeat constructor; discriminate].
  induction (chars s) as [|c cs IH]; simpl; [constructor|].
  apply no_newline_app; [apply escape_char_no_newline|exact IH].
Qed.

Lemma uint_no_newline (d : Decimal.uint) : no_newline (chars (NilEmpty.string_of_uint d)).
Proof.
  induction d; simpl; try constructor; try discriminate; assumption.
Qed.

Lemma of_Z_no_newline (n : Z) : no_newline (chars (of_Z n)).
Proof.
  unfold of_Z, NilZero.string_of_int, NilZero.string_of_uint.
  destruct (Z.to_int n) as [d|d].
  - destruct d; try apply uint_no_newline. repeat constructor; discriminate.
  - simpl. constructor; [discriminate|].
    destruct d; try apply uint_no_newline. repeat constructor; discriminate.
Qed.

Lemma join_no_newline (xs : list string) :
  Forall (fun x => no_newline (chars x)) xs -> no_newline (chars (join "," xs)).
Proof.
  induction 1 as [|x xs Hx Hxs IH]; simpl; [constructor|].
  destruct xs as [|y ys]; [exact Hx|].
  rewrite !chars_append. apply no_newline_app; [exact Hx|].
  apply no_newline_app; [repeat constructor; discriminate|exact IH].
Qed.

(** JSON.stringify writes no raw line feed. *)
Lemma stringify_no_newline : forall v : json, no_newline (chars (Json.stringify v)).
Proof.
  fix IH 1. intros [|b|n|s|xs|kvs].
  - repeat constructor; discriminate.
  - destruct b; repeat constructor; discriminate.
  - apply of_Z_no_newline.
  - apply quote_no_newline.
  - change (Json.stringify (JArr xs))
      with ("[" +:+ join "," (map Json.stringify xs) +:+ "]").
    rewrite !chars_append.
    apply no_newline_app; [repeat constructor; discriminate|].
    apply no_newline_app; [|repeat constructor; discriminate].
    apply join_no_newline.
    induction xs as [|x xs IHxs]; simpl; constructor; [apply IH|exact IHxs].
  - change (Json.stringify (JObj kvs))
      with ("{" +:+ join "," (map (fun kv => Json.quote (fst kv) +:+ ":"
                                             +:+ Json.stringify (snd kv)) kvs) +:+ "}").
    rewrite !chars_append.
    apply no_newline_app; [repeat constructor; discriminate|].
    apply no_newline_app; [|repeat constructor; discriminate].
    apply join_no_newline.
    induction kvs as [|[k v] kvs IHkvs]; simpl; constructor; [|exact IHkvs].
    rewrite !chars_append.
    apply no_newline_app; [apply quote_no_newline|].
    apply no_newline_app; [repeat constructor; discriminate|apply IH].
Qed.

Lemma stringify_obj_line (kvs : list (string * json)) :
  line_ok (chars (Json.stringify (JObj kvs))).
Proof.
  split; [apply stringify_no_newline|].
  change (Json.stringify (JObj kvs))
    with ("{" +:+ join "," (map (fun kv => Json.quote (fst kv) +:+ ":"
                                           +:+ Json.stringify (snd kv)) kvs) +:+ "}").
  rewrite !chars_append. simpl. eauto.
Qed.

Lemma split_chars_line (l rest cur : list ascii) :
  no_newline l ->
  split_chars c_newline cur (l ++ c_newline :: rest)
  = (rev cur ++ l) :: split_chars c_newline [] rest.
Proof.
  intros Hl. revert cur. induction Hl as [|c l Hc Hl IH]; intros cur; simpl.
  - rewrite app_nil_r. reflexivity.
  - apply Ascii.eqb_neq in Hc. rewrite Hc. rewrite IH. simpl.
    rewrite <- app_assoc. reflexivity.
Qed.

Lemma split_chars_last (l cur : list ascii) :
  no_newline l -> split_chars c_newline cur l = [rev cur ++ l].
Proof.
  intros Hl. revert cur. induction Hl as [|c l Hc Hl IH]; intros cur; simpl.
  - rewrite app_nil_r. reflexivity.
  - apply Ascii.eqb_neq in Hc. rewrite Hc. rewrite IH. simpl.
    rewrite <- app_assoc. reflexivity.
Qed.

Lemma terminated_joined (ls : list (list ascii)) :
  ls <> [] -> terminated ls = joined ls ++ [c_newline].
Proof.
  induction ls as [|l ls IH]; [congruence|]. intros _.
  destruct ls as [|l' ls'].
  - simpl. rewrite app_nil_r. reflexivity.
  - change (terminated (l :: l' :: ls'))
      with ((l ++ [c_newline]) ++ terminated (l' :: ls')).
    rewrite IH by congruence.
    change (joined (l :: l' :: ls')) with (l ++ c_newline :: joined (l' :: ls')).
    rewrite <- !app_assoc. reflexivity.
Qed.

Lemma split_joined (ls : list (list ascii)) :
  Forall no_newline ls -> ls <> [] -> split_chars c_newline [] (joined ls) = ls.
Proof.
  induction 1 as [|l ls Hl Hls IH]; [congruence|]. intros _.
  destruct ls as [|l' ls'].
  - simpl. apply split_chars_last. exact Hl.
  - change (joined (l :: l' :: ls')) with (l ++ c_newline :: joined (l' :: ls')).
    rewrite split_chars_line by exact Hl. simpl rev. simpl app at 1.
    f_equal. apply IH. congruence.
Qed.

Lemma joined_starts (ls : list (list ascii)) :
  Forall line_ok ls -> ls <> [] -> exists t, joined ls = "{"%char :: t.
Proof.
  intros H Hne. destruct H as [|l ls (_ & mid & ->) Hls]; [congruence|].
  destruct ls; simpl; eauto.
Qed.

Lemma joined_ends (ls : list (list ascii)) :
  Forall line_ok ls -> ls <> [] -> exists t, joined ls = t ++ ["}"%char].
Proof.
  induction 1 as [|l ls (_ & mid & Hl) Hls IH]; [congruence|]. intros _.
  destruct ls as [|l' ls'].
  - simpl. exists ("{"%char :: mid). exact Hl.
  - destruct IH as (t & Ht); [congruence|].
    change (joined (l :: l' :: ls')) with (l ++ c_newline :: joined (l' :: ls')).
    rewrite Ht. exists (l ++ c_newline :: t).
    rewrite <- app_assoc. reflexivity.
Qed.

Lemma trim_terminated (ls : list (list ascii)) :
  Forall line_ok ls -> ls <> [] -> trim_chars (terminated ls) = joined ls.
Proof.
  intros H Hne. rewrite terminated_joined by exact Hne.
  destruct (joined_starts ls H Hne) as (t & Hs).
  destruct (joined_ends ls H Hne) as (u & He).
  unfold trim_chars.
  assert (H1 : trim_start (joined ls ++ [c_newline]) = joined ls ++ [c_newline]).
  { rewrite Hs. reflexivity. }
  rewrite H1, rev_app_distr. simpl rev at 1. simpl app.
  change (trim_start (c_newline :: rev (joined ls))) with (trim_start (rev (joined ls))).
  assert (H2 : trim_start (rev (joined ls)) = rev (joined ls)).
  { rewrite He, rev_app_distr. reflexivity. }
  rewrite H2. apply rev_involutive.
Qed.

Lemma map_of_chars_chars (xs : list string) : map of_chars (map chars xs) = xs.
Proof.
  induction xs as [|x xs IH]; simpl; [reflexivity|].
  rewrite of_chars_chars, IH. reflexivity.
Qed.

End JsonLines.

Section ChainFacts.

Context {RT : Runtime}.

Import JsString.

Local Arguments String.eqb : simpl never.

Lemma chars_render (objs : list (list (string * json))) :
  chars (render objs) = terminated (map (fun o => chars (line o)) objs).
Proof.
  induction objs as [|o objs IH]; [reflexivity|].
  change (render (o :: objs)) with (line o +:+ nl +:+ render objs).
  rewrite !chars_append, IH. simpl. rewrite <- app_assoc. reflexivity.
Qed.

(** Reading back a file of objects gives their lines. *)
Lemma read_lines_render (objs : list (list (string * json))) :
  read_lines (render objs) = map line objs.
Proof.
  destruct objs as [|o objs]; [reflexivity|].
  unfold read_lines, trim. rewrite chars_render.
  set (ls := map (fun o => chars (line o)) (o :: objs)).
  assert (Hok : Forall line_ok ls).
  { unfold ls. apply Forall_map. apply Forall_forall. intros x _.
    apply stringify_obj_line. }
  assert (Hne : ls <> []) by (unfold ls; simpl; congruence).
  rewrite trim_terminated by assumption.
  destruct (joined_starts ls Hok Hne) as (t & Hs).
  assert (Hn : nonempty (of_chars (joined ls)) = true) by (rewrite Hs; reflexivity).
  rewrite Hn. unfold split. rewrite chars_of_chars.
  rewrite split_joined; [|eapply Forall_impl; [exact Hok|intros l Hl; apply Hl]|exact Hne].
  unfold ls. rewrite <- (map_map line chars). apply map_of_chars_chars.
Qed.

Lemma lookup_app_hash (e : list (string * json)) (v : json) :
  no_hash e -> Json.lookup "hash" (e ++ [("hash", v)]) = Some v.
Proof.
  unfold no_hash. induction e as [|[k w] e IH]; simpl; [reflexivity|].
  destruct (String.eqb "hash" k); [intros [=]|exact IH].
Qed.

Lemma remove_app_hash (e : list (string * json)) (v : json) :
  no_hash e -> Json.remove "hash" (e ++ [("hash", v)]) = e.
Proof.
  unfold no_hash, Json.remove. induction e as [|[k w] e IH]; simpl; [reflexivity|].
  destruct (String.eqb "hash" k); [intros [=]|].
  intros H. simpl. f_equal. exact (IH H).
Qed.

Lemma remove_no_hash (e : list (string * json)) :
  no_hash e -> Json.remove "hash" e = e.
Proof.
  unfold no_hash, Json.remove. induction e as [|[k w] e IH]; simpl; [reflexivity|].
  destruct (String.eqb "hash" k); [intros [=]|].
  intros H. simpl. f_equal. exact (IH H).
Qed.

Lemma chain_app (prev : string) (es es' : list (list (string * json))) :
  chain prev (es ++ es') = chain prev es ++ chain (last_hash prev es) es'.
Proof.
  revert prev. induction es as [|e es IH]; intros prev; simpl; [reflexivity|].
  rewrite IH. reflexivity.
Qed.

Lemma last_hash_app (prev : string) (es es' : list (list (string * json))) :
  last_hash prev (es ++ es') = last_hash (last_hash prev es) es'.
Proof.
  revert prev. induction es as [|e es IH]; intros prev; simpl; [reflexivity|].
  apply IH.
Qed.

Lemma chain_length (prev : string) (es : list (list (string * json))) :
  length (chain prev es) = length es.
Proof.
  revert prev. induction es as [|e es IH]; intros prev; simpl; [reflexivity|].
  rewrite IH. reflexivity.
Qed.

Lemma render_app (a b : list (list (string * json))) :
  render (a ++ b) = render a +:+ render b.
Proof.
  induction a as [|o a IH]; [reflexivity|].
  change (render ((o :: a) ++ b)) with (line o +:+ nl +:+ render (a ++ b)).
  change (render (o :: a)) with (line o +:+ nl +:+ render a).
  rewrite IH, !append_assoc. reflexivity.
Qed.

(** The verifier runs through a chain whose lines parse back. *)
Lemma verify_loop_chain (total i : Z) (prev : string)
    (es : list (list (string * json))) (rest : list string) :
  Forall no_hash es ->
  Forall parses_back (chain prev es) ->
  verify_loop total i prev (map line (chain prev es) ++ rest)
  = verify_loop total (i + Z.of_nat (length es)) (last_hash prev es) rest.
Proof.
  intros Hno. revert i prev.
  induction Hno as [|e es He Hes IH]; intros i prev Hp.
  - simpl. rewrite Z.add_0_r. reflexivity.
  - simpl chain in *. inversion Hp as [|o objs Hpo Hpr]; subst.
    change (map line ((e ++ [("hash", JStr (computeHash prev e))])
                      :: chain (computeHash prev e) es) ++ rest)
      with (line (e ++ [("hash", JStr (computeHash prev e))])
            :: (map line (chain (computeHash prev e) es) ++ rest)).
    cbn [verify_loop]. unfold line at 1. rewrite Hpo.
    rewrite (remove_app_hash e _ He), (lookup_app_hash e _ He).
    rewrite String.eqb_refl. rewrite IH by exact Hpr.
    cbn [last_hash length]. f_equal. lia.
Qed.

Lemma verify_chain (es : list (list (string * json))) :
  Forall no_hash es ->
  Forall parses_back (chain "" es) ->
  verifyContent (render (chain "" es))
  = Ret {| valid := true; entries := Z.of_nat (length es); brokenAt := None |}.
Proof.
  intros Hno Hp. unfold verifyContent. rewrite read_lines_render.
  rewrite <- (app_nil_r (map line (chain "" es))).
  rewrite verify_loop_chain by assumption.
  rewrite app_nil_r, length_map, chain_length. reflexivity.
Qed.

Lemma mutate_hash (e : list (string * json)) (w v' : json) :
  no_hash e -> Spec.mutate "hash" v' (e ++ [("hash", w)]) = e ++ [("hash", v')].
Proof.
  unfold no_hash. induction e as [|[k x] e IH]; simpl; [reflexivity|].
  destruct (String.eqb "hash" k); [intros [=]|].
  intros H. f_equal. exact (IH H).
Qed.

Lemma mutate_other (k : string) (e : list (string * json)) (w v' old : json) :
  k <> "hash" ->
  Json.lookup k (e ++ [("hash", w)]) = Some old ->
  Spec.mutate k v' (e ++ [("hash", w)]) = Spec.mutate k v' e ++ [("hash", w)].
Proof.
  intros Hk. induction e as [|[k' x] e IH]; simpl.
  - apply String.eqb_neq in Hk. rewrite Hk. intros [=].
  - destruct (String.eqb k k'); [reflexivity|].
    intros H. simpl. f_equal. exact (IH H).
Qed.

Lemma mutate_no_hash (k : string) (e : list (string * json)) (v' : json) :
  no_hash e -> no_hash (Spec.mutate k v' e).
Proof.
  unfold no_hash. induction e as [|[k' x] e IH]; simpl; [reflexivity|].
  destruct (String.eqb "hash" k') eqn:Hh; [intros [=]|].
  intros H. destruct (String.eqb k k'); simpl; rewrite Hh; auto.
Qed.

(** The object at position [i] of a chain. *)
Lemma chain_lookup (es : list (list (string * json))) (i : nat)
    (obj : list (string * json)) :
  chain "" es !! i = Some obj ->
  exists e,
    es = take i es ++ e :: drop (S i) es
    /\ length (take i es) = i
    /\ obj = e ++ [("hash", JStr (computeHash (last_hash "" (take i es)) e))].
Proof.
  intros Hobj.
  assert (Hi : (i < length es)%nat).
  { rewrite <- (chain_length "" es). eapply lookup_lt_Some. exact Hobj. }
  destruct (lookup_lt_is_Some_2 es i Hi) as (e & He).
  exists e. split; [symmetry; apply take_drop_middle; exact He|].
  assert (Hlen : length (take i es) = i) by (rewrite length_take; lia).
  split; [exact Hlen|].
  rewrite <- (take_drop_middle es i e He) in Hobj at 1.
  rewrite chain_app in Hobj. simpl chain in Hobj.
  rewrite <- Hlen in Hobj at 1.
  rewrite <- (chain_length "" (take i es)) in Hobj at 1.
  rewrite list_lookup_middle in Hobj by reflexivity.
  congruence.
Qed.

(** The verifier stops at the entry one of whose fields was given
    another value: at once when the field is the hash, and otherwise
    when the altered entry does not hash like the original one. *)
Lemma verify_tampered (es : list (list (string * json))) (i : nat)
    (obj : list (string * json)) (k : string) (old v' : json) :
  Forall no_hash es ->
  Forall parses_back (chain "" es) ->
  chain "" es !! i = Some obj ->
  Json.lookup k obj = Some old ->
  v' <> old ->
  parses_back (Spec.mutate k v' obj) ->
  (k <> "hash" ->
   computeHash (last_hash "" (take i es)) (Json.remove "hash" (Spec.mutate k v' obj))
   <> computeHash (last_hash "" (take i es)) (Json.remove "hash" obj)) ->
  verifyContent (render (<[i := Spec.mutate k v' obj]> (chain "" es)))
  = Ret {| valid := false; entries := Z.of_nat (length es);
           brokenAt := Some (Z.of_nat i + 1) |}.
Proof.
  intros Hno Hp Hobj Hold Hne Hpt Hcol.
  destruct (chain_lookup es i obj Hobj) as (e & Hes & Hlen & ->).
  remember (take i es) as pre eqn:Hpre.
  remember (drop (S i) es) as post eqn:Hpost.
  remember (last_hash "" pre) as prev eqn:Hprev.
  clear Hpre Hpost.
  assert (Hno' : Forall no_hash pre /\ no_hash e).
  { rewrite Hes in Hno. apply Forall_app in Hno as (H1 & H2).
    inversion H2; subst. auto. }
  destruct Hno' as (Hnopre & Hnoe).
  assert (Hchain : chain "" es
                   = chain "" pre ++ (e ++ [("hash", JStr (computeHash prev e))])
                       :: chain (computeHash prev e) post).
  { rewrite Hes at 1. rewrite chain_app, <- Hprev. reflexivity. }
  assert (Hppre : Forall parses_back (chain "" pre)).
  { rewrite Hchain in Hp. apply Forall_app in Hp as (H1 & _). exact H1. }
  unfold verifyContent. rewrite read_lines_render.
  rewrite length_map, length_insert, chain_length.
  rewrite Hchain.
  rewrite insert_app_r_alt by (rewrite chain_length; lia).
  rewrite chain_length, Hlen, Nat.sub_diag. simpl insert.
  rewrite map_app, verify_loop_chain by assumption.
  rewrite <- Hprev, Hlen. cbn [map verify_loop].
  unfold line at 1. rewrite Hpt.
  destruct (String.eqb k "hash") eqn:Hk.
  - apply String.eqb_eq in Hk. subst k.
    rewrite (mutate_hash e _ v' Hnoe).
    rewrite (remove_app_hash e _ Hnoe), (lookup_app_hash e _ Hnoe).
    rewrite (lookup_app_hash e _ Hnoe) in Hold. injection Hold as <-.
    destruct v' as [| | |h'| |]; try reflexivity.
    destruct (String.eqb h' (computeHash prev e)) eqn:Hh; [|reflexivity].
    apply String.eqb_eq in Hh. congruence.
  - apply String.eqb_neq in Hk. specialize (Hcol Hk).
    rewrite (mutate_other k e _ v' old Hk Hold) in *.
    assert (Hnom : no_hash (Spec.mutate k v' e)) by (apply mutate_no_hash; exact Hnoe).
    rewrite (remove_app_hash _ _ Hnom) in *.
    rewrite (lookup_app_hash _ _ Hnom).
    rewrite (remove_app_hash e _ Hnoe) in Hcol.
    destruct (String.eqb (computeHash prev e) (computeHash prev (Spec.mutate k v' e))) eqn:Hh;
      [|reflexivity].
    apply String.eqb_eq in Hh. congruence.
Qed.

Lemma entry_no_hash (ts : string) (seq : Z) (input : HookInput)
    (result : ValidationResult) (policy : Policy) (cwd : string)
    (b : option BudgetSnapshot) :
  no_hash (entryWithoutHash ts seq input result policy cwd b).
Proof. reflexivity. Qed.

(** A process that starts on an intact file finds its last hash. *)
Lemma resume_last (f : File) (es : list (list (string * json))) :
  content f = render (chain "" es) ->
  es <> [] ->
  Forall no_hash es ->
  Forall parses_back (chain "" es) ->
  exists n, resume_from f = Some (n, last_hash "" es).
Proof.
  intros Hc Hne Hno Hp.
  destruct (exists_last Hne) as (es' & e & ->).
  unfold resume_from. rewrite Hc, read_lines_render.
  rewrite chain_app, map_app. simpl chain. simpl map.
  rewrite last_snoc.
  change (nonempty (line (e ++ [("hash", JStr (computeHash (last_hash "" es') e))])))
    with true. cbv iota.
  rewrite chain_app in Hp. apply Forall_app in Hp as (_ & Hp).
  simpl chain in Hp. inversion Hp as [|o l Ho _]; subst.
  unfold line. rewrite Ho.
  apply Forall_app in Hno as (_ & Hno). inversion Hno as [|o l Hnoe _]; subst.
  rewrite (lookup_app_hash e _ Hnoe). simpl Json.as_string.
  rewrite last_hash_app. simpl last_hash. eauto.
Qed.

(** Appending the next entry of the chain keeps the file in step. *)
Lemma append_in_sync (path : string) (s2 : State) (es : list (list (string * json)))
    (e : list (string * json)) (n : Z) :
  match files s2 !! path with
  | Some f => content f = render (chain "" es) /\ es <> []
  | None => es = []
  end ->
  Forall no_hash es ->
  Forall parses_back (chain "" es) ->
  no_hash e ->
  lastHash s2 = last_hash "" es ->
  parses_back (e ++ [("hash", JStr (computeHash (lastHash s2) e))]) ->
  in_sync path
    (appendFile path
       (Json.stringify (JObj (e ++ [("hash", JStr (computeHash (lastHash s2) e))]))
        +:+ JsString.nl)
       (set_audit (computeHash (lastHash s2) e) n s2))
    (es ++ [e]).
Proof.
  intros Hf Hno Hp Hnoe Hl Hpb.
  unfold in_sync, appendFile, set_audit, set_files.
  cbn [files lastHash content sequenceNumber clock].
  rewrite lookup_insert_eq. cbn [content].
  rewrite Hl in *. rewrite chain_app, render_app, last_hash_app.
  cbn [chain last_hash render].
  split; [split|].
  - rewrite append_empty_r.
    destruct (files s2 !! path) as [f|]; [destruct Hf as (-> & _); reflexivity|].
    subst es. reflexivity.
  - destruct es; simpl; congruence.
  - split; [apply Forall_app; split; [exact Hno|repeat constructor; exact Hnoe]|].
    split; [apply Forall_app; split; [exact Hp|repeat constructor; exact Hpb]|].
    left. reflexivity.
Qed.

Section Run.

Variables (policy : Policy) (cwd : string).
Hypothesis Hen : audit_enabled (audit policy) = true.
Hypothesis Hint : integrity (audit policy) = Sha256Chain.

Lemma in_sync_restart (s : State) (es : list (list (string * json))) :
  in_sync (getAuditPath policy cwd) s es ->
  in_sync (getAuditPath policy cwd) (restart s) es.
Proof.
  intros (Hf & Hno & Hp & _).
  split; [exact Hf|]. split; [exact Hno|]. split; [exact Hp|].
  right. split; reflexivity.
Qed.

Lemma in_sync_write (t : string) (input : HookInput) (result : ValidationResult)
    (b : option BudgetSnapshot) (s : State) (es : list (list (string * json))) :
  in_sync (getAuditPath policy cwd) s es ->
  parses_back (written_entry input result policy cwd b (set_clock t s)) ->
  exists es', in_sync (getAuditPath policy cwd) (step policy cwd (EvWrite t input result b) s) es'.
Proof.
  intros (Hf & Hno & Hp & Hs) Hpb.
  unfold step. rewrite (writeAuditEntry_enabled _ _ _ _ _ _ Hen). cbv zeta.
  lazymatch goal with
  | |- context [snd (Ret tt, ?x)] => change (snd (Ret tt, x)) with x
  end.
  set (path := getAuditPath policy cwd) in *.
  set (sc := set_clock t s) in *.
  unfold written_entry in Hpb |- *. cbv zeta in Hpb |- *.
  fold path in Hpb |- *.
  set (s2 := snd (prepareAudit policy path sc)) in *.
  unfold entryHash in Hpb |- *. rewrite Hint in Hpb |- *.
  change (is_sha256_chain Sha256Chain) with true in Hpb |- *.
  cbv iota in Hpb |- *.
  set (e := entryWithoutHash (clock s2) (sequenceNumber s2 + 1) input result policy cwd b) in *.
  assert (Hnoe : no_hash e) by apply entry_no_hash.
  rewrite (lookup_app_hash e _ Hnoe).
  change (Json.as_string (Some (JStr (computeHash (lastHash s2) e))) "")
    with (computeHash (lastHash s2) e).
  clearbody e.
  destruct (shouldRotate policy path sc) eqn:Hrot.
  - (* the old file is rotated away: the chain starts anew *)
    destruct (prepareAudit_rotated policy path sc Hrot) as (f & _ & Hs2).
    fold s2 in Hs2.
    assert (Hl : lastHash s2 = last_hash "" []) by (rewrite Hs2; reflexivity).
    assert (Hfile : files s2 !! path = None).
    { rewrite Hs2. cbn [files set_audit set_rotated set_files]. apply lookup_delete_eq. }
    exists ([] ++ [e]). apply append_in_sync; try assumption; try constructor.
    rewrite Hfile. reflexivity.
  - (* the file is kept *)
    destruct (prepareAudit_frame policy path sc) as (_ & _ & _ & _ & Hfile & _).
    fold s2 in Hfile. rewrite Hrot in Hfile.
    change (files sc) with (files s) in Hfile.
    assert (Hl : lastHash s2 = last_hash "" es).
    { unfold s2. rewrite (prepareAudit_kept policy path sc Hrot).
      change (sequenceNumber sc) with (sequenceNumber s).
      change (files sc) with (files s).
      destruct (sequenceNumber s =? 0) eqn:Hseq.
      - destruct (files s !! path) as [f|] eqn:Hfs.
        + destruct Hf as (Hc & Hne).
          destruct (resume_last f es Hc Hne Hno Hp) as (n & ->). reflexivity.
        + subst es. destruct Hs as [Hs|(_ & Hs)]; exact Hs.
      - destruct Hs as [Hs|(Hz & _)]; [exact Hs|].
        apply Z.eqb_neq in Hseq. contradiction. }
    exists (es ++ [e]). apply append_in_sync; try assumption.
    rewrite Hfile. exact Hf.
Qed.

(** The invariant of a run. *)
Lemma run_in_sync (evs : list event) (s : State) (es : list (list (string * json))) :
  in_sync (getAuditPath policy cwd) s es ->
  run_parses_back policy cwd evs s ->
  exists es', in_sync (getAuditPath policy cwd) (run policy cwd evs s) es'.
Proof.
  revert s es. induction evs as [|ev evs IH]; intros s es Hs Hpb.
  - exists es. exact Hs.
  - destruct Hpb as (Hev & Hrest). simpl run.
    destruct ev as [t input result b|].
    + destruct (in_sync_write t input result b s es Hs Hev) as (es1 & Hs1).
      exact (IH _ es1 Hs1 Hrest).
    + exact (IH _ es (in_sync_restart s es Hs) Hrest).
Qed.

End Run.

(** Reading back the lines of objects that parse back gives the objects. *)
Lemma entries_of_lines (objs : list (list (string * json))) :
  Forall parses_back objs ->
  omap (fun l => match JSON_parse l with
                 | Some (JObj o) => Some o
                 | _ => None
                 end) (map line objs) = objs.
Proof.
  induction 1 as [|o objs Ho _ IH]; [reflexivity|].
  cbn [map omap list_omap]. unfold line at 1. rewrite Ho. f_equal. exact IH.
Qed.

Lemma prev_hash_chain (es : list (list (string * json))) (i : nat) :
  Forall no_hash es ->
  (i <= length es)%nat ->
  prev_hash (chain "" es) i = last_hash "" (take i es).
Proof.
  intros Hno Hi. destruct i as [|j]; [reflexivity|].
  assert (Hj : (j < length (chain "" es))%nat) by (rewrite chain_length; lia).
  destruct (lookup_lt_is_Some_2 _ _ Hj) as (o & Ho).
  unfold prev_hash. rewrite Ho. cbn [from_option].
  destruct (chain_lookup es j o Ho) as (e & Hes & Hlen & ->).
  assert (He : es !! j = Some e).
  { rewrite Hes. apply list_lookup_middle. symmetry. exact Hlen. }
  assert (Hnoe : no_hash e).
  { exact (Forall_lookup_1 _ _ _ _ Hno He). }
  unfold hash_of. rewrite (lookup_app_hash e _ Hnoe).
  rewrite (take_S_r es j e He), last_hash_app. reflexivity.
Qed.

(** The chain of entries obeys the hash formula. *)
Lemma chained_chain (es : list (list (string * json))) :
  Forall no_hash es -> chained (chain "" es).
Proof.
  intros Hno i o Ho.
  assert (Hi : (i < length es)%nat).
  { rewrite <- (chain_length "" es). eapply lookup_lt_Some. exact Ho. }
  rewrite (prev_hash_chain es i Hno) by lia.
  destruct (chain_lookup es i o Ho) as (e & Hes & Hlen & ->).
  assert (Hnoe : no_hash e).
  { rewrite Hes in Hno. apply Forall_app in Hno as (_ & Hno).
    inversion Hno; assumption. }
  rewrite (lookup_app_hash e _ Hnoe), (remove_app_hash e _ Hnoe). reflexivity.
Qed.

Section Plain.

Variables (policy : Policy) (cwd : string).
Hypothesis Hen : audit_enabled (audit policy) = true.
Hypothesis Hnone : integrity (audit policy) = IntegrityNone.

Lemma unchained_write (t : string) (input : HookInput) (result : ValidationResult)
    (b : option BudgetSnapshot) (s : State) (objs : list (list (string * json))) :
  unchained (getAuditPath policy cwd) s objs ->
  parses_back (written_entry input result policy cwd b (set_clock t s)) ->
  exists objs',
    unchained (getAuditPath policy cwd) (step policy cwd (EvWrite t input result b) s) objs'.
Proof.
  intros (Hf & Hp & Hh) Hpb.
  unfold step. rewrite (writeAuditEntry_enabled _ _ _ _ _ _ Hen). cbv zeta.
  lazymatch goal with
  | |- context [snd (Ret tt, ?x)] => change (snd (Ret tt, x)) with x
  end.
  set (path := getAuditPath policy cwd) in *.
  set (sc := set_clock t s) in *.
  set (o := written_entry input result policy cwd b sc) in *.
  assert (Hho : unhashed o).
  { unfold unhashed, o, written_entry. cbv zeta. unfold entryHash. rewrite Hnone.
    apply lookup_app_hash. apply entry_no_hash. }
  destruct (prepareAudit_frame policy path sc) as (_ & _ & _ & _ & Hfile & _).
  change (files sc) with (files s) in Hfile.
  clearbody o.
  exists ((if shouldRotate policy path sc then [] else objs) ++ [o]).
  unfold unchained, appendFile, set_audit, set_files.
  cbn [files sequenceNumber content clock].
  rewrite lookup_insert_eq. cbn [content]. rewrite Hfile.
  split; [split|].
  - rewrite render_app. cbn [render]. rewrite append_empty_r.
    destruct (shouldRotate policy path sc); [reflexivity|].
    destruct (files s !! path) as [f|]; [destruct Hf as (-> & _); reflexivity|].
    subst objs. reflexivity.
  - destruct (if shouldRotate policy path sc then [] else objs); discriminate.
  - destruct (shouldRotate policy path sc).
    + split; repeat constructor; assumption.
    + split; apply Forall_app; split; try assumption; repeat constructor; assumption.
Qed.

Lemma run_unchained (evs : list event) (s : State) (objs : list (list (string * json))) :
  unchained (getAuditPath policy cwd) s objs ->
  run_parses_back policy cwd evs s ->
  exists objs', unchained (getAuditPath policy cwd) (run policy cwd evs s) objs'.
Proof.
  revert s objs. induction evs as [|ev evs IH]; intros s objs Hs Hpb.
  - exists objs. exact Hs.
  - destruct Hpb as (Hev & Hrest). simpl run.
    destruct ev as [t input result b|].
    + destruct (unchained_write t input result b s objs Hs Hev) as (objs1 & Hs1).
      exact (IH _ objs1 Hs1 Hrest).
    + exact (IH (restart s) objs Hs Hrest).
Qed.

End Plain.

(** The word "none" is no hash of the chain. *)
Lemma none_is_no_hash (prev : string) (e : list (string * json)) :
  String.eqb "none" (computeHash prev e) = false.
Proof. reflexivity. Qed.

(** A file whose first entry carries no hash is rejected at that entry. *)
Lemma verify_unchained (objs : list (list (string * json))) :
  objs <> [] ->
  Forall parses_back objs ->
  Forall unhashed objs ->
  verifyContent (render objs)
  = Ret {| valid := false; entries := Z.of_nat (length objs); brokenAt := Some 1 |}.
Proof.
  intros Hne Hp Hh. unfold verifyContent. rewrite read_lines_render, length_map.
  destruct objs as [|o objs]; [contradiction|].
  inversion Hp as [|x l Hpo _]; subst. inversion Hh as [|x l Hho _]; subst.
  cbn [map verify_loop]. unfold line at 1. rewrite Hpo, Hho.
  rewrite none_is_no_hash. reflexivity.
Qed.

(** C1.  Take processes that write their audit entries under one policy
    and working directory with the audit enabled, the first of them
    starting without a file at the audit path, and let JSON.parse give
    back every entry that was written.  Then the file consists of its
    entries, one a line.  With [integrity = "sha256-chain"] the hash
    field of every entry is "sha256:" followed by the hex SHA-256 of the
    hash of the entry before it (the empty string for the first) and the
    serialization of the entry without its hash field;
    [verifyAuditChain] returns [valid = true] with the number of entries;
    and giving another value to any field of any entry makes it return
    [valid = false] with [brokenAt] the altered entry, counted from one,
    unless the altered entry has the SHA-256 of the original one.  With
    [integrity = "none"] the hash field of every entry is "none", and
    [verifyAuditChain] returns [valid = false] with [brokenAt = 1] as
    soon as the file has an entry. *)
Theorem audit_chain (policy : Policy) (cwd : string) (evs : list event) (s : State) :
  audit_enabled (audit policy) = true ->
  files s !! getAuditPath policy cwd = None ->
  lastHash s = "" ->
  run_parses_back policy cwd evs s ->
  let path := getAuditPath policy cwd in
  let s' := run policy cwd evs s in
  let objs := audit_entries path s' in
  audit_text path s' = render objs
  /\ (integrity (audit policy) = Sha256Chain ->
      chained objs
      /\ verifyAuditChain path s'
         = Ret {| valid := true; entries := Z.of_nat (length objs); brokenAt := None |}
      /\ forall (i : nat) (o : list (string * json)) (k : string) (old v' : json),
           objs !! i = Some o ->
           Json.lookup k o = Some old ->
           v' <> old ->
           parses_back (Spec.mutate k v' o) ->
           (k <> "hash" ->
            computeHash (prev_hash objs i) (Json.remove "hash" (Spec.mutate k v' o))
            <> computeHash (prev_hash objs i) (Json.remove "hash" o)) ->
           verifyAuditChain path
             (overwrite path (render (<[i := Spec.mutate k v' o]> objs)) s')
           = Ret {| valid := false; entries := Z.of_nat (length objs);
                    brokenAt := Some (Z.of_nat i + 1) |})
  /\ (integrity (audit policy) = IntegrityNone ->
      (forall (i : nat) (o : list (string * json)),
         objs !! i = Some o -> Json.lookup "hash" o = Some (JStr "none"))
      /\ (objs <> [] ->
          verifyAuditChain path s'
          = Ret {| valid := false; entries := Z.of_nat (length objs);
                   brokenAt := Some 1 |})).
Proof.
  intros Hen Hfile Hlast Hpb path s' objs.
  destruct (integrity (audit policy)) eqn:Hint.
  - assert (H0 : in_sync path s []).
    { split; [unfold path; rewrite Hfile; reflexivity|].
      split; [constructor|]. split; [constructor|]. left. exact Hlast. }
    destruct (run_in_sync policy cwd Hen Hint evs s [] H0 Hpb) as (es & Hf & Hno & Hp & _).
    fold path s' in Hf.
    assert (Hobjs : objs = chain "" es).
    { unfold objs, audit_entries, audit_lines.
      destruct (files s' !! path) as [f|].
      - destruct Hf as (-> & _). rewrite read_lines_render.
        apply entries_of_lines. exact Hp.
      - subst es. reflexivity. }
    assert (Htext : audit_text path s' = render (chain "" es)).
    { unfold audit_text. destruct (files s' !! path) as [f|].
      - destruct Hf as (-> & _). reflexivity.
      - subst es. reflexivity. }
    clearbody objs. subst objs. rewrite chain_length.
    split; [exact Htext|]. split; [|discriminate]. intros _.
    split; [apply chained_chain; exact Hno|]. split.
    + unfold verifyAuditChain. destruct (files s' !! path) as [f|].
      * destruct Hf as (-> & _). apply verify_chain; assumption.
      * subst es. reflexivity.
    + intros i o k old v' Ho Hold Hne Hpt Hcol.
      unfold verifyAuditChain, overwrite, set_files. cbn [files].
      rewrite lookup_insert_eq. cbn [content].
      assert (Hi : (i < length es)%nat).
      { rewrite <- (chain_length "" es). eapply lookup_lt_Some. exact Ho. }
      rewrite (prev_hash_chain es i Hno) in Hcol by lia.
      apply (verify_tampered es i o k old v'); assumption.
  - assert (H0 : unchained path s []).
    { split; [unfold path; rewrite Hfile; reflexivity|]. split; constructor. }
    destruct (run_unchained policy cwd Hen Hint evs s [] H0 Hpb) as (objs' & Hf & Hp & Hh).
    fold path s' in Hf.
    assert (Hobjs : objs = objs').
    { unfold objs, audit_entries, audit_lines.
      destruct (files s' !! path) as [f|].
      - destruct Hf as (-> & _). rewrite read_lines_render.
        apply entries_of_lines. exact Hp.
      - subst objs'. reflexivity. }
    assert (Htext : audit_text path s' = render objs').
    { unfold audit_text. destruct (files s' !! path) as [f|].
      - destruct Hf as (-> & _). reflexivity.
      - subst objs'. reflexivity. }
    clearbody objs. subst objs.
    split; [exact Htext|]. split; [discriminate|]. intros _. split.
    + intros i o Ho. eapply Forall_lookup_1 in Hh; [exact Hh|exact Ho].
    + intros Hne. unfold verifyAuditChain. destruct (files s' !! path) as [f|].
      * destruct Hf as (-> & _). apply verify_unchained; assumption.
      * contradiction.
Qed.

End ChainFacts.

(** The SHA-256 of the runtime instance on the empty message, on a short
    one and on one that needs a second block. *)
Example sha256_known_digests :
  Sha256.hex EmptyString
    = "e3b0c44298fc1c149afbf4c8996fb92427ae41e4649b934ca495991b7852b855"
  /\ Sha256.hex "abc"
    = "ba7816bf8f01cfea414140de5dae2223b00361a396177a9cb410ff61f20015ad"
  /\ Sha256.hex (JsString.of_chars (repeat "a"%char 70))
    = "6bd5e5034855a11241f0dee8fc72850ffd9955b28347a86428b5fa19119f6ad0".
Proof. repeat apply conj; vm_compute; reflexivity. Qed.

(** Without the hash chain the hash field is the word "none", and
    [verifyAuditChain] rejects the file at its first entry. *)
Lemma unchained_file_rejected :
  audit_enabled (audit Examples.policy_plain) = true
  /\ (exists o, audit_entries (RT := node) Examples.audit_file Examples.plain_s1 = [o]
                /\ Json.lookup "hash" o = Some (JStr "none"))
  /\ verifyAuditChain (RT := node) Examples.audit_file Examples.plain_s1
     = Ret {| valid := false; entries := 1; brokenAt := Some 1 |}.
Proof.
  split; [reflexivity|]. split.
  - eexists. split; vm_compute; reflexivity.
  - vm_compute. reflexivity.
Qed.

(** The file of [Examples.trace]: under the default policy it verifies,
    and with the tool of its second entry changed it is broken at that
    entry; without the hash chain its three entries carry the hash
    "none" and it is broken at the first. *)
Lemma audit_chain_witness :
  (let path := getAuditPath (RT := node) default_policy Examples.cwd in
   let s' := run (RT := node) default_policy Examples.cwd Examples.trace Examples.s0 in
   let objs := audit_entries path s' in
   run_parses_back (RT := node) default_policy Examples.cwd Examples.trace Examples.s0
   /\ chained objs
   /\ verifyAuditChain path s'
      = Ret {| valid := true; entries := Z.of_nat (length objs); brokenAt := None |}
   /\ exists o,
        objs !! 1%nat = Some o
        /\ verifyAuditChain path
             (overwrite path (render (<[1%nat := Spec.mutate "tool" (JStr "Read") o]> objs)) s')
           = Ret {| valid := false; entries := Z.of_nat (length objs);
                    brokenAt := Some (Z.of_nat 1 + 1) |})
  /\ (let path := getAuditPath (RT := node) Examples.policy_plain Examples.cwd in
      let s' := run (RT := node) Examples.policy_plain Examples.cwd Examples.trace
                  Examples.s0 in
      let objs := audit_entries path s' in
      run_parses_back (RT := node) Examples.policy_plain Examples.cwd Examples.trace
        Examples.s0
      /\ length objs = 3%nat
      /\ (forall (i : nat) (o : list (string * json)),
            objs !! i = Some o -> Json.lookup "hash" o = Some (JStr "none"))
      /\ verifyAuditChain path s'
         = Ret {| valid := false; entries := Z.of_nat (length objs); brokenAt := Some 1 |}).
Proof.
  split.
  - intros path s' objs.
    assert (Hfile : files Examples.s0 !! path = None) by (vm_compute; reflexivity).
    assert (Hpb : run_parses_back (RT := node) default_policy Examples.cwd
                    Examples.trace Examples.s0).
    { vm_compute. repeat apply conj; reflexivity || exact I. }
    pose proof (audit_chain (RT := node) default_policy Examples.cwd Examples.trace
                  Examples.s0 eq_refl Hfile eq_refl Hpb) as H.
    cbv zeta in H. fold path s' objs in H.
    destruct H as (_ & H & _). destruct (H eq_refl) as (Hc & Hv & Ht).
    split; [exact Hpb|]. split; [exact Hc|]. split; [exact Hv|].
    eexists. split; [vm_compute; reflexivity|].
    eapply (Ht 1%nat _ "tool" _ (JStr "Read")).
    + vm_compute. reflexivity.
    + vm_compute. reflexivity.
    + discriminate.
    + vm_compute. reflexivity.
    + intros _. vm_compute. discriminate.
  - intros path s' objs.
    assert (Hfile : files Examples.s0 !! path = None) by (vm_compute; reflexivity).
    assert (Hpb : run_parses_back (RT := node) Examples.policy_plain Examples.cwd
                    Examples.trace Examples.s0).
    { vm_compute. repeat apply conj; reflexivity || exact I. }
    assert (Hlen : length objs = 3%nat) by (vm_compute; reflexivity).
    pose proof (audit_chain (RT := node) Examples.policy_plain Examples.cwd Examples.trace
                  Examples.s0 eq_refl Hfile eq_refl Hpb) as H.
    cbv zeta in H. fold path s' objs in H.
    destruct H as (_ & _ & H). destruct (H eq_refl) as (Hh & Hv).
    split; [exact Hpb|]. split; [exact Hlen|]. split; [exact Hh|].
    apply Hv. clearbody objs. intros Hnil. subst objs. discriminate Hlen.
Defined.

(* ================================================================== *)
(** * The views of a Bash command *)
(* ================================================================== *)

Section Views.

Import JsString.

Lemma unquoted_sublist (cs : list ascii) :
  (sublist (Spec.unquoted cs) cs /\ Forall not_quote (Spec.unquoted cs))
  /\ (sublist (Spec.in_single cs) cs /\ Forall not_quote (Spec.in_single cs))
  /\ (sublist (Spec.in_double cs) cs /\ Forall not_quote (Spec.in_double cs))
  /\ (sublist (Spec.in_double (tail cs)) cs /\ Forall not_quote (Spec.in_double (tail cs))).
Proof.
  induction cs as [|c cs ((Hu & Hu') & (Hs & Hs') & (Hd & Hd') & (Hk & Hk'))].
  - simpl. repeat split; constructor.
  - split; [|split; [|split]].
    + cbn [Spec.unquoted].
      destruct (Ascii.eqb c c_squote) eqn:E1; [split; [constructor; exact Hs|exact Hs']|].
      destruct (Ascii.eqb c c_dquote) eqn:E2; [split; [constructor; exact Hd|exact Hd']|].
      split; [constructor; exact Hu|].
      constructor; [|exact Hu'].
      split; intros ->; [rewrite Ascii.eqb_refl in E1|rewrite Ascii.eqb_refl in E2];
        discriminate.
    + cbn [Spec.in_single].
      destruct (Ascii.eqb c c_squote); split;
        solve [constructor; assumption|assumption].
    + cbn [Spec.in_double].
      destruct (Ascii.eqb c c_bslash).
      * destruct cs as [|d cs']; [split; constructor; constructor|].
        split; [constructor; exact Hk|exact Hk'].
      * destruct (Ascii.eqb c c_dquote); split;
          solve [constructor; assumption|assumption].
    + cbn [tail]. split; [constructor; exact Hd|exact Hd'].
Qed.

Lemma unquoted_plain (cs : list ascii) :
  Forall not_quote cs -> Spec.unquoted cs = cs.
Proof.
  induction 1 as [|c cs (H1 & H2) _ IH]; [reflexivity|].
  cbn [Spec.unquoted].
  apply Ascii.eqb_neq in H1, H2. rewrite H1, H2, IH. reflexivity.
Qed.

(** X1.  The text that [stripQuotedStrings] returns is a subsequence of the
    text it is given and holds no quote character; stripping it again
    changes nothing. *)
Theorem strip_idempotent (text : string) :
  sublist (chars (stripQuotedStrings text)) (chars text)
  /\ Forall not_quote (chars (stripQuotedStrings text))
  /\ stripQuotedStrings (stripQuotedStrings text) = stripQuotedStrings text.
Proof.
  rewrite !stripQuotedStrings_stripped. unfold Spec.stripped.
  rewrite !chars_of_chars.
  destruct (unquoted_sublist (chars text)) as ((Hsub & Hq) & _).
  split; [exact Hsub|]. split; [exact Hq|].
  rewrite (unquoted_plain _ Hq). reflexivity.
Qed.

(** X2.  A text without quote characters is returned as it is. *)
Theorem strip_without_quotes (text : string) :
  Forall not_quote (chars text) -> stripQuotedStrings text = text.
Proof.
  intros H. rewrite stripQuotedStrings_stripped. unfold Spec.stripped.
  rewrite (unquoted_plain _ H). apply of_chars_chars.
Qed.

End Views.

Section Segments.

Import JsString.

Lemma trim_start_black (cs : list ascii) : starts_black (trim_start cs).
Proof.
  induction cs as [|c cs IH]; [exact I|].
  cbn [trim_start]. destruct (is_ws c) eqn:E; [exact IH|exact E].
Qed.

Lemma trim_start_fixed (cs : list ascii) : starts_black cs -> trim_start cs = cs.
Proof. destruct cs as [|c cs]; [reflexivity|]. simpl. intros ->. reflexivity. Qed.

Lemma trim_start_suffix (cs : list ascii) : exists pre, cs = pre ++ trim_start cs.
Proof.
  induction cs as [|c cs (pre & IH)]; [exists []; reflexivity|].
  cbn [trim_start]. destruct (is_ws c).
  - exists (c :: pre). simpl. f_equal. exact IH.
  - exists []. reflexivity.
Qed.

(** Trimming what is trimmed changes nothing. *)
Lemma trim_chars_idem (cs : list ascii) : trim_chars (trim_chars cs) = trim_chars cs.
Proof.
  unfold trim_chars.
  set (a := trim_start cs).
  assert (Ha : starts_black a) by apply trim_start_black.
  set (b := trim_start (rev a)).
  assert (Hb : starts_black b) by apply trim_start_black.
  destruct (trim_start_suffix (rev a)) as (x & Hx). fold b in Hx.
  assert (Hr : starts_black (rev b)).
  { destruct (rev b) as [|c r] eqn:Er; [exact I|].
    assert (Ha' : a = rev b ++ rev x).
    { rewrite <- (rev_involutive a), Hx, rev_app_distr. reflexivity. }
    rewrite Er in Ha'. rewrite Ha' in Ha. exact Ha. }
  rewrite (trim_start_fixed _ Hr), rev_involutive, (trim_start_fixed _ Hb).
  reflexivity.
Qed.

Lemma trimmed_push (cs : list ascii) : trimmed (of_chars (trim_chars cs)).
Proof.
  unfold trimmed, trim. rewrite chars_of_chars, trim_chars_idem. reflexivity.
Qed.

Lemma split_step_segments (ch : ascii) (next : option ascii) (st : SplitState) :
  Forall trimmed (sp_segments st) ->
  Forall trimmed (sp_segments (fst (split_step ch next st))).
Proof.
  intros H.
  assert (Hpush : Forall trimmed (sp_segments (sp_push st))).
  { unfold sp_push. cbn [sp_segments]. apply Forall_app. split; [exact H|].
    constructor; [apply trimmed_push|constructor]. }
  unfold split_step.
  repeat match goal with
         | |- context [if ?b then _ else _] => destruct b
         end; cbn [fst sp_add sp_segments]; assumption.
Qed.

Lemma split_loop_segments (cs : list ascii) (skip : bool) (st : SplitState) :
  Forall trimmed (sp_segments st) ->
  Forall trimmed (sp_segments (split_loop cs skip st)).
Proof.
  revert skip st. induction cs as [|ch cs IH]; intros skip st H; [exact H|].
  cbn [split_loop]. destruct skip; [apply IH; exact H|].
  pose proof (split_step_segments ch (head cs) st H) as H'.
  destruct (split_step ch (head cs) st) as [st' skip']. apply IH. exact H'.
Qed.

(** X3.  Every segment that [splitShellCommand] returns is non-empty and has
    no white space at either end. *)
Theorem split_segments_trimmed (command seg : string) :
  In seg (splitShellCommand command) ->
  seg <> "" /\ trim seg = seg.
Proof.
  unfold splitShellCommand. cbv zeta.
  set (st := split_loop _ _ _).
  assert (Hst : Forall trimmed (sp_segments st)).
  { apply split_loop_segments. constructor. }
  intros Hin. apply filter_In in Hin as (Hin & Hne).
  split; [intros ->; discriminate|].
  assert (Hall : Forall trimmed
            (if nonempty (of_chars (trim_chars (sp_current st)))
             then sp_segments st ++ [of_chars (trim_chars (sp_current st))]
             else sp_segments st)).
  { destruct (nonempty _); [|exact Hst].
    apply Forall_app. split; [exact Hst|].
    constructor; [apply trimmed_push|constructor]. }
  rewrite List.Forall_forall in Hall. apply Hall. exact Hin.
Qed.

Lemma split_step_plain (ch : ascii) (next : option ascii) (st : SplitState) :
  not_operator ch ->
  snd (split_step ch next st) = false
  /\ sp_segments (fst (split_step ch next st)) = sp_segments st
  /\ sp_current (fst (split_step ch next st)) = sp_current st ++ [ch].
Proof.
  intros (H1 & H2 & H3). apply Ascii.eqb_neq in H1, H2, H3.
  unfold split_step. rewrite H1, H2, H3. cbn [andb].
  repeat match goal with
         | |- context [if ?b then _ else _] => destruct b
         end; cbn [fst snd sp_add sp_segments sp_current]; auto.
Qed.

Lemma split_loop_plain (cs : list ascii) (st : SplitState) :
  Forall not_operator cs ->
  sp_segments (split_loop cs false st) = sp_segments st
  /\ sp_current (split_loop cs false st) = sp_current st ++ cs.
Proof.
  intros H. revert st. induction H as [|ch cs Hch _ IH]; intros st.
  - cbn [split_loop]. rewrite app_nil_r. auto.
  - cbn [split_loop].
    destruct (split_step_plain ch (head cs) st Hch) as (Hk & Hs & Hc).
    destruct (split_step ch (head cs) st) as [st' skip'].
    cbn [fst snd] in Hk, Hs, Hc. subst skip'.
    destruct (IH st') as (IH1 & IH2).
    rewrite IH1, IH2, Hs, Hc, <- app_assoc. auto.
Qed.

(** X4.  A command without [;], [|] and [&] is one segment, the trimmed
    command, whatever its quotes and parentheses; a blank command has no
    segment. *)
Theorem split_without_operators (command : string) :
  Forall not_operator (chars command) ->
  splitShellCommand command = if nonempty (trim command) then [trim command] else [].
Proof.
  intros H. unfold splitShellCommand. cbv zeta.
  destruct (split_loop_plain (chars command)
              {| sp_segments := []; sp_current := []; sp_depth := 0%nat;
                 sp_inSingle := false; sp_inDouble := false |} H) as (Hs & Hc).
  cbn [sp_segments sp_current] in Hs, Hc. rewrite Hs, Hc. cbn [app].
  fold (trim command).
  destruct (nonempty (trim command)) eqn:E; [|reflexivity].
  cbn [List.filter]. rewrite E. reflexivity.
Qed.

End Segments.

Section Substitutions.

Import JsString.

Lemma extract_loop_plain (command : string) (cs rest : list ascii) (i : nat)
    (subs : list string) :
  Forall (fun c => c <> "$"%char) cs ->
  rest <> [] ->
  extract_loop command i (cs ++ rest) false (outside subs)
  = extract_loop command (i + length cs) rest false (outside subs).
Proof.
  intros H Hrest. revert i. induction H as [|c cs Hc _ IH]; intros i.
  - cbn [app length]. rewrite Nat.add_0_r. reflexivity.
  - cbn [app extract_loop length].
    destruct (cs ++ rest) as [|next tl] eqn:E.
    { destruct cs; [contradiction|discriminate]. }
    apply Ascii.eqb_neq in Hc. rewrite Hc. cbn [andb ex_depth outside].
    change (0 <? 0)%nat with false. rewrite andb_false_r.
    rewrite IH. f_equal. lia.
Qed.

Lemma extract_loop_end (command : string) (cs : list ascii) (i : nat)
    (subs : list string) :
  Forall (fun c => c <> "$"%char) cs ->
  extract_loop command i cs false (outside subs) = outside subs.
Proof.
  intros H. revert i. induction H as [|c cs Hc _ IH]; intros i; [reflexivity|].
  cbn [extract_loop]. destruct cs as [|next tl]; [reflexivity|].
  apply Ascii.eqb_neq in Hc. rewrite Hc. cbn [andb ex_depth outside].
  change (0 <? 0)%nat with false. rewrite andb_false_r. apply IH.
Qed.

Lemma backtick_loop_none (cs : list ascii) :
  Forall (fun c => c <> c_btick) cs -> backtick_loop cs None = [].
Proof.
  induction 1 as [|c cs Hc _ IH]; [reflexivity|].
  cbn [backtick_loop]. apply Ascii.eqb_neq in Hc. rewrite Hc. exact IH.
Qed.

(** X5.  A command with no dollar sign and no backtick has no substitution. *)
Theorem extract_without_substitution (command : string) :
  Forall (fun c => c <> "$"%char /\ c <> c_btick) (chars command) ->
  extractSubcommands command = [].
Proof.
  intros H. unfold extractSubcommands. cbv zeta.
  fold (outside []).
  rewrite extract_loop_end by (eapply Forall_impl; [exact H|]; intros c Hc; apply Hc).
  rewrite backtick_loop_none by (eapply Forall_impl; [exact H|]; intros c Hc; apply Hc).
  reflexivity.
Qed.

Lemma extract_loop_body (command : string) (cs rest : list ascii) (i : nat)
    (subs : list string) (start : Z) :
  Forall (fun c => c <> "$"%char /\ c <> ")"%char) cs ->
  rest <> [] ->
  extract_loop command i (cs ++ rest) false (inside subs start)
  = extract_loop command (i + length cs) rest false (inside subs start).
Proof.
  intros H Hrest. revert i. induction H as [|c cs (H1 & H2) _ IH]; intros i.
  - cbn [app length]. rewrite Nat.add_0_r. reflexivity.
  - cbn [app extract_loop length].
    destruct (cs ++ rest) as [|next tl] eqn:E.
    { destruct cs; [contradiction|discriminate]. }
    apply Ascii.eqb_neq in H1, H2. rewrite H1, H2. cbn [andb].
    rewrite IH. f_equal. lia.
Qed.

Lemma extract_loop_appends (command : string) (cs : list ascii) (i : nat)
    (skip : bool) (st : ExtractState) :
  exists more, ex_subs (extract_loop command i cs skip st) = ex_subs st ++ more.
Proof.
  revert i skip st. induction cs as [|c cs IH]; intros i skip st.
  - exists []. cbn [extract_loop]. rewrite app_nil_r. reflexivity.
  - cbn [extract_loop]. destruct cs as [|next tl].
    + exists []. rewrite app_nil_r. reflexivity.
    + destruct skip; [apply IH|].
      destruct (Ascii.eqb c "$" && Ascii.eqb next "(").
      { destruct (IH (S i) true
                    {| ex_subs := ex_subs st; ex_depth := S (ex_depth st);
                       ex_start := if (ex_depth st =? 0)%nat then Z.of_nat i + 2
                                   else ex_start st |}) as (more & Hm).
        exists more. exact Hm. }
      destruct (Ascii.eqb c ")" && (0 <? ex_depth st)%nat); [|apply IH].
      destruct ((Nat.pred (ex_depth st) =? 0)%nat && (0 <=? ex_start st)).
      * match goal with
        | |- context [extract_loop command ?j ?l ?k ?s] =>
            destruct (IH j k s) as (more & Hm)
        end.
        rewrite Hm. cbn [ex_subs]. rewrite <- app_assoc. eauto.
      * destruct (IH (S i) false
                    {| ex_subs := ex_subs st; ex_depth := Nat.pred (ex_depth st);
                       ex_start := ex_start st |}) as (more & Hm).
        exists more. exact Hm.
Qed.

Lemma substring_skip (a : list ascii) (n : nat) (rest : list ascii) :
  String.substring (length a) n (of_chars (a ++ rest)) = String.substring 0 n (of_chars rest).
Proof. induction a as [|c a IH]; [reflexivity|]. exact IH. Qed.

Lemma substring_take (b rest : list ascii) :
  String.substring 0 (length b) (of_chars (b ++ rest)) = of_chars b.
Proof.
  induction b as [|c b IH].
  - simpl. destruct (of_chars rest); reflexivity.
  - cbn [app length of_chars string_of_list_ascii String.substring].
    f_equal. exact IH.
Qed.

Lemma extract_loop_open (command : string) (rest : list ascii) (i : nat)
    (subs : list string) :
  rest <> [] ->
  extract_loop command i ("$"%char :: "("%char :: rest) false (outside subs)
  = extract_loop command (S (S i)) rest false (inside subs (Z.of_nat i + 2)).
Proof.
  intros Hrest. destruct rest as [|c rest]; [contradiction|]. reflexivity.
Qed.

Lemma extract_loop_close (command : string) (rest : list ascii) (i : nat)
    (subs : list string) (start : Z) :
  rest <> [] ->
  0 <= start ->
  extract_loop command i (")"%char :: rest) false (inside subs start)
  = extract_loop command (S i) rest false
      (outside (subs ++ [String.substring (Z.to_nat start) (i - Z.to_nat start) command])).
Proof.
  intros Hrest Hstart. destruct rest as [|c rest]; [contradiction|].
  cbn [extract_loop Ascii.eqb Bool.eqb andb inside ex_depth ex_subs ex_start].
  change (0 <? 1)%nat with true. cbn [andb Nat.pred].
  change (0 =? 0)%nat with true. cbn [andb].
  apply Z.leb_le in Hstart. rewrite Hstart. reflexivity.
Qed.

(** X6.  A substitution [$(body)] that is followed by at least one character
    and preceded by no dollar sign is found, when [body] holds neither a
    dollar sign nor a closing parenthesis: [body] is the first text that
    [extractSubcommands] returns. *)
Theorem extract_finds_substitution (pre body post : list ascii) :
  Forall (fun c => c <> "$"%char) pre ->
  Forall (fun c => c <> "$"%char /\ c <> ")"%char) body ->
  post <> [] ->
  exists more,
    extractSubcommands
      (of_chars (pre ++ "$"%char :: "("%char :: body ++ ")"%char :: post))
    = of_chars body :: more.
Proof.
  intros Hpre Hbody Hpost.
  set (command := of_chars (pre ++ "$"%char :: "("%char :: body ++ ")"%char :: post)).
  unfold extractSubcommands. cbv zeta.
  unfold command at 2. rewrite chars_of_chars. fold (outside []).
  assert (Hcmd : command
                 = of_chars ((pre ++ ["$"%char; "("%char]) ++ body ++ ")"%char :: post)).
  { unfold command. rewrite <- app_assoc. reflexivity. }
  clearbody command.
  rewrite (extract_loop_plain command pre _ 0 [] Hpre) by discriminate.
  rewrite extract_loop_open by (destruct body; discriminate).
  rewrite (extract_loop_body command body _ _ [] _ Hbody) by discriminate.
  rewrite extract_loop_close by (try exact Hpost; lia).
  match goal with
  | |- context [extract_loop command ?j ?l ?k ?s] =>
      destruct (extract_loop_appends command l j k s) as (more & Hm)
  end.
  rewrite Hm. cbn [ex_subs outside app].
  replace (Z.to_nat (Z.of_nat (0 + length pre) + 2)) with (length (pre ++ ["$"%char; "("%char]))
    by (rewrite length_app; simpl; lia).
  replace (S (S (0 + length pre)) + length body - length (pre ++ ["$"%char; "("%char]))%nat
    with (length body) by (rewrite length_app; simpl; lia).
  rewrite Hcmd, substring_skip, substring_take. eauto.
Qed.

End Substitutions.

(* ================================================================== *)
(** * Effects of a request *)
(* ================================================================== *)

Section Effects.
Context {RT : Runtime}.

Notation "x <- m ;; k" := (bind m (fun x => k))
  (at level 100, m at next level, right associativity).

Lemma files_kept_refl (policy : Policy) (cwd : string) (s : State) :
  files_kept policy cwd s s.
Proof. unfold files_kept. destruct (audit_enabled _); auto. Qed.

Lemma files_kept_trans (policy : Policy) (cwd : string) (s1 s2 s3 : State) :
  files_kept policy cwd s1 s2 -> files_kept policy cwd s2 s3 ->
  files_kept policy cwd s1 s3.
Proof.
  unfold files_kept. destruct (audit_enabled _).
  - intros H1 H2 q Hq. rewrite (H2 q Hq). apply H1. exact Hq.
  - congruence.
Qed.

Lemma files_kept_same (policy : Policy) (cwd : string) (s s' : State) :
  files s' = files s -> files_kept policy cwd s s'.
Proof. intros H. unfold files_kept. rewrite H. destruct (audit_enabled _); auto. Qed.

(** [getPatterns] returns the cached patterns or compiles and caches
    them; nothing else changes. *)
Lemma getPatterns_effect (policy : Policy) (s : State) :
  match compiledPatterns s with
  | Some m => getPatterns policy s = (Ret m, s)
  | None =>
      match compilePatterns policy with
      | Some m => getPatterns policy s = (Ret m, set_compiledPatterns (Some m) s)
      | None => exists e, getPatterns policy s = (Throw e, s)
      end
  end.
Proof.
  unfold getPatterns, bind, get, put, ret, throw.
  destruct (compiledPatterns s); [reflexivity|].
  destruct (compilePatterns policy); [reflexivity|]. eauto.
Qed.

(** [checkBlocklist] never exits, and changes the pattern cache only. *)
Lemma checkBlocklist_effect (input : HookInput) (policy : Policy) (s : State) :
  exists o s', checkBlocklist input policy s = (o, s')
    /\ (forall c, o <> Exit c)
    /\ files s' = files s /\ stderr s' = stderr s /\ actionCount s' = actionCount s
    /\ (forall m, compiledPatterns s = Some m -> s' = s)
    /\ (compiledPatterns s = None -> compilePatterns policy = None ->
        s' = s /\ exists e, o = Throw e).
Proof.
  pose proof (getPatterns_effect policy s) as Hg.
  unfold checkBlocklist, bind.
  destruct (compiledPatterns s) as [m0|] eqn:Hc.
  2: destruct (compilePatterns policy) as [m0|] eqn:Hp.
  3:{ destruct Hg as (e & ->). do 2 eexists. split; [reflexivity|].
      repeat split; try discriminate; eauto. }
  all: rewrite Hg.
  all: repeat match goal with
         | |- context [if ?b then _ else _] => destruct b
         | |- context [match ?x with Some _ => _ | None => _ end] => destruct x
         end.
  all: unfold ret; do 2 eexists; (split; [reflexivity|]).
  all: repeat split; try discriminate; try reflexivity; try congruence.
Qed.

Lemma checkBudget_effect (policy : Policy) (cwd : string) (s : State) :
  exists b, checkBudget policy cwd s = (Ret b, set_actionCount (actionCount s + 1) s).
Proof. destruct (checkBudget_counts policy cwd s) as (b & Hb & _). eauto. Qed.

Lemma writeAuditEntry_effect (input : HookInput) (result : ValidationResult)
    (policy : Policy) (cwd : string) (b : option BudgetSnapshot) (s : State) :
  let s' := snd (writeAuditEntry input result policy cwd b s) in
  files_kept policy cwd s s' /\ stderr s' = stderr s /\ actionCount s' = actionCount s.
Proof.
  cbv zeta. unfold files_kept.
  destruct (audit_enabled (audit policy)) eqn:Hen.
  - rewrite (writeAuditEntry_enabled _ _ _ _ _ _ Hen). cbv zeta. cbn [snd].
    destruct (prepareAudit_frame policy (getAuditPath policy cwd) s)
      as (Hac & _ & _ & Herr & _ & Hq).
    unfold appendFile, set_files, set_audit.
    cbn [files stderr actionCount].
    split; [|split; [exact Herr|exact Hac]].
    intros q Hne. rewrite lookup_insert_ne by congruence. apply Hq. exact Hne.
  - rewrite (writeAuditEntry_disabled _ _ _ _ _ _ Hen). auto.
Qed.

Lemma writeAuditEntry_records (input : HookInput) (r : ValidationResult)
    (policy : Policy) (cwd : string) (b : option BudgetSnapshot) (s : State) :
  audit_enabled (audit policy) = true ->
  verdict_recorded input r policy cwd (snd (writeAuditEntry input r policy cwd b s)).
Proof.
  intros Hen. rewrite (writeAuditEntry_enabled _ _ _ _ _ _ Hen). cbv zeta. cbn [snd].
  unfold verdict_recorded, appendFile, set_files. cbn [files].
  rewrite lookup_insert_eq. unfold written_entry. cbv zeta.
  do 6 eexists. reflexivity.
Qed.

Lemma validate_blocklist_throw (input : HookInput) (policy : Policy) (cwd : string)
    (s s1 : State) (e : string) :
  mode policy <> Off ->
  checkAllowlist input policy = false ->
  checkScope input policy cwd = None ->
  checkBlocklist input policy s = (Throw e, s1) ->
  validate input policy cwd s = (Throw e, s1).
Proof.
  intros Hmode Hal Hsc Hbl. apply Mode_eqb_neq in Hmode.
  unfold validate. rewrite Hmode, Hal, Hsc. unfold bind. rewrite Hbl. reflexivity.
Qed.

Lemma validate_passthrough (input : HookInput) (policy : Policy) (cwd : string)
    (s : State) :
  mode policy = Off \/ checkAllowlist input policy = true ->
  exists v, validate input policy cwd s = (Ret v, s) /\ allowed v = true.
Proof.
  unfold validate. intros [H|H].
  - rewrite H. cbn [Mode_eqb]. eexists. split; reflexivity.
  - rewrite H. destruct (Mode_eqb (mode policy) Off); eexists; split; reflexivity.
Qed.

Lemma coerce_allowed (m : Mode) (r : ValidationResult) :
  m <> Enforce -> m <> Off -> allowed (coerce m r) = true.
Proof. destruct m; intros H1 H2; try contradiction; reflexivity. Qed.

Lemma shouldKill_budget (policy : Policy) (b : BudgetState) (why : string) :
  shouldKill policy (budgetResult b) b = Some why ->
  kill_enabled (kill_switch policy) = true
  /\ on_budget_breach (kill_switch policy) = true
  /\ action_on_breach (budget policy) = BreachKill.
Proof.
  unfold shouldKill, budgetResult. cbn [allowed severity is_critical].
  destruct (kill_enabled (kill_switch policy)); [|discriminate].
  rewrite andb_false_r. cbn [negb].
  destruct (on_budget_breach (kill_switch policy)); [|discriminate].
  destruct (exceeded b); [|discriminate].
  destruct (action_on_breach (budget policy)); try discriminate. auto.
Qed.

(** What [validate] does to the state, by outcome. *)
Lemma validate_effects (input : HookInput) (policy : Policy) (cwd : string)
    (s s' : State) (o : outcome ValidationResult) :
  validate input policy cwd s = (o, s') ->
  files_kept policy cwd s s'
  /\ match o with
     | Ret v => stderr s' = stderr s /\ (mode policy <> Enforce -> allowed v = true)
     | Throw _ => stderr s' = stderr s
     | Exit c =>
         budget_kill policy /\ c = exit_code (kill_switch policy)
         /\ (exists why, stderr s' = stderr s ++ [kill_line why])
         /\ (audit_enabled (audit policy) = true -> denial_recorded input policy cwd s')
     end.
Proof.
  intros Hv.
  destruct (Mode_eqb (mode policy) Off) eqn:Hoff.
  { apply Mode_eqb_eq in Hoff.
    destruct (validate_passthrough input policy cwd s (or_introl Hoff)) as (v & Hr & Ha).
    rewrite Hr in Hv. injection Hv as <- <-.
    split; [apply files_kept_refl|]. auto. }
  apply Mode_eqb_neq in Hoff.
  destruct (checkAllowlist input policy) eqn:Hal.
  { destruct (validate_passthrough input policy cwd s (or_intror Hal)) as (v & Hr & Ha).
    rewrite Hr in Hv. injection Hv as <- <-.
    split; [apply files_kept_refl|]. auto. }
  destruct (checkScope input policy cwd) as [r|] eqn:Hsc.
  { rewrite (validate_scope_step input policy cwd s r Hoff Hal Hsc) in Hv.
    injection Hv as <- <-. split; [apply files_kept_refl|].
    split; [reflexivity|]. intros Hm. apply coerce_allowed; assumption. }
  destruct (checkBlocklist_effect input policy s)
    as (ob & s1 & Hbl & Hne & Hf1 & He1 & _).
  destruct ob as [[r|]|e|c]; [| | |destruct (Hne c); reflexivity].
  - rewrite (validate_blocklist_step input policy cwd s s1 r Hoff Hal Hsc Hbl) in Hv.
    injection Hv as <- <-. split; [apply files_kept_same; exact Hf1|].
    split; [exact He1|]. intros Hm. apply coerce_allowed; assumption.
  - destruct (validate_budget_step input policy cwd s s1 Hoff Hal Hsc Hbl)
      as (b & sb & Hb & Hval).
    destruct (checkBudget_effect policy cwd s1) as (b' & Hb').
    rewrite Hb in Hb'. injection Hb' as <- ->.
    rewrite Hval in Hv. clear Hval.
    assert (Hsb : files_kept policy cwd s (set_actionCount (actionCount s1 + 1) s1)).
    { apply files_kept_same. exact Hf1. }
    destruct (exceeded b).
    + destruct (Mode_eqb (mode policy) Audit) eqn:Haud.
      * injection Hv as <- <-. split; [exact Hsb|]. split; [exact He1|]. reflexivity.
      * cbv zeta in Hv.
        pose proof (writeAuditEntry_effect input (budgetResult b) policy cwd
                      (snapshot policy b) (set_actionCount (actionCount s1 + 1) s1))
          as (Hfw & Hew & _).
        cbv zeta in Hfw, Hew.
        set (sw := snd (writeAuditEntry _ _ _ _ _ _)) in *.
        destruct (shouldKill policy (budgetResult b) b) as [why|] eqn:Hk.
        -- unfold executeKill, bind, get, put, exit in Hv. injection Hv as <- <-.
           split; [eapply files_kept_trans; [exact Hsb|]; exact Hfw|].
           destruct (shouldKill_budget policy b why Hk) as (K1 & K2 & K3).
           split; [|split; [reflexivity|split]].
           ++ split; [|auto]. apply Mode_eqb_neq in Haud.
              destruct (mode policy); try contradiction; reflexivity.
           ++ exists why. cbn [stderr set_stderr]. rewrite Hew. cbn [stderr set_actionCount].
              rewrite He1. reflexivity.
           ++ intros Hen. cbn [files set_stderr].
              destruct (writeAuditEntry_records input (budgetResult b) policy cwd
                          (snapshot policy b) (set_actionCount (actionCount s1 + 1) s1) Hen)
                as (old & ts & seq & b0 & h & t & Hrec).
              exists old, ts, seq, (budgetResult b), b0, h, t. split; [reflexivity|exact Hrec].
        -- injection Hv as <- <-.
           split; [eapply files_kept_trans; [exact Hsb|]; exact Hfw|].
           split; [rewrite Hew; exact He1|].
           intros Hm. apply Mode_eqb_neq in Haud.
           destruct (mode policy); contradiction.
    + injection Hv as <- <-. split; [exact Hsb|]. split; [exact He1|]. reflexivity.
  - rewrite (validate_blocklist_throw input policy cwd s s1 e Hoff Hal Hsc Hbl) in Hv.
    injection Hv as <- <-. split; [apply files_kept_same; exact Hf1|]. exact He1.
Qed.

(** [validateAndAudit] once [validate] has returned. *)
Lemma validateAndAudit_after (input : HookInput) (policy : Policy) (cwd : string)
    (s s1 : State) (v : ValidationResult) :
  validate input policy cwd s = (Ret v, s1) ->
  exists b,
    checkBudget policy cwd s1 = (Ret b, set_actionCount (actionCount s1 + 1) s1)
    /\ validateAndAudit input policy cwd s =
       let sw := snd (writeAuditEntry input v policy cwd (snapshot policy b)
                        (set_actionCount (actionCount s1 + 1) s1)) in
       if negb (allowed v) && is_critical (severity v) then
         match shouldKill policy v b with
         | Some why => executeKill why (exit_code (kill_switch policy)) sw
         | None => (Ret v, sw)
         end
       else (Ret v, sw).
Proof.
  intros Hv. destruct (checkBudget_effect policy cwd s1) as (b & Hb).
  exists b. split; [exact Hb|].
  unfold validateAndAudit. unfold bind at 1. rewrite Hv.
  unfold bind at 1. rewrite Hb. unfold bind at 1.
  rewrite writeAuditEntry_returns. cbv zeta.
  destruct (negb (allowed v) && is_critical (severity v)); [|reflexivity].
  destruct (shouldKill policy v b); reflexivity.
Qed.

Lemma shouldKill_enabled (policy : Policy) (v : ValidationResult) (b : BudgetState)
    (why : string) :
  shouldKill policy v b = Some why -> kill_enabled (kill_switch policy) = true.
Proof.
  unfold shouldKill. destruct (kill_enabled (kill_switch policy)); [reflexivity|discriminate].
Qed.

(** What [validateAndAudit] does to the state, by outcome. *)
Lemma validateAndAudit_effects (input : HookInput) (policy : Policy) (cwd : string)
    (s s' : State) (o : outcome ValidationResult) :
  validateAndAudit input policy cwd s = (o, s') ->
  files_kept policy cwd s s'
  /\ match o with
     | Ret v =>
         stderr s' = stderr s
         /\ (mode policy <> Enforce -> allowed v = true)
         /\ (exists s1, validate input policy cwd s = (Ret v, s1))
         /\ (audit_enabled (audit policy) = true -> verdict_recorded input v policy cwd s')
     | Throw _ => stderr s' = stderr s
     | Exit c =>
         mode policy = Enforce
         /\ kill_enabled (kill_switch policy) = true
         /\ c = exit_code (kill_switch policy)
         /\ (exists why, stderr s' = stderr s ++ [kill_line why])
         /\ (audit_enabled (audit policy) = true -> denial_recorded input policy cwd s')
     end.
Proof.
  intros Hva.
  destruct (validate input policy cwd s) as [ov s1] eqn:Hv.
  destruct (validate_effects input policy cwd s s1 ov Hv) as (Hf & Ho).
  destruct ov as [v|e|c].
  - destruct Ho as (He & Hall).
    destruct (validateAndAudit_after input policy cwd s s1 v Hv) as (b & _ & Heq).
    rewrite Heq in Hva. clear Heq. cbv zeta in Hva.
    pose proof (writeAuditEntry_effect input v policy cwd (snapshot policy b)
                  (set_actionCount (actionCount s1 + 1) s1)) as (Hfw & Hew & _).
    cbv zeta in Hfw, Hew.
    pose proof (writeAuditEntry_records input v policy cwd (snapshot policy b)
                  (set_actionCount (actionCount s1 + 1) s1)) as Hrec.
    set (sw := snd (writeAuditEntry _ _ _ _ _ _)) in *.
    assert (Hfs : files_kept policy cwd s sw).
    { eapply files_kept_trans; [exact Hf|].
      eapply files_kept_trans; [|exact Hfw]. apply files_kept_same. reflexivity. }
    assert (Hes : stderr sw = stderr s) by (rewrite Hew; exact He).
    destruct (negb (allowed v) && is_critical (severity v)) eqn:Hcrit;
      [|injection Hva as <- <-; split; [exact Hfs|]; repeat split; eauto].
    destruct (shouldKill policy v b) as [why|] eqn:Hk;
      [|injection Hva as <- <-; split; [exact Hfs|]; repeat split; eauto].
    unfold executeKill, bind, get, put, exit in Hva. injection Hva as <- <-.
    apply andb_prop in Hcrit as (Hden & _). apply negb_true_iff in Hden.
    split; [exact Hfs|]. split; [|split; [|split; [reflexivity|split]]].
    + destruct (mode policy) eqn:Hm; [reflexivity| |];
        rewrite Hall in Hden by discriminate; discriminate.
    + eapply shouldKill_enabled. exact Hk.
    + exists why. cbn [stderr set_stderr]. rewrite Hes. reflexivity.
    + intros Hen. cbn [files set_stderr].
      destruct (Hrec Hen) as (old & ts & seq & b0 & h & t & Hr).
      exists old, ts, seq, v, b0, h, t. split; [exact Hden|exact Hr].
  - unfold validateAndAudit, bind in Hva. rewrite Hv in Hva. injection Hva as <- <-.
    split; [exact Hf|exact Ho].
  - unfold validateAndAudit, bind in Hva. rewrite Hv in Hva. injection Hva as <- <-.
    split; [exact Hf|].
    destruct Ho as ((Hm & Hk & _) & Hc & Hw & Hr). auto.
Qed.

Lemma shouldKill_budget_reason (policy : Policy) (b : BudgetState) (why : string) :
  shouldKill policy (budgetResult b) b = Some why ->
  why = "Budget exceeded: " +:+ default "null" (breach_reason b).
Proof.
  unfold shouldKill, budgetResult. cbn [allowed severity is_critical reason].
  destruct (kill_enabled (kill_switch policy)); [|discriminate].
  rewrite andb_false_r. cbn [negb].
  destruct (on_budget_breach (kill_switch policy) && exceeded b
            && is_kill (action_on_breach (budget policy))); [|discriminate].
  intros [= <-]. reflexivity.
Qed.

(** X16.  [validate] ends the process only on a budget breach: when it
    exits, the request has passed the allowlist without a hit, the scope
    gate and the blocklist without a denial, [checkBudget] has reported
    a breach, the mode is enforce and the kill switch is enabled for
    budget breaches with [action_on_breach = "kill"]; the exit code is
    the configured one and the one line on standard error names the
    breach.  So no scope or blocklist denial makes [validate] exit. *)
Theorem validate_exit_only_budget_kill (input : HookInput) (policy : Policy)
    (cwd : string) (s s' : State) (c : Z) :
  validate input policy cwd s = (Exit c, s') ->
  mode policy = Enforce
  /\ kill_enabled (kill_switch policy) = true
  /\ on_budget_breach (kill_switch policy) = true
  /\ action_on_breach (budget policy) = BreachKill
  /\ checkAllowlist input policy = false
  /\ checkScope input policy cwd = None
  /\ (exists s1 b sb,
        checkBlocklist input policy s = (Ret None, s1)
        /\ checkBudget policy cwd s1 = (Ret b, sb)
        /\ exceeded b = true
        /\ stderr s' = stderr s ++ [kill_line ("Budget exceeded: "
                                               +:+ default "null" (breach_reason b))])
  /\ c = exit_code (kill_switch policy).
Proof.
  intros Hv.
  destruct (validate_effects input policy cwd s s' _ Hv)
    as (_ & (K1 & K2 & K3 & K4) & Hc & _ & _).
  assert (Hoff : mode policy <> Off) by (rewrite K1; discriminate).
  destruct (checkAllowlist input policy) eqn:Hal.
  { destruct (validate_passthrough input policy cwd s (or_intror Hal)) as (v & Hr & _).
    rewrite Hr in Hv. discriminate. }
  destruct (checkScope input policy cwd) as [r|] eqn:Hsc.
  { rewrite (validate_scope_step input policy cwd s r Hoff Hal Hsc) in Hv. discriminate. }
  destruct (checkBlocklist_effect input policy s)
    as (ob & s1 & Hbl & Hne & _ & He1 & _).
  destruct ob as [[r|]|e|c0]; [| | |destruct (Hne c0); reflexivity].
  - rewrite (validate_blocklist_step input policy cwd s s1 r Hoff Hal Hsc Hbl) in Hv.
    discriminate.
  - destruct (validate_budget_step input policy cwd s s1 Hoff Hal Hsc Hbl)
      as (b & sb & Hb & Hval).
    destruct (checkBudget_effect policy cwd s1) as (b' & Hb').
    rewrite Hb in Hb'. injection Hb' as <- Hsb.
    rewrite Hval in Hv. clear Hval.
    destruct (exceeded b) eqn:Hex; [|discriminate].
    rewrite K1 in Hv. cbn [Mode_eqb] in Hv. cbv zeta in Hv.
    pose proof (writeAuditEntry_effect input (budgetResult b) policy cwd
                  (snapshot policy b) sb) as (_ & Hew & _).
    cbv zeta in Hew.
    destruct (shouldKill policy (budgetResult b) b) as [why|] eqn:Hk; [|discriminate].
    apply shouldKill_budget_reason in Hk. subst why.
    unfold executeKill, bind, get, put, exit in Hv. injection Hv as _ <-.
    repeat split; try assumption.
    exists s1, b, sb. repeat split; try assumption.
    cbn [stderr set_stderr]. rewrite Hew, Hsb. cbn [stderr set_actionCount].
    rewrite He1. reflexivity.
  - rewrite (validate_blocklist_throw input policy cwd s s1 e Hoff Hal Hsc Hbl) in Hv.
    discriminate.
Qed.

(** X21.  Whatever its outcome, [validateAndAudit] leaves every existing
    file other than the audit file as it is, and changes no file at all
    when the audit is disabled.  (A rotation renames the audit file to a
    name that no file has.) *)
Theorem only_audit_file_written (input : HookInput) (policy : Policy) (cwd : string)
    (s s' : State) (o : outcome ValidationResult) :
  validateAndAudit input policy cwd s = (o, s') ->
  (forall q f, q <> getAuditPath policy cwd ->
               files s !! q = Some f -> files s' !! q = Some f)
  /\ (audit_enabled (audit policy) = false -> files s' = files s).
Proof.
  intros Hv. destruct (validateAndAudit_effects input policy cwd s s' o Hv) as (Hf & _).
  unfold files_kept in Hf. destruct (audit_enabled (audit policy)).
  - split; [|discriminate]. intros q f Hq Hs. rewrite (Hf q Hq). exact Hs.
  - split; [intros q f _ Hs; rewrite Hf; exact Hs|intros _; exact Hf].
Qed.

(** X18.  When [validateAndAudit] ends the process, the mode is enforce, the
    kill switch is enabled, the exit code is the configured one, one line
    went to standard error, and with the audit enabled the denial is
    already the last line of the audit file. *)
Theorem kill_after_record (input : HookInput) (policy : Policy) (cwd : string)
    (s s' : State) (c : Z) :
  validateAndAudit input policy cwd s = (Exit c, s') ->
  mode policy = Enforce
  /\ kill_enabled (kill_switch policy) = true
  /\ c = exit_code (kill_switch policy)
  /\ (exists why, stderr s' = stderr s ++ [kill_line why])
  /\ (audit_enabled (audit policy) = true -> denial_recorded input policy cwd s').
Proof.
  intros Hv. exact (proj2 (validateAndAudit_effects input policy cwd s s' _ Hv)).
Qed.

(** X19.  Outside enforce mode [validateAndAudit] never ends the process and
    never returns a denial. *)
Theorem audit_mode_never_blocks (input : HookInput) (policy : Policy) (cwd : string)
    (s s' : State) (o : outcome ValidationResult) :
  mode policy <> Enforce ->
  validateAndAudit input policy cwd s = (o, s') ->
  (forall c, o <> Exit c) /\ (forall v, o = Ret v -> allowed v = true).
Proof.
  intros Hm Hv.
  destruct (validateAndAudit_effects input policy cwd s s' o Hv) as (_ & Ho).
  split.
  - intros c ->. destruct Ho as (Hen & _). contradiction.
  - intros v ->. destruct Ho as (_ & Hall & _). apply Hall. exact Hm.
Qed.

(** X20.  A verdict that [validateAndAudit] returns is the verdict of
    [validate], and with the audit enabled it is the one recorded in the
    last line of the audit file. *)
Theorem returned_verdict_recorded (input : HookInput) (policy : Policy) (cwd : string)
    (s s' : State) (v : ValidationResult) :
  validateAndAudit input policy cwd s = (Ret v, s') ->
  (exists s1, validate input policy cwd s = (Ret v, s1))
  /\ (audit_enabled (audit policy) = true -> verdict_recorded input v policy cwd s').
Proof.
  intros Hv.
  destruct (validateAndAudit_effects input policy cwd s s' _ Hv) as (_ & _ & _ & H1 & H2).
  auto.
Qed.

End Effects.

Section Gates.
Context {RT : Runtime}.

(** X11.  With a pattern in the blocklist that is no regular expression,
    [validate] throws for every request that gets past the allowlist and
    the scope gate, whatever its tool, and leaves the state as it was, so
    that the next request throws as well. *)
Theorem invalid_pattern_throws (input : HookInput) (policy : Policy) (cwd : string)
    (s : State) :
  mode policy <> Off ->
  checkAllowlist input policy = false ->
  checkScope input policy cwd = None ->
  compiledPatterns s = None ->
  compilePatterns policy = None ->
  exists e, validate input policy cwd s = (Throw e, s).
Proof.
  intros Hmode Hal Hsc Hc Hp.
  destruct (checkBlocklist_effect input policy s) as (o & s' & Hbl & _ & _ & _ & _ & _ & H).
  destruct (H Hc Hp) as (-> & e & ->). exists e.
  exact (validate_blocklist_throw input policy cwd s s e Hmode Hal Hsc Hbl).
Qed.

Lemma eqb_false (a b : string) : a <> b -> String.eqb a b = false.
Proof. intros H. apply String.eqb_neq. exact H. Qed.

Lemma checkBlocklist_other (input : HookInput) (policy : Policy) (s : State) :
  other_tool (tool_name input) ->
  compiledPatterns s <> None \/ compilePatterns policy <> None ->
  exists s', checkBlocklist input policy s = (Ret None, s').
Proof.
  intros (H1 & H2 & H3 & H4 & H5 & H6) Hc.
  pose proof (getPatterns_effect policy s) as Hg.
  unfold checkBlocklist, bind.
  rewrite (eqb_false _ _ H1), (eqb_false _ _ H2), (eqb_false _ _ H3),
    (eqb_false _ _ H4), (eqb_false _ _ H5), H6. cbn [orb].
  destruct (compiledPatterns s) as [m|].
  - rewrite Hg. eauto.
  - destruct (compilePatterns policy) as [m|].
    + rewrite Hg. eauto.
    + destruct Hc as [Hc|Hc]; contradiction.
Qed.

(** A field that JavaScript takes for false reads as the empty string. *)
Lemma falsy_as_string (v : option json) :
  Js.truthy v = false -> Json.as_string v "" = "".
Proof.
  destruct v as [[|b|n|t|xs|kvs]|]; try reflexivity.
  destruct t; [reflexivity|discriminate].
Qed.

(** X9.  A request for a tool that the blocklist has no branch for (Glob,
    Grep, Task, ...) whose [file_path] is absent, null, the empty string
    or another value that JavaScript takes for false is allowed whatever
    else its input holds, when the budget is disabled and the patterns
    compile. *)
Theorem other_tools_pass (input : HookInput) (policy : Policy) (cwd : string)
    (s : State) :
  other_tool (tool_name input) ->
  Js.truthy (Json.lookup "file_path" (tool_input input)) = false ->
  budget_enabled (budget policy) = false ->
  compiledPatterns s <> None \/ compilePatterns policy <> None ->
  fst (validate input policy cwd s)
  = Ret {| allowed := true; reason := None; severity := None; pattern := None;
           source := None |}.
Proof.
  intros Hother Hfalsy Hbud Hc.
  assert (Hfile : input_string input "file_path" = "").
  { unfold input_string. apply falsy_as_string. exact Hfalsy. }
  destruct (Mode_eqb (mode policy) Off) eqn:Hoff.
  { unfold validate. rewrite Hoff. reflexivity. }
  apply Mode_eqb_neq in Hoff.
  assert (Hal : checkAllowlist input policy = false).
  { destruct Hother as (H1 & _ & _ & _ & H5 & _).
    unfold checkAllowlist. rewrite (eqb_false _ _ H1), (eqb_false _ _ H5), Hfile.
    reflexivity. }
  assert (Hsc : checkScope input policy cwd = None).
  { unfold checkScope. rewrite Hfile. reflexivity. }
  destruct (checkBlocklist_other input policy s Hother Hc) as (s1 & Hbl).
  destruct (validate_budget_step input policy cwd s s1 Hoff Hal Hsc Hbl)
    as (b & sb & Hb & ->).
  assert (Hex : exceeded b = false).
  { unfold checkBudget, bind, get, put, ret in Hb. rewrite Hbud in Hb.
    cbn [negb] in Hb. injection Hb as <- _. reflexivity. }
  rewrite Hex. reflexivity.
Qed.

Lemma checkBlocklist_caches (input : HookInput) (policy : Policy) (s s1 : State)
    (r : option ValidationResult) :
  checkBlocklist input policy s = (Ret r, s1) ->
  exists m, compiledPatterns s1 = Some m.
Proof.
  intros Hbl.
  destruct (checkBlocklist_effect input policy s)
    as (o & s' & Hbl' & _ & _ & _ & _ & Hsome & Hnone).
  rewrite Hbl in Hbl'. injection Hbl' as <- <-.
  pose proof (getPatterns_effect policy s) as Hg.
  destruct (compiledPatterns s) as [m|] eqn:Hc.
  - rewrite (Hsome m eq_refl). eauto.
  - destruct (compilePatterns policy) as [m|] eqn:Hp.
    + unfold checkBlocklist, bind in Hbl. rewrite Hg in Hbl.
      exists m.
      repeat match type of Hbl with
             | context [if ?b then _ else _] => destruct b
             | context [match ?x with Some _ => _ | None => _ end] => destruct x
             end; unfold ret in Hbl; injection Hbl as _ <-; reflexivity.
    + destruct (Hnone eq_refl eq_refl) as (_ & e & He). discriminate.
Qed.

(** X10.  The compiled patterns are cached by the first call that returns and
    are not compiled again: from then on, for every tool but Write, Edit
    and Read, [checkBlocklist] gives the same answer under any other
    policy as under the first one, and leaves the state as it is. *)
Theorem patterns_cached_once (first input : HookInput) (p1 p2 : Policy)
    (s s1 : State) (r : option ValidationResult) :
  checkBlocklist first p1 s = (Ret r, s1) ->
  tool_name input <> "Write" -> tool_name input <> "Edit" ->
  tool_name input <> "Read" ->
  checkBlocklist input p2 s1 = checkBlocklist input p1 s1
  /\ snd (checkBlocklist input p2 s1) = s1.
Proof.
  intros Hfirst H1 H2 H3.
  destruct (checkBlocklist_caches first p1 s s1 r Hfirst) as (m & Hm).
  pose proof (getPatterns_effect p1 s1) as Hg1.
  pose proof (getPatterns_effect p2 s1) as Hg2.
  rewrite Hm in Hg1, Hg2.
  unfold checkBlocklist, bind. rewrite Hg1, Hg2.
  rewrite (eqb_false _ _ H1), (eqb_false _ _ H2), (eqb_false _ _ H3). cbn [orb].
  split; [reflexivity|].
  repeat match goal with
         | |- context [if ?b then _ else _] => destruct b
         | |- context [match ?x with Some _ => _ | None => _ end] => destruct x
         end; reflexivity.
Qed.

(** X14.  A breach of the action limit lasts: once the counter has reached a
    positive limit of an enabled budget, this call of [checkBudget] and
    every later one reports a breach, with the count and the limit in
    its reason. *)
Theorem budget_breach_persists (policy : Policy) (cwd : string) (s : State) :
  budget_enabled (budget policy) = true ->
  0 < max_actions_per_session (budget policy) ->
  max_actions_per_session (budget policy) <= actionCount s ->
  exists b s',
    checkBudget policy cwd s = (Ret b, s')
    /\ exceeded b = true
    /\ breach_reason b =
         Some ("Action limit exceeded: " +:+ JsString.of_Z (actionCount s + 1) +:+ "/"
               +:+ JsString.of_Z (max_actions_per_session (budget policy)))
    /\ max_actions_per_session (budget policy) <= actionCount s'.
Proof.
  intros Hen Hpos Hmax.
  unfold checkBudget, bind, get, put, ret. rewrite Hen. cbn [negb].
  assert (H1 : (0 <? max_actions_per_session (budget policy)) = true)
    by (apply Z.ltb_lt; exact Hpos).
  assert (H2 : (max_actions_per_session (budget policy) <? actionCount s + 1) = true)
    by (apply Z.ltb_lt; lia).
  rewrite H1, H2. cbn [andb].
  do 2 eexists. split; [reflexivity|]. cbn [exceeded breach_reason actionCount set_actionCount].
  repeat split. lia.
Qed.

(** X15.  The cost check fails open.  When the cost file is missing, or
    JSON.parse throws on its content or makes null of it, [checkBudget]
    returns with no session cost, and reports a breach exactly when the
    budget is enabled and the count of this call is above a positive
    action limit: whatever the session limit, no cost is enforced. *)
Theorem cost_check_fails_open (policy : Policy) (cwd : string) (s : State) :
  files s !! path_resolve cwd (cost_file (budget policy)) = None
  \/ (exists f,
        files s !! path_resolve cwd (cost_file (budget policy)) = Some f
        /\ (JSON_parse (content f) = None \/ JSON_parse (content f) = Some JNull)) ->
  exists b,
    checkBudget policy cwd s = (Ret b, set_actionCount (actionCount s + 1) s)
    /\ action_count b = actionCount s + 1
    /\ session_cost_usd b = None
    /\ (exceeded b = true <->
        budget_enabled (budget policy) = true
        /\ 0 < max_actions_per_session (budget policy) < actionCount s + 1).
Proof.
  intros Hfile.
  assert (Hcost : forall limit count,
             checkCost limit (path_resolve cwd (cost_file (budget policy))) count (files s)
             = None).
  { intros limit count. unfold checkCost.
    destruct Hfile as [->|(f & -> & [->| ->])]; reflexivity. }
  destruct (checkBudget_counts policy cwd s) as (b & Hb & Hcount & _).
  exists b. split; [exact Hb|]. split; [exact Hcount|].
  unfold checkBudget, bind, get, put, ret in Hb.
  destruct (budget_enabled (budget policy)); cbn [negb] in Hb.
  2:{ injection Hb as <-. cbn [session_cost_usd exceeded].
      split; [reflexivity|]. split; [discriminate|]. intros (H & _). discriminate. }
  destruct (0 <? max_actions_per_session (budget policy)) eqn:H1;
    destruct (max_actions_per_session (budget policy) <? actionCount s + 1) eqn:H2;
    cbn [andb] in Hb.
  1:{ injection Hb as <-. cbn [session_cost_usd exceeded].
      apply Z.ltb_lt in H1. apply Z.ltb_lt in H2.
      split; [reflexivity|]. split; [|reflexivity]. intros _. split; [reflexivity|lia]. }
  all: assert (Hlow : ~ 0 < max_actions_per_session (budget policy) < actionCount s + 1)
         by (first [apply Z.ltb_ge in H1|apply Z.ltb_ge in H2]; lia).
  all: destruct (session_limit_usd (budget policy)) as [limit|];
         [destruct (JsString.nonempty (cost_file (budget policy)));
            [rewrite Hcost in Hb|]|].
  all: injection Hb as <-; cbn [session_cost_usd exceeded].
  all: split; [reflexivity|]; split; [discriminate|]; intros (_ & H); contradiction.
Qed.

End Gates.

Section More.
Context {RT : Runtime}.

(** X17.  A denial of severity critical that [validate] returns ends the
    process in [validateAndAudit] when the kill switch is enabled for
    critical violations: the exit code is the configured one and the
    line on standard error gives the reason of the denial. *)
Theorem critical_denial_kills (input : HookInput) (policy : Policy) (cwd : string)
    (s s1 : State) (v : ValidationResult) :
  validate input policy cwd s = (Ret v, s1) ->
  allowed v = false ->
  severity v = Some Critical ->
  kill_enabled (kill_switch policy) = true ->
  on_blocklist_critical (kill_switch policy) = true ->
  exists s',
    validateAndAudit input policy cwd s = (Exit (exit_code (kill_switch policy)), s')
    /\ stderr s' = stderr s
         ++ [kill_line ("Critical policy violation: " +:+ default "null" (reason v))].
Proof.
  intros Hv Hden Hsev Hk Hc.
  destruct (validate_effects input policy cwd s s1 _ Hv) as (_ & <- & _).
  destruct (validateAndAudit_after input policy cwd s s1 v Hv) as (b & _ & ->).
  cbv zeta. rewrite Hden, Hsev. cbn [negb is_critical andb].
  unfold shouldKill. rewrite Hk, Hc, Hden, Hsev. cbn [negb is_critical andb].
  unfold executeKill, bind, get, put, exit.
  eexists. split; [reflexivity|]. cbn [stderr set_stderr].
  destruct (writeAuditEntry_effect input v policy cwd (snapshot policy b)
              (set_actionCount (actionCount s1 + 1) s1)) as (_ & -> & _).
  reflexivity.
Qed.

(** X13.  The counter counts the calls: after [resetActionCount] and [n] calls
    of [checkBudget], enabled or not, breached or not, [getActionCount]
    returns [n], and nothing else of the state has changed. *)
Theorem budget_counts_calls (policy : Policy) (cwd : string) (n : nat) (s : State) :
  let s' := budget_calls policy cwd n (snd (resetActionCount s)) in
  fst (getActionCount s') = Ret (Z.of_nat n)
  /\ s' = set_actionCount (Z.of_nat n) s.
Proof.
  cbv zeta.
  assert (H : budget_calls policy cwd n (snd (resetActionCount s))
              = set_actionCount (Z.of_nat n) s).
  { unfold budget_calls. induction n as [|n IH]; [reflexivity|].
    rewrite Nat.iter_succ, IH.
    destruct (checkBudget_effect policy cwd (set_actionCount (Z.of_nat n) s)) as (b & ->).
    cbn [snd]. unfold set_actionCount. cbn. f_equal. lia. }
  rewrite H. split; reflexivity.
Qed.

(** X23.  Rotation.  When the audit file has reached the size limit, or was
    last written on another day under daily rotation, the next entry
    opens a new file: the old file is moved away with its content
    intact, and the new file holds that entry alone, with sequence
    number 1 and, under the hash chain, a hash computed from the empty
    text. *)
Theorem rotation_starts_anew (input : HookInput) (result : ValidationResult)
    (policy : Policy) (cwd : string) (b : option BudgetSnapshot) (s : State) (f : File) :
  audit_enabled (audit policy) = true ->
  files s !! getAuditPath policy cwd = Some f ->
  max_file_size_mb (audit policy) * (1024 * 1024) <= file_size f
  \/ (rotation (audit policy) = Daily /\ iso_date (clock s) <> iso_date (mtime f)) ->
  let s' := snd (writeAuditEntry input result policy cwd b s) in
  let e := entryWithoutHash (clock s) 1 input result policy cwd b in
  rotated s' = rotated s ++ [(getAuditPath policy cwd, f)]
  /\ files s' !! getAuditPath policy cwd =
       Some {| content :=
                 Json.stringify (JObj (e ++ [("hash", JStr (entryHash policy "" e))]))
                 +:+ JsString.nl;
               mtime := clock s |}
  /\ sequenceNumber s' = 1.
Proof.
  intros Hen Hf Hwhy. cbv zeta.
  set (path := getAuditPath policy cwd) in *.
  assert (Hrot : shouldRotate policy path s = true).
  { unfold shouldRotate. rewrite Hf.
    destruct Hwhy as [Hsize|(Hd & Hdate)].
    - apply Z.leb_le in Hsize. rewrite Hsize. reflexivity.
    - destruct (_ <=? _); [reflexivity|]. rewrite Hd. cbn [is_daily andb].
      apply String.eqb_neq in Hdate. rewrite Hdate. reflexivity. }
  rewrite (writeAuditEntry_enabled _ _ _ _ _ _ Hen). cbv zeta. cbn [snd]. fold path.
  unfold written_entry. cbv zeta. fold path.
  destruct (prepareAudit_rotated policy path s Hrot) as (f' & Hf' & ->).
  rewrite Hf in Hf'. injection Hf' as <-.
  unfold appendFile, set_files, set_audit, set_rotated.
  cbn [files rotated sequenceNumber lastHash clock].
  rewrite lookup_insert_eq, lookup_delete_eq.
  change (0 + 1) with 1.
  split; [reflexivity|]. split; [|reflexivity]. reflexivity.
Qed.

End More.

Section Scope.
Context {RT : Runtime}.
Import JsString.

Lemma get_substitution_plain (matched before after repl : list ascii) :
  Forall (fun c => c <> "$"%char) repl ->
  get_substitution matched before after repl = repl.
Proof.
  induction 1 as [|c repl Hc _ IH]; [reflexivity|].
  cbn [get_substitution]. apply Ascii.eqb_neq in Hc. rewrite Hc, IH. reflexivity.
Qed.

Lemma prefix_app (a b : list ascii) :
  String.prefix (of_chars a) (of_chars (a ++ b)) = true.
Proof.
  induction a as [|c a IH].
  { cbn [app]. unfold of_chars. destruct (string_of_list_ascii b); reflexivity. }
  cbn [app of_chars string_of_list_ascii String.prefix].
  destruct (ascii_dec c c); [exact IH|contradiction].
Qed.

Lemma find_first_here (pat rest : list ascii) :
  find_first pat [] (pat ++ rest) = Some ([], skipn (length pat) (pat ++ rest)).
Proof.
  assert (Hstep : forall before cs,
            find_first pat before cs =
              if String.prefix (of_chars pat) (of_chars cs)
              then Some (rev before, skipn (length pat) cs)
              else match cs with
                   | [] => None
                   | c :: cs' => find_first pat (c :: before) cs'
                   end) by (intros before [|c cs]; reflexivity).
  rewrite Hstep, prefix_app. reflexivity.
Qed.

(** [("{cwd}" + suffix).replace("{cwd}", cwd)] is [cwd + suffix] when
    the working directory holds no dollar sign. *)
Lemma replace_leading_cwd (cwd suffix : string) :
  Forall (fun c => c <> "$"%char) (chars cwd) ->
  JsString.replace ("{cwd}" +:+ suffix) "{cwd}" cwd = cwd +:+ suffix.
Proof.
  intros H. unfold JsString.replace.
  rewrite chars_append, find_first_here.
  rewrite (get_substitution_plain _ _ _ _ H).
  change (skipn (length (chars "{cwd}")) (chars "{cwd}" ++ chars suffix))
    with (chars suffix).
  cbn [app]. rewrite <- chars_append. apply of_chars_chars.
Qed.

Lemma find_none_Forall {A : Type} (f : A -> bool) (l : list A) :
  Forall (fun x => f x = false) l -> find f l = None.
Proof. induction 1 as [|x l Hx _ IH]; [reflexivity|]. simpl. rewrite Hx. exact IH. Qed.

(** X12.  The scope gate with templates that start with [{cwd}], the working
    directory holding no dollar sign: a file outside every denied path
    passes the gate exactly when its resolved path starts with the
    working directory followed by the rest of one of the templates. *)
Theorem scope_under_cwd (input : HookInput) (policy : Policy) (cwd : string)
    (suffixes : list string) :
  Forall (fun c => c <> "$"%char) (chars cwd) ->
  allowed_paths (scope policy) = map (fun x => "{cwd}" +:+ x) suffixes ->
  allow_outside_cwd (scope policy) = false ->
  input_string input "file_path" <> "" ->
  let resolved := path_resolve cwd (input_string input "file_path") in
  Forall (fun d => startsWith resolved d = false) (denied_paths (scope policy)) ->
  (checkScope input policy cwd = None
   <-> exists x, In x suffixes /\ startsWith resolved (cwd +:+ x) = true).
Proof.
  intros Hcwd Hal Hout Hfile resolved Hden.
  assert (Hne : nonempty (input_string input "file_path") = true).
  { destruct (input_string input "file_path"); [contradiction|reflexivity]. }
  unfold checkScope. cbv zeta. rewrite Hne. cbn [negb].
  subst resolved.
  rewrite (find_none_Forall
             (fun denied => startsWith (path_resolve cwd (input_string input "file_path"))
                                       denied) _ Hden), Hout, Hal.
  cbn [negb].
  set (resolved := path_resolve cwd (input_string input "file_path")).
  rewrite map_map.
  rewrite (map_ext _ (fun x => cwd +:+ x))
    by (intros x; apply replace_leading_cwd; exact Hcwd).
  destruct (existsb (fun a => startsWith resolved a) (map (fun x => cwd +:+ x) suffixes))
    eqn:E; cbn [negb].
  - split; [intros _|reflexivity].
    apply existsb_exists in E as (a & Hin & Ha).
    apply in_map_iff in Hin as (x & <- & Hx). eauto.
  - split; [discriminate|].
    intros (x & Hx & Hs).
    assert (E' : existsb (fun a => startsWith resolved a)
                   (map (fun x => cwd +:+ x) suffixes) = true).
    { apply existsb_exists. exists (cwd +:+ x). split; [|exact Hs].
      apply in_map_iff. eauto. }
    congruence.
Qed.

End Scope.

(* ================================================================== *)
(** * Sequence numbers, truncation and the summary *)
(* ================================================================== *)

Section Numbered.
Context {RT : Runtime}.
Import JsString.

Lemma resume_seq (f : File) (objs : list (list (string * json))) :
  content f = render objs ->
  objs <> [] ->
  Forall parses_back objs ->
  (forall (i : nat) o, objs !! i = Some o ->
     Json.lookup "seq" o = Some (JNum (Z.of_nat i + 1))) ->
  exists h, resume_from f = Some (Z.of_nat (length objs), h).
Proof.
  intros Hc Hne Hp Hseq.
  destruct (exists_last Hne) as (objs' & o & ->).
  unfold resume_from. rewrite Hc, read_lines_render, map_app. cbn [map].
  rewrite last_snoc.
  change (nonempty (line o)) with true. cbv iota.
  apply Forall_app in Hp as (_ & Hp). inversion Hp as [|x l Ho _]; subst.
  unfold line. rewrite Ho.
  rewrite (Hseq (length objs') o) by (apply list_lookup_middle; reflexivity).
  rewrite length_app. cbn [length Json.as_number].
  replace (Z.of_nat (length objs') + 1) with (Z.of_nat (length objs' + 1)) by lia.
  eauto.
Qed.

Lemma entry_seq (ts : string) (seq : Z) (input : HookInput) (result : ValidationResult)
    (policy : Policy) (cwd : string) (b : option BudgetSnapshot) (h : string) :
  Json.lookup "seq"
    (entryWithoutHash ts seq input result policy cwd b ++ [("hash", JStr h)])
  = Some (JNum seq).
Proof. reflexivity. Qed.

Lemma numbered_append (path : string) (s2 : State) (objs : list (list (string * json)))
    (o : list (string * json)) (h : string) :
  match files s2 !! path with
  | Some f => content f = render objs /\ objs <> []
  | None => objs = []
  end ->
  Forall parses_back objs ->
  Forall is_entry objs ->
  (forall (i : nat) o, objs !! i = Some o ->
     Json.lookup "seq" o = Some (JNum (Z.of_nat i + 1))) ->
  sequenceNumber s2 = Z.of_nat (length objs) ->
  parses_back o ->
  is_entry o ->
  Json.lookup "seq" o = Some (JNum (sequenceNumber s2 + 1)) ->
  numbered path
    (appendFile path (Json.stringify (JObj o) +:+ nl)
       (set_audit h (sequenceNumber s2 + 1) s2))
    (objs ++ [o]).
Proof.
  intros Hf Hp He Hseq Hn Hpo Heo Hso.
  unfold numbered, appendFile, set_audit, set_files.
  cbn [files sequenceNumber content clock].
  rewrite lookup_insert_eq. cbn [content].
  split; [split|].
  - rewrite render_app. cbn [render]. rewrite append_empty_r.
    destruct (files s2 !! path) as [f|]; [destruct Hf as (-> & _); reflexivity|].
    subst objs. reflexivity.
  - destruct objs; discriminate.
  - split; [apply Forall_app; split; [exact Hp|repeat constructor; exact Hpo]|].
    split; [apply Forall_app; split; [exact He|repeat constructor; exact Heo]|].
    split.
    + intros i x Hx.
      destruct (decide (i < length objs)%nat) as [Hi|Hi].
      * rewrite lookup_app_l in Hx by exact Hi. apply Hseq. exact Hx.
      * rewrite lookup_app_r in Hx by lia.
        destruct (i - length objs)%nat as [|k] eqn:Hk; [|destruct k; discriminate].
        cbn in Hx. injection Hx as <-. rewrite Hso, Hn. do 2 f_equal. lia.
    + left. rewrite length_app. cbn [length]. lia.
Qed.

Section Run.

Variables (policy : Policy) (cwd : string).
Hypothesis Hen : audit_enabled (audit policy) = true.

Lemma numbered_restart (s : State) (objs : list (list (string * json))) :
  numbered (getAuditPath policy cwd) s objs ->
  numbered (getAuditPath policy cwd) (restart s) objs.
Proof.
  intros (Hf & Hp & He & Hseq & _).
  split; [exact Hf|]. split; [exact Hp|]. split; [exact He|]. split; [exact Hseq|].
  right. reflexivity.
Qed.

Lemma numbered_write (t : string) (input : HookInput) (result : ValidationResult)
    (b : option BudgetSnapshot) (s : State) (objs : list (list (string * json))) :
  numbered (getAuditPath policy cwd) s objs ->
  parses_back (written_entry input result policy cwd b (set_clock t s)) ->
  exists objs',
    numbered (getAuditPath policy cwd) (step policy cwd (EvWrite t input result b) s) objs'.
Proof.
  intros (Hf & Hp & He & Hseq & Hs) Hpb.
  unfold step. rewrite (writeAuditEntry_enabled _ _ _ _ _ _ Hen). cbv zeta.
  lazymatch goal with
  | |- context [snd (Ret tt, ?x)] => change (snd (Ret tt, x)) with x
  end.
  set (path := getAuditPath policy cwd) in *.
  set (sc := set_clock t s) in *.
  unfold written_entry in Hpb |- *. cbv zeta in Hpb |- *.
  fold path in Hpb |- *.
  set (s2 := snd (prepareAudit policy path sc)) in *.
  set (e := entryWithoutHash (clock s2) (sequenceNumber s2 + 1) input result policy cwd b)
    in *.
  set (h := entryHash policy (lastHash s2) e) in *.
  assert (Heo : is_entry (e ++ [("hash", JStr h)])).
  { unfold is_entry, e. do 8 eexists. reflexivity. }
  assert (Hso : Json.lookup "seq" (e ++ [("hash", JStr h)])
                = Some (JNum (sequenceNumber s2 + 1))) by apply entry_seq.
  assert (Hh : Json.as_string (Json.lookup "hash" (e ++ [("hash", JStr h)])) "" = h)
    by reflexivity.
  rewrite Hh. clearbody h. clearbody e.
  destruct (shouldRotate policy path sc) eqn:Hrot.
  - destruct (prepareAudit_rotated policy path sc Hrot) as (f & _ & Hs2).
    fold s2 in Hs2.
    assert (Hn : sequenceNumber s2 = Z.of_nat (length (@nil (list (string * json)))))
      by (rewrite Hs2; reflexivity).
    assert (Hfile : files s2 !! path = None).
    { rewrite Hs2. cbn [files set_audit set_rotated set_files]. apply lookup_delete_eq. }
    exists ([] ++ [e ++ [("hash", JStr h)]]).
    apply numbered_append; try assumption; try constructor.
    + rewrite Hfile. reflexivity.
    + intros i o Hi. destruct i; discriminate.
  - destruct (prepareAudit_frame policy path sc) as (_ & _ & _ & _ & Hfile & _).
    fold s2 in Hfile. rewrite Hrot in Hfile.
    change (files sc) with (files s) in Hfile.
    assert (Hn : sequenceNumber s2 = Z.of_nat (length objs)).
    { unfold s2. rewrite (prepareAudit_kept policy path sc Hrot).
      change (sequenceNumber sc) with (sequenceNumber s).
      change (files sc) with (files s).
      destruct (sequenceNumber s =? 0) eqn:Hz.
      - destruct (files s !! path) as [f|] eqn:Hfs.
        + destruct Hf as (Hc & Hne).
          destruct (resume_seq f objs Hc Hne Hp Hseq) as (h' & ->). reflexivity.
        + subst objs. apply Z.eqb_eq in Hz. exact Hz.
      - destruct Hs as [Hs|Hs]; [exact Hs|].
        apply Z.eqb_neq in Hz. contradiction. }
    exists (objs ++ [e ++ [("hash", JStr h)]]).
    apply numbered_append; try assumption.
    rewrite Hfile. exact Hf.
Qed.

Lemma run_numbered (evs : list event) (s : State) (objs : list (list (string * json))) :
  numbered (getAuditPath policy cwd) s objs ->
  run_parses_back policy cwd evs s ->
  exists objs', numbered (getAuditPath policy cwd) (run policy cwd evs s) objs'.
Proof.
  revert s objs. induction evs as [|ev evs IH]; intros s objs Hs Hpb.
  - exists objs. exact Hs.
  - destruct Hpb as (Hev & Hrest). simpl run.
    destruct ev as [t input result b|].
    + destruct (numbered_write t input result b s objs Hs Hev) as (objs1 & Hs1).
      exact (IH _ objs1 Hs1 Hrest).
    + exact (IH _ objs (numbered_restart s objs Hs) Hrest).
Qed.

End Run.

(** The entries that [numbered] speaks of are those read back from the
    file. *)
Lemma numbered_entries (path : string) (s : State) (objs : list (list (string * json))) :
  numbered path s objs ->
  audit_entries path s = objs /\ audit_text path s = render objs.
Proof.
  intros (Hf & Hp & _).
  unfold audit_entries, audit_lines, audit_text.
  destruct (files s !! path) as [f|].
  - destruct Hf as (-> & _). rewrite read_lines_render.
    split; [apply entries_of_lines; exact Hp|reflexivity].
  - subst objs. split; reflexivity.
Qed.

(** X22.  Sequence numbers.  Take processes that write their audit entries to
    one path, the first of them starting without a file there, and let
    JSON.parse give back every entry that was written.  Then the entries
    of the file carry the sequence numbers 1, 2, 3, ... in the order of
    the lines, across restarts of the process and whatever the
    integrity setting; after a rotation the new file starts at 1 again. *)
Theorem sequence_numbers (policy : Policy) (cwd : string) (evs : list event) (s : State) :
  audit_enabled (audit policy) = true ->
  files s !! getAuditPath policy cwd = None ->
  sequenceNumber s = 0 ->
  run_parses_back policy cwd evs s ->
  let path := getAuditPath policy cwd in
  let s' := run policy cwd evs s in
  let objs := audit_entries path s' in
  audit_text path s' = render objs
  /\ forall (i : nat) o, objs !! i = Some o ->
       Json.lookup "seq" o = Some (JNum (Z.of_nat i + 1)).
Proof.
  intros Hen Hfile Hseq Hpb path s' objs.
  assert (H0 : numbered path s []).
  { split; [unfold path; rewrite Hfile; reflexivity|].
    split; [constructor|]. split; [constructor|].
    split; [intros i o Hi; destruct i; discriminate|]. right. exact Hseq. }
  destruct (run_numbered policy cwd Hen evs s [] H0 Hpb) as (objs' & Hn).
  fold path s' in Hn.
  destruct (numbered_entries path s' objs' Hn) as (He & Ht).
  fold objs in He. rewrite He. split; [exact Ht|].
  destruct Hn as (_ & _ & _ & Hs & _). exact Hs.
Qed.

End Numbered.

Section Truncation.
Context {RT : Runtime}.

Lemma chain_take (prev : string) (es : list (list (string * json))) (n : nat) :
  take n (chain prev es) = chain prev (take n es).
Proof.
  revert prev n. induction es as [|e es IH]; intros prev [|n]; try reflexivity.
  cbn [chain take]. cbv zeta. rewrite IH. reflexivity.
Qed.

(** The chained entries of the file that a run leaves. *)
Lemma run_chain (policy : Policy) (cwd : string) (evs : list event) (s : State) :
  audit_enabled (audit policy) = true ->
  integrity (audit policy) = Sha256Chain ->
  files s !! getAuditPath policy cwd = None ->
  lastHash s = "" ->
  run_parses_back policy cwd evs s ->
  exists es,
    audit_entries (getAuditPath policy cwd) (run policy cwd evs s) = chain "" es
    /\ Forall no_hash es
    /\ Forall parses_back (chain "" es).
Proof.
  intros Hen Hint Hfile Hlast Hpb.
  set (path := getAuditPath policy cwd) in *.
  assert (H0 : in_sync path s []).
  { split; [rewrite Hfile; reflexivity|].
    split; [constructor|]. split; [constructor|]. left. exact Hlast. }
  destruct (run_in_sync policy cwd Hen Hint evs s [] H0 Hpb) as (es & Hf & Hno & Hp & _).
  fold path in Hf. exists es. split; [|auto].
  unfold audit_entries, audit_lines.
  destruct (files (run policy cwd evs s) !! path) as [f|].
  - destruct Hf as (-> & _). rewrite read_lines_render.
    apply entries_of_lines. exact Hp.
  - subst es. reflexivity.
Qed.

(** X24.  What the chain does not show: a file that has lost its last entries
    still verifies.  Under the conditions of the chain theorem, the file
    cut down to its first [n] entries, for any [n], makes
    [verifyAuditChain] return [valid = true] with the number of entries
    that are left. *)
Theorem truncation_undetected (policy : Policy) (cwd : string) (evs : list event)
    (s : State) (n : nat) :
  audit_enabled (audit policy) = true ->
  integrity (audit policy) = Sha256Chain ->
  files s !! getAuditPath policy cwd = None ->
  lastHash s = "" ->
  run_parses_back policy cwd evs s ->
  let path := getAuditPath policy cwd in
  let s' := run policy cwd evs s in
  let objs := audit_entries path s' in
  verifyAuditChain path (overwrite path (render (take n objs)) s')
  = Ret {| valid := true; entries := Z.of_nat (length (take n objs)); brokenAt := None |}.
Proof.
  intros Hen Hint Hfile Hlast Hpb path s' objs.
  destruct (run_chain policy cwd evs s Hen Hint Hfile Hlast Hpb) as (es & He & Hno & Hp).
  fold path s' objs in He. rewrite He, chain_take, chain_length.
  unfold verifyAuditChain, overwrite, set_files. cbn [files].
  rewrite lookup_insert_eq. cbn [content].
  apply verify_chain.
  - apply Forall_take. exact Hno.
  - rewrite <- chain_take. apply Forall_take. exact Hp.
Qed.

End Truncation.

Section SummaryFacts.
Context {RT : Runtime}.

Lemma summarize_counts (acc : Summary) (line : string) :
  su_total (summarize acc line)
  = su_total acc + Z.of_nat (length (parsed [line]))
  /\ su_allowed (summarize acc line) + su_denied (summarize acc line)
     = su_allowed acc + su_denied acc
       + Z.of_nat (length (List.filter not_null (parsed [line]))).
Proof.
  unfold summarize, parsed. cbn [omap list_omap].
  destruct (JSON_parse line) as [v|]; [|cbn; lia].
  destruct v; cbn [length List.filter not_null];
    try (destruct (Js.to_key _); destruct (Js.truthy (Js.prop _ "allowed"));
         cbn [su_total su_allowed su_denied]; lia).
  cbn [su_total su_allowed su_denied]. lia.
Qed.

Lemma parsed_app (a b : list string) : parsed (a ++ b) = parsed a ++ parsed b.
Proof. unfold parsed. apply omap_app. Qed.

Lemma fold_summarize_counts (lines : list string) (acc : Summary) :
  su_total (fold_left summarize lines acc)
  = su_total acc + Z.of_nat (length (parsed lines))
  /\ su_allowed (fold_left summarize lines acc) + su_denied (fold_left summarize lines acc)
     = su_allowed acc + su_denied acc
       + Z.of_nat (length (List.filter not_null (parsed lines))).
Proof.
  revert acc. induction lines as [|l lines IH]; intros acc.
  - cbn. lia.
  - cbn [fold_left]. destruct (IH (summarize acc l)) as (H1 & H2).
    destruct (summarize_counts acc l) as (H3 & H4).
    change (l :: lines) with ([l] ++ lines).
    rewrite parsed_app, List.filter_app, !length_app. lia.
Qed.

(** X25.  For every file, [total] is the number of lines that parse, and
    [allowed] and [denied] add up to the number of lines that parse to
    something other than [null]: lines that are not JSON are skipped, and
    a line [null] is counted in the total alone. *)
Theorem summary_counts (path : string) (s : State) :
  let su := getAuditSummary path s in
  let lines := audit_lines path s in
  su_total su = Z.of_nat (length (parsed lines))
  /\ su_allowed su + su_denied su
     = Z.of_nat (length (List.filter not_null (parsed lines)))
  /\ su_allowed su + su_denied su <= su_total su <= Z.of_nat (length lines).
Proof.
  cbv zeta. unfold getAuditSummary, audit_lines.
  assert (Hlen : forall lines,
            (length (List.filter not_null (parsed lines)) <= length (parsed lines)
             <= length lines)%nat).
  { intros lines. split; [apply List.filter_length_le|].
    unfold parsed. induction lines as [|l lines IH]; cbn [omap list_omap length]; [lia|].
    destruct (JSON_parse l); cbn [length]; lia. }
  destruct (files s !! path) as [f|].
  - destruct (fold_summarize_counts (read_lines (content f)) no_entries) as (H1 & H2).
    cbn [su_total su_allowed su_denied no_entries] in H1, H2.
    destruct (Hlen (read_lines (content f))). split; [lia|]. split; lia.
  - cbn. lia.
Qed.

Lemma bump_other (k t : string) (m : gmap string tally) :
  k <> t -> bump k m !! t = m !! t.
Proof.
  intros H. unfold bump.
  destruct (m !! k) as [[n|x]|]; [apply lookup_insert_ne; exact H..|].
  destruct (Js.Object_prototype k); [|apply lookup_insert_ne; exact H].
  destruct (String.eqb k "__proto__"); [reflexivity|apply lookup_insert_ne; exact H].
Qed.

Lemma bump_counted (t : string) (m : gmap string tally) (n : nat) :
  Js.Object_prototype t = None ->
  m !! t = counted n ->
  bump t m !! t = counted (S n).
Proof.
  intros Hp Hm. unfold bump. rewrite Hm, Hp.
  destruct n as [|n]; cbn [counted]; rewrite lookup_insert_eq; [reflexivity|].
  do 2 f_equal. lia.
Qed.

Lemma Severity_name_plain (sev : Severity) :
  Js.Object_prototype (Severity_name sev) = None
  /\ JsString.nonempty (Severity_name sev) = true.
Proof. destruct sev; split; reflexivity. Qed.

Lemma Severity_name_inj (a b : Severity) :
  String.eqb (Severity_name a) (Severity_name b) = true -> a = b.
Proof. destruct a, b; simpl; intros H; try reflexivity; discriminate. Qed.

(** [summarize] on the line of an entry that parses back. *)
Lemma summarize_entry (acc : Summary) (o : list (string * json)) :
  parses_back o ->
  is_entry o ->
  exists (t : string) (sev : option Severity) (ok : bool),
    Json.lookup "tool" o = Some (JStr t)
    /\ Json.lookup "severity" o
       = Some (Json.of_option_string (option_map Severity_name sev))
    /\ allowed_entry o = ok
    /\ summarize acc (line o) =
       {| su_total := su_total acc + 1;
          su_allowed := if ok then su_allowed acc + 1 else su_allowed acc;
          su_denied := if ok then su_denied acc else su_denied acc + 1;
          su_byTool := bump t (su_byTool acc);
          su_bySeverity :=
            match sev with
            | Some sv => bump (Severity_name sv) (su_bySeverity acc)
            | None => su_bySeverity acc
            end |}.
Proof.
  intros Hp (ts & seq & input & result & policy & cwd & b & h & ->).
  exists (tool_name input), (severity result), (allowed result).
  split; [reflexivity|]. split; [reflexivity|]. split; [reflexivity|].
  unfold summarize, line. rewrite Hp. cbv zeta. cbn [Js.prop].
  change (Json.lookup "allowed" _) with (Some (JBool (allowed result))).
  change (Json.lookup "tool" _) with (Some (JStr (tool_name input))).
  change (Json.lookup "severity" _)
    with (Some (Json.of_option_string (option_map Severity_name (severity result)))).
  cbn [Js.truthy Js.to_key Js.to_string].
  destruct (severity result) as [sv|]; cbn [option_map Json.of_option_string Js.truthy
                                            Js.to_key Js.to_string]; [|reflexivity].
  rewrite (proj2 (Severity_name_plain sv)). reflexivity.
Qed.

Lemma fold_entries (objs : list (list (string * json))) (acc : Summary) :
  Forall parses_back objs ->
  Forall is_entry objs ->
  let su := fold_left summarize (map line objs) acc in
  su_total su = su_total acc + Z.of_nat (length objs)
  /\ su_allowed su = su_allowed acc + Z.of_nat (length (List.filter allowed_entry objs))
  /\ su_denied su
     = su_denied acc
       + Z.of_nat (length (List.filter (fun o => negb (allowed_entry o)) objs))
  /\ (forall t n, Js.Object_prototype t = None ->
        su_byTool acc !! t = counted n ->
        su_byTool su !! t = counted (n + length (List.filter (has_tool t) objs)))
  /\ (forall sev n,
        su_bySeverity acc !! Severity_name sev = counted n ->
        su_bySeverity su !! Severity_name sev
        = counted (n + length (List.filter (has_severity sev) objs))).
Proof.
  intros Hp He. revert acc.
  induction Hp as [|o objs Ho Hp IH]; intros acc.
  - cbn. repeat split; try lia; intros; rewrite Nat.add_0_r; assumption.
  - inversion He as [|o' objs' Heo He']; subst.
    cbn [map fold_left]. cbv zeta.
    destruct (summarize_entry acc o Ho Heo) as (t & sev & ok & Ht & Hs & Hok & ->).
    specialize (IH He'
      {| su_total := su_total acc + 1;
         su_allowed := if ok then su_allowed acc + 1 else su_allowed acc;
         su_denied := if ok then su_denied acc else su_denied acc + 1;
         su_byTool := bump t (su_byTool acc);
         su_bySeverity :=
           match sev with
           | Some sv => bump (Severity_name sv) (su_bySeverity acc)
           | None => su_bySeverity acc
           end |}).
    cbv zeta in IH. cbn [su_total su_allowed su_denied su_byTool su_bySeverity] in IH.
    destruct IH as (I1 & I2 & I3 & I4 & I5).
    cbn [List.filter length]. rewrite Hok.
    split; [rewrite I1; cbn [length]; lia|].
    split; [rewrite I2; destruct ok; cbn [length]; lia|].
    split; [rewrite I3; destruct ok; cbn [negb length]; lia|].
    split.
    + intros t' n Hpt Hn. unfold has_tool at 1. rewrite Ht.
      destruct (String.eqb t t') eqn:E.
      * apply String.eqb_eq in E. subst t'.
        rewrite (I4 t (S n) Hpt (bump_counted t _ n Hpt Hn)).
        cbn [length]. f_equal. lia.
      * apply String.eqb_neq in E.
        rewrite (I4 t' n Hpt); [reflexivity|].
        rewrite bump_other by exact E. exact Hn.
    + intros sv n Hn. unfold has_severity at 1. rewrite Hs.
      destruct sev as [sv0|]; cbn [option_map Json.of_option_string].
      * destruct (String.eqb (Severity_name sv0) (Severity_name sv)) eqn:E.
        -- apply Severity_name_inj in E. subst sv0.
           rewrite (I5 sv (S n)
                      (bump_counted _ _ n (proj1 (Severity_name_plain sv)) Hn)).
           cbn [length]. f_equal. lia.
        -- rewrite (I5 sv n); [reflexivity|].
           rewrite bump_other; [exact Hn|].
           intros Heq. rewrite Heq, String.eqb_refl in E. discriminate.
      * rewrite (I5 sv n Hn). reflexivity.
Qed.

(** X26.  The summary of an audit file that Guardian wrote.  For processes
    that write to one path from a start without a file, [total] is the number of entries,
    [allowed] and [denied] count the entries by their verdict, [byTool]
    holds for every tool its number of entries (for a tool name that is
    no property of [Object.prototype]), and [bySeverity] the number of
    entries of each severity; what was never met has no property. *)
Theorem summary_of_audit_file (policy : Policy) (cwd : string) (evs : list event)
    (s : State) :
  audit_enabled (audit policy) = true ->
  files s !! getAuditPath policy cwd = None ->
  sequenceNumber s = 0 ->
  run_parses_back policy cwd evs s ->
  let path := getAuditPath policy cwd in
  let s' := run policy cwd evs s in
  let objs := audit_entries path s' in
  let su := getAuditSummary path s' in
  su_total su = Z.of_nat (length objs)
  /\ su_allowed su = Z.of_nat (length (List.filter allowed_entry objs))
  /\ su_denied su = Z.of_nat (length (List.filter (fun o => negb (allowed_entry o)) objs))
  /\ (forall t, Js.Object_prototype t = None ->
        su_byTool su !! t = counted (length (List.filter (has_tool t) objs)))
  /\ (forall sev,
        su_bySeverity su !! Severity_name sev
        = counted (length (List.filter (has_severity sev) objs))).
Proof.
  intros Hen Hfile Hseq Hpb path s' objs su.
  assert (H0 : numbered path s []).
  { split; [unfold path; rewrite Hfile; reflexivity|].
    split; [constructor|]. split; [constructor|].
    split; [intros i o Hi; destruct i; discriminate|]. right. exact Hseq. }
  destruct (run_numbered policy cwd Hen evs s [] H0 Hpb) as (objs' & Hn).
  fold path s' in Hn.
  destruct (numbered_entries path s' objs' Hn) as (Heq & _).
  fold objs in Heq. subst objs'.
  destruct Hn as (Hf & Hp & He & _).
  assert (Hsu : su = fold_left summarize (map line objs) no_entries).
  { unfold su, getAuditSummary. destruct (files s' !! path) as [f|].
    - destruct Hf as (-> & _). rewrite read_lines_render. reflexivity.
    - rewrite Hf. reflexivity. }
  rewrite Hsu.
  destruct (fold_entries objs no_entries Hp He) as (H1 & H2 & H3 & H4 & H5).
  cbv zeta in H1, H2, H3, H4, H5.
  cbn [su_total su_allowed su_denied su_byTool su_bySeverity no_entries] in H1, H2, H3, H4, H5.
  split; [rewrite H1; lia|]. split; [rewrite H2; lia|]. split; [rewrite H3; lia|].
  split.
  - intros t Ht. apply (H4 t 0%nat Ht). apply lookup_empty.
  - intros sev. apply (H5 sev 0%nat). apply lookup_empty.
Qed.

End SummaryFacts.

(* ================================================================== *)
(** * The policy loader *)
(* ================================================================== *)

Section PolicyFacts.
Context {RT : Runtime}.

Lemma check_fields_passed (policy : json) (fields : list string) :
  check_fields policy fields = None ->
  fields <> [] ->
  exists kvs, policy = JObj kvs
    /\ Forall (fun field => is_Some (Json.lookup field kvs)) fields.
Proof.
  intros H Hne.
  assert (Hobj : exists kvs, policy = JObj kvs).
  { destruct fields as [|f rest]; [contradiction|].
    cbn [check_fields] in H. destruct policy; cbn [has_field] in H; try discriminate; eauto. }
  destruct Hobj as (kvs & ->). exists kvs. split; [reflexivity|].
  clear Hne. induction fields as [|f rest IH]; [constructor|].
  cbn [check_fields has_field] in H.
  destruct (bool_decide (is_Some (Json.lookup f kvs))) eqn:E; [|discriminate].
  apply bool_decide_eq_true in E. constructor; [exact E|apply IH; exact H].
Qed.

(** X27.  Every policy that [loadPolicy] returns is an object with the seven
    required fields, version 1 and one of the three modes, whether it
    comes from the file or from the cache, provided the cache started
    empty or validated; a validated cache stays so, and a load that
    fails leaves the cache as it was. *)
Theorem load_validated (cwd : string) (fs : gmap string File) (c c' : PolicyCache)
    (r : loaded) :
  cache_ok c ->
  loadPolicy cwd fs c = (r, c') ->
  cache_ok c'
  /\ match r with
     | Loaded policy => validated policy
     | Failed _ => c' = c
     end.
Proof.
  intros Hc. unfold loadPolicy. cbv zeta.
  destruct (cache_hit (policyPath cwd) fs c) as [policy|] eqn:Hhit.
  { intros [= <- <-]. split; [exact Hc|].
    unfold cache_hit in Hhit. unfold cache_ok in Hc.
    destruct (cachedPolicy c) as [p0|]; [|discriminate].
    destruct (cachedPolicyPath c); [|discriminate].
    destruct (file_at fs (policyPath cwd)); [|discriminate].
    destruct (_ && _); [|discriminate]. injection Hhit as <-. exact Hc. }
  destruct (file_at fs (policyPath cwd)) as [f|]; [|intros [= <- <-]; auto].
  destruct (JSON_parse (content f)) as [policy|]; [|intros [= <- <-]; auto].
  destruct (check_fields policy REQUIRED_FIELDS) as [e|] eqn:Hf; [intros [= <- <-]; auto|].
  destruct (version_is_1 (Js.prop policy "version")) eqn:Hv; cbn [negb];
    [|intros [= <- <-]; auto].
  destruct (mode_is_valid (Js.prop policy "mode")) eqn:Hm; cbn [negb];
    [|intros [= <- <-]; auto].
  intros [= <- <-].
  assert (Hval : validated policy).
  { destruct (check_fields_passed policy REQUIRED_FIELDS Hf) as (kvs & -> & Hall);
      [discriminate|].
    exists kvs. split; [reflexivity|]. split; [exact Hall|].
    cbn [Js.prop] in Hv, Hm. split.
    - unfold version_is_1 in Hv.
      destruct (Json.lookup "version" kvs) as [[| |n| | |]|]; try discriminate.
      destruct n as [|[| |]|]; try discriminate. reflexivity.
    - unfold mode_is_valid in Hm.
      destruct (Json.lookup "mode" kvs) as [[| | |m| |]|]; try discriminate.
      exists m. split; [reflexivity|].
      unfold JsString.includes in Hm. apply existsb_exists in Hm as (x & Hx & Heq).
      apply String.eqb_eq in Heq. subst x. exact Hx. }
  split; exact Hval.
Qed.

(** X28.  A policy that was loaded is not read again while the modification
    time of its file stays the same: the next load returns the same
    value and leaves the cache as it is, whatever the file now holds. *)
Theorem load_cached (cwd : string) (fs : gmap string File) (c c1 : PolicyCache)
    (policy : json) :
  loadPolicy cwd fs c = (Loaded policy, c1) ->
  exists f,
    file_at fs (policyPath cwd) = Some f
    /\ forall fs' f',
         file_at fs' (policyPath cwd) = Some f' ->
         mtime f' = mtime f ->
         loadPolicy cwd fs' c1 = (Loaded policy, c1).
Proof.
  unfold loadPolicy. cbv zeta.
  destruct (cache_hit (policyPath cwd) fs c) as [p0|] eqn:Hhit.
  - intros [= <- <-]. unfold cache_hit in Hhit.
    destruct (cachedPolicy c) as [p1|] eqn:Hp; [|discriminate].
    destruct (cachedPolicyPath c) as [q|] eqn:Hq; [|discriminate].
    destruct (file_at fs (policyPath cwd)) as [f|]; [|discriminate].
    destruct (String.eqb q (policyPath cwd)) eqn:E1; [|discriminate].
    destruct (String.eqb (mtime f) (cachedMtime c)) eqn:E2; [|discriminate].
    injection Hhit as <-. exists f. split; [reflexivity|].
    intros fs' f' Hf' Hm. unfold cache_hit. rewrite Hp, Hq, Hf', E1, Hm, E2. reflexivity.
  - destruct (file_at fs (policyPath cwd)) as [f|]; [|discriminate].
    destruct (JSON_parse (content f)) as [p0|]; [|discriminate].
    destruct (check_fields p0 REQUIRED_FIELDS); [discriminate|].
    destruct (version_is_1 _); cbn [negb]; [|discriminate].
    destruct (mode_is_valid _); cbn [negb]; [|discriminate].
    intros [= <- <-]. exists f. split; [reflexivity|].
    intros fs' f' Hf' Hm. unfold cache_hit.
    cbn [cachedPolicy cachedPolicyPath cachedMtime]. rewrite Hf', Hm, !String.eqb_refl.
    reflexivity.
Qed.

End PolicyFacts.

Section Branches.
Context {RT : Runtime}.

Lemma checkMcpValues_no_text (m : PatternMap) (kvs : list (string * json)) :
  Forall (fun kv => forall text, snd kv <> JStr text) kvs ->
  checkMcpValues m kvs = None.
Proof.
  induction 1 as [|[k v] kvs Hv _ IH]; [reflexivity|].
  cbn [checkMcpValues]. cbn [snd] in Hv.
  destruct v; try exact IH. destruct (Hv s). reflexivity.
Qed.

(** X7.  For an MCP tool only the values of the tool input that are texts
    are matched: a request whose values are numbers, arrays or objects is
    not blocked, whatever texts are nested in them. *)
Theorem mcp_nested_values_unchecked (input : HookInput) (policy : Policy) (s : State)
    (m : PatternMap) :
  JsString.startsWith (tool_name input) "mcp__" = true ->
  compiledPatterns s = Some m ->
  Forall (fun kv => forall text, snd kv <> JStr text) (tool_input input) ->
  checkBlocklist input policy s = (Ret None, s).
Proof.
  intros Hmcp Hc Hvals.
  pose proof (getPatterns_effect policy s) as Hg. rewrite Hc in Hg.
  unfold checkBlocklist, bind. rewrite Hg.
  assert (Hne : forall t, JsString.startsWith t "mcp__" = false ->
                          String.eqb (tool_name input) t = false).
  { intros t Ht. destruct (String.eqb (tool_name input) t) eqn:E; [|reflexivity].
    apply String.eqb_eq in E. rewrite E, Ht in Hmcp. discriminate. }
  rewrite !Hne by reflexivity. cbn [orb]. rewrite Hmcp.
  rewrite (checkMcpValues_no_text m _ Hvals). reflexivity.
Qed.

Lemma checkFilePatterns_unlisted (op : FileOperation) (fps : list FilePattern)
    (filePath : string) (ps : list CompiledPattern) :
  Forall (fun fp => existsb (FileOperation_eqb op) (fp_operations fp) = false) fps ->
  checkFilePatterns op fps filePath ps = None.
Proof.
  intros Hops. induction ps as [|p ps IH]; [reflexivity|].
  cbn [checkFilePatterns].
  destruct (RegExp_test (regex p) filePath); [|exact IH].
  destruct (find _ fps) as [fp|] eqn:Hfind; [|exact IH].
  apply find_some in Hfind as (Hin & _).
  rewrite List.Forall_forall in Hops. rewrite (Hops fp Hin). exact IH.
Qed.

(** X8.  A file pattern blocks only the operations it lists: when no file
    pattern of the policy lists [read], no Read request is blocked,
    whatever its path and whatever patterns were compiled. *)
Theorem unlisted_operation_passes (input : HookInput) (policy : Policy) (s : State)
    (m : PatternMap) :
  tool_name input = "Read" ->
  compiledPatterns s = Some m ->
  Forall (fun fp => existsb (FileOperation_eqb OpRead) (fp_operations fp) = false)
         (file_patterns (blocklist policy)) ->
  checkBlocklist input policy s = (Ret None, s).
Proof.
  intros Htool Hc Hops.
  pose proof (getPatterns_effect policy s) as Hg. rewrite Hc in Hg.
  unfold checkBlocklist, bind. rewrite Hg, Htool.
  change (String.eqb "Read" "Bash") with false.
  change (String.eqb "Read" "Write" || String.eqb "Read" "Edit") with false.
  change (String.eqb "Read" "Read") with true. cbv iota.
  rewrite (checkFilePatterns_unlisted OpRead _ _ _ Hops). reflexivity.
Qed.

End Branches.

Section Writer.
Context {RT : Runtime}.

Notation "x <- m ;; k" := (bind m (fun x => k))
  (at level 100, m at next level, right associativity).

(** X29.  With [include_tool_input] false the tool input does not reach the
    audit file: two requests with the same tool and session, whatever
    their inputs, make [writeAuditEntry] do the same. *)
Theorem tool_input_not_logged (i1 i2 : HookInput) (result : ValidationResult)
    (policy : Policy) (cwd : string) (b : option BudgetSnapshot) (s : State) :
  include_tool_input (audit policy) = false ->
  tool_name i1 = tool_name i2 ->
  session_id i1 = session_id i2 ->
  writeAuditEntry i1 result policy cwd b s = writeAuditEntry i2 result policy cwd b s.
Proof.
  intros Hinc Htool Hsid.
  assert (He : forall ts seq,
            entryWithoutHash ts seq i1 result policy cwd b
            = entryWithoutHash ts seq i2 result policy cwd b).
  { intros ts seq. unfold entryWithoutHash. rewrite Hinc, Htool, Hsid. reflexivity. }
  destruct (audit_enabled (audit policy)) eqn:Hen.
  - rewrite !(writeAuditEntry_enabled _ _ _ _ _ _ Hen). cbv zeta.
    unfold written_entry. cbv zeta. rewrite He. reflexivity.
  - rewrite !(writeAuditEntry_disabled _ _ _ _ _ _ Hen). reflexivity.
Qed.

(** X30.  A corrupted tail.  When a process that has written nothing yet finds
    an audit file whose last line does not parse, and no rotation is due,
    it appends its entry after that line with sequence number 1 and a
    hash computed from the empty text. *)
Theorem corrupt_tail_restarts (input : HookInput) (result : ValidationResult)
    (policy : Policy) (cwd : string) (b : option BudgetSnapshot) (s : State)
    (f : File) (l : string) :
  audit_enabled (audit policy) = true ->
  files s !! getAuditPath policy cwd = Some f ->
  shouldRotate policy (getAuditPath policy cwd) s = false ->
  sequenceNumber s = 0 ->
  lastHash s = "" ->
  last (read_lines (content f)) = Some l ->
  JSON_parse l = None ->
  let s' := snd (writeAuditEntry input result policy cwd b s) in
  let e := entryWithoutHash (clock s) 1 input result policy cwd b in
  files s' !! getAuditPath policy cwd =
    Some {| content :=
              content f
              +:+ Json.stringify (JObj (e ++ [("hash", JStr (entryHash policy "" e))]))
              +:+ JsString.nl;
            mtime := clock s |}
  /\ sequenceNumber s' = 1
  /\ lastHash s' = entryHash policy "" e.
Proof.
  intros Hen Hf Hrot Hseq Hlast Hl Hparse. cbv zeta.
  set (path := getAuditPath policy cwd) in *.
  rewrite (writeAuditEntry_enabled _ _ _ _ _ _ Hen). cbv zeta. cbn [snd]. fold path.
  unfold written_entry. cbv zeta. fold path.
  assert (Hs2 : snd (prepareAudit policy path s) = s).
  { rewrite (prepareAudit_kept policy path s Hrot), Hseq, Hf.
    change (0 =? 0) with true. cbv iota.
    unfold resume_from. rewrite Hl, Hparse. destruct (JsString.nonempty l); reflexivity. }
  rewrite Hs2. unfold appendFile, set_files, set_audit.
  cbn [files sequenceNumber lastHash clock].
  rewrite lookup_insert_eq, Hf, Hseq, Hlast.
  change (0 + 1) with 1.
  assert (Hh : Json.as_string
                 (Json.lookup "hash"
                    (entryWithoutHash (clock s) 1 input result policy cwd b
                     ++ [("hash",
                          JStr (entryHash policy ""
                                  (entryWithoutHash (clock s) 1 input result policy cwd b)))]))
                 ""
               = entryHash policy "" (entryWithoutHash (clock s) 1 input result policy cwd b))
    by reflexivity.
  rewrite Hh. split; [reflexivity|]. split; reflexivity.
Qed.

End Writer.

(* ================================================================== *)
(** * The further properties on the worked examples *)
(* ================================================================== *)

(** An option that a test shows to be empty, or not. *)
Lemma none_by_test {A : Type} (x : option A) :
  match x with None => true | Some _ => false end = true -> x = None.
Proof. destruct x; [discriminate|reflexivity]. Defined.

Lemma some_by_test {A : Type} (x : option A) :
  match x with None => false | Some _ => true end = true -> x <> None.
Proof. destruct x; [discriminate|discriminate]. Defined.

Lemma strip_without_quotes_witness :
  Forall not_quote (JsString.chars "ls -la | wc")
  /\ stripQuotedStrings "ls -la | wc" = "ls -la | wc".
Proof.
  assert (H : Forall not_quote (JsString.chars "ls -la | wc")).
  { repeat constructor; discriminate. }
  split; [exact H|]. apply strip_without_quotes. exact H.
Defined.

Lemma split_segments_trimmed_witness :
  In "pwd" (splitShellCommand "ls ;  pwd  ")
  /\ "pwd" <> "" /\ JsString.trim "pwd" = "pwd".
Proof.
  assert (H : In "pwd" (splitShellCommand "ls ;  pwd  ")).
  { vm_compute. right. left. reflexivity. }
  split; [exact H|]. apply (split_segments_trimmed "ls ;  pwd  " "pwd" H).
Defined.

Lemma split_without_operators_witness :
  splitShellCommand " echo (a b) 'c d' "
  = if JsString.nonempty (JsString.trim " echo (a b) 'c d' ")
    then [JsString.trim " echo (a b) 'c d' "] else [].
Proof.
  apply split_without_operators. repeat constructor; discriminate.
Defined.

Lemma extract_without_substitution_witness :
  extractSubcommands "ls (a) -la" = [].
Proof.
  apply extract_without_substitution. repeat constructor; discriminate.
Defined.

Lemma extract_finds_substitution_witness :
  exists more,
    extractSubcommands
      (JsString.of_chars (JsString.chars "echo " ++ "$"%char :: "("%char ::
                          JsString.chars "whoami" ++ ")"%char :: JsString.chars " ; ls"))
    = JsString.of_chars (JsString.chars "whoami") :: more.
Proof.
  apply extract_finds_substitution.
  - repeat constructor; discriminate.
  - repeat constructor; discriminate.
  - discriminate.
Defined.

(** The second request under [Cases.kill_policy] ends the process. *)
Lemma validate_exit_only_budget_kill_witness :
  let s' := snd (validate (RT := node) Examples.safe Cases.kill_policy Examples.cwd
                   Cases.spent) in
  fst (validate (RT := node) Examples.safe Cases.kill_policy Examples.cwd Cases.spent)
    = Exit 2
  /\ mode Cases.kill_policy = Enforce
  /\ kill_enabled (kill_switch Cases.kill_policy) = true
  /\ on_budget_breach (kill_switch Cases.kill_policy) = true
  /\ action_on_breach (budget Cases.kill_policy) = BreachKill
  /\ checkAllowlist (RT := node) Examples.safe Cases.kill_policy = false
  /\ checkScope (RT := node) Examples.safe Cases.kill_policy Examples.cwd = None
  /\ (exists s1 b sb,
        checkBlocklist (RT := node) Examples.safe Cases.kill_policy Cases.spent
        = (Ret None, s1)
        /\ checkBudget (RT := node) Cases.kill_policy Examples.cwd s1 = (Ret b, sb)
        /\ exceeded b = true
        /\ stderr s' = stderr Cases.spent
                         ++ [kill_line ("Budget exceeded: "
                                        +:+ default "null" (breach_reason b))])
  /\ 2 = exit_code (kill_switch Cases.kill_policy).
Proof.
  intros s'.
  assert (H : fst (validate (RT := node) Examples.safe Cases.kill_policy Examples.cwd
                     Cases.spent) = Exit 2) by (vm_compute; reflexivity).
  split; [exact H|].
  apply (validate_exit_only_budget_kill (RT := node) Examples.safe Cases.kill_policy
           Examples.cwd Cases.spent s' 2).
  apply pair_with_snd. exact H.
Defined.

(** A request in a directory that holds a file of notes: the file is
    kept while the audit file is written, and with the audit disabled
    the file system is left as it was. *)
Lemma only_audit_file_written_witness :
  (let s' := snd (validateAndAudit (RT := node) (bash "rm -rf /") default_policy
                    Examples.cwd Cases.with_notes) in
   Cases.notes_path <> getAuditPath (RT := node) default_policy Examples.cwd
   /\ files Cases.with_notes !! Cases.notes_path = Some Cases.notes
   /\ files s' !! Cases.notes_path = Some Cases.notes
   /\ files s' !! getAuditPath (RT := node) default_policy Examples.cwd <> None)
  /\ (let s' := snd (validateAndAudit (RT := node) (bash "rm -rf /") Cases.silent_policy
                       Examples.cwd Cases.with_notes) in
      audit_enabled (audit Cases.silent_policy) = false
      /\ files s' = files Cases.with_notes).
Proof.
  split.
  - intros s'.
    assert (Hq : Cases.notes_path <> getAuditPath (RT := node) default_policy Examples.cwd)
      by (vm_compute; discriminate).
    assert (Hf : files Cases.with_notes !! Cases.notes_path = Some Cases.notes)
      by (vm_compute; reflexivity).
    split; [exact Hq|]. split; [exact Hf|]. split.
    + apply (only_audit_file_written (RT := node) (bash "rm -rf /") default_policy
               Examples.cwd Cases.with_notes s'
               (fst (validateAndAudit (RT := node) (bash "rm -rf /") default_policy
                       Examples.cwd Cases.with_notes)));
        [apply surjective_pairing|exact Hq|exact Hf].
    + apply some_by_test. vm_compute. reflexivity.
  - intros s'. split; [reflexivity|].
    apply (only_audit_file_written (RT := node) (bash "rm -rf /") Cases.silent_policy
             Examples.cwd Cases.with_notes s'
             (fst (validateAndAudit (RT := node) (bash "rm -rf /") Cases.silent_policy
                     Examples.cwd Cases.with_notes)));
      [apply surjective_pairing|reflexivity].
Defined.

(** [rm -rf /] under the default policy: the process ends with code 2. *)
Lemma kill_after_record_witness :
  let s' := snd (validateAndAudit (RT := node) (bash "rm -rf /") default_policy
                   Examples.cwd Examples.s0) in
  fst (validateAndAudit (RT := node) (bash "rm -rf /") default_policy Examples.cwd
         Examples.s0) = Exit 2
  /\ mode default_policy = Enforce
  /\ kill_enabled (kill_switch default_policy) = true
  /\ 2 = exit_code (kill_switch default_policy)
  /\ (exists why, stderr s' = stderr Examples.s0 ++ [kill_line why])
  /\ (audit_enabled (audit default_policy) = true ->
      denial_recorded (bash "rm -rf /") default_policy Examples.cwd s').
Proof.
  intros s'.
  assert (H : fst (validateAndAudit (RT := node) (bash "rm -rf /") default_policy
                     Examples.cwd Examples.s0) = Exit 2) by (vm_compute; reflexivity).
  split; [exact H|].
  apply (kill_after_record (RT := node) (bash "rm -rf /") default_policy
           Examples.cwd Examples.s0 s' 2).
  apply pair_with_snd. exact H.
Defined.

Lemma audit_mode_never_blocks_witness :
  mode (with_mode Audit default_policy) <> Enforce
  /\ (forall c, fst (validateAndAudit (RT := node) (bash "rm -rf /")
                       (with_mode Audit default_policy) Examples.cwd Examples.s0)
                <> Exit c)
  /\ (forall v, fst (validateAndAudit (RT := node) (bash "rm -rf /")
                       (with_mode Audit default_policy) Examples.cwd Examples.s0)
                = Ret v -> allowed v = true).
Proof.
  split; [discriminate|].
  apply (audit_mode_never_blocks (RT := node) (bash "rm -rf /")
           (with_mode Audit default_policy) Examples.cwd Examples.s0
           (snd (validateAndAudit (RT := node) (bash "rm -rf /")
                   (with_mode Audit default_policy) Examples.cwd Examples.s0))).
  - discriminate.
  - apply surjective_pairing.
Defined.

Lemma returned_verdict_recorded_witness :
  let s' := snd (validateAndAudit (RT := node) Examples.safe default_policy
                   Examples.cwd Examples.s0) in
  fst (validateAndAudit (RT := node) Examples.safe default_policy Examples.cwd
         Examples.s0) = Ret (allow None)
  /\ (exists s1, validate (RT := node) Examples.safe default_policy Examples.cwd
                   Examples.s0 = (Ret (allow None), s1))
  /\ (audit_enabled (audit default_policy) = true ->
      verdict_recorded Examples.safe (allow None) default_policy Examples.cwd s').
Proof.
  intros s'.
  assert (H : fst (validateAndAudit (RT := node) Examples.safe default_policy
                     Examples.cwd Examples.s0) = Ret (allow None))
    by (vm_compute; reflexivity).
  split; [exact H|].
  apply (returned_verdict_recorded (RT := node) Examples.safe default_policy
           Examples.cwd Examples.s0 s' (allow None)).
  apply pair_with_snd. exact H.
Defined.

Lemma invalid_pattern_throws_witness :
  compilePatterns (RT := node) Cases.broken_policy = None
  /\ exists e, validate (RT := node) Cases.glob Cases.broken_policy Examples.cwd
                 Examples.s0 = (Throw e, Examples.s0).
Proof.
  assert (H : compilePatterns (RT := node) Cases.broken_policy = None).
  { apply none_by_test. vm_compute. reflexivity. }
  split; [exact H|].
  apply (invalid_pattern_throws (RT := node) Cases.glob Cases.broken_policy
           Examples.cwd Examples.s0).
  - discriminate.
  - vm_compute. reflexivity.
  - vm_compute. reflexivity.
  - reflexivity.
  - exact H.
Defined.

Lemma other_tools_pass_witness :
  other_tool (tool_name Cases.glob)
  /\ Js.truthy (Json.lookup "file_path" (tool_input Cases.glob)) = false
  /\ fst (validate (RT := node) Cases.glob default_policy Examples.cwd Examples.s0)
     = Ret {| allowed := true; reason := None; severity := None; pattern := None;
              source := None |}.
Proof.
  assert (H : other_tool (tool_name Cases.glob)).
  { repeat split; discriminate. }
  split; [exact H|]. split; [reflexivity|].
  apply (other_tools_pass (RT := node) Cases.glob default_policy Examples.cwd Examples.s0).
  - exact H.
  - reflexivity.
  - reflexivity.
  - right. apply some_by_test. vm_compute. reflexivity.
Defined.

(** Once the patterns of the default policy are cached, [rm -rf /] is
    blocked under a policy whose blocklist is empty. *)
Lemma patterns_cached_once_witness :
  fst (checkBlocklist (RT := node) (bash "ls") default_policy Examples.s0) = Ret None
  /\ checkBlocklist (RT := node) (bash "rm -rf /") Cases.lax_policy Cases.warmed
     = checkBlocklist (RT := node) (bash "rm -rf /") default_policy Cases.warmed
  /\ snd (checkBlocklist (RT := node) (bash "rm -rf /") Cases.lax_policy Cases.warmed)
     = Cases.warmed.
Proof.
  assert (H : fst (checkBlocklist (RT := node) (bash "ls") default_policy Examples.s0)
              = Ret None) by (vm_compute; reflexivity).
  split; [exact H|].
  apply (patterns_cached_once (RT := node) (bash "ls") (bash "rm -rf /") default_policy
           Cases.lax_policy Examples.s0 Cases.warmed None).
  - apply pair_with_snd. exact H.
  - discriminate.
  - discriminate.
  - discriminate.
Defined.

Lemma budget_breach_persists_witness :
  exists b s',
    checkBudget (RT := node) Examples.policy_two Examples.cwd Cases.spent_twice = (Ret b, s')
    /\ exceeded b = true
    /\ breach_reason b =
         Some ("Action limit exceeded: " +:+ JsString.of_Z (actionCount Cases.spent_twice + 1)
               +:+ "/" +:+ JsString.of_Z (max_actions_per_session (budget Examples.policy_two)))
    /\ max_actions_per_session (budget Examples.policy_two) <= actionCount s'.
Proof.
  apply (budget_breach_persists (RT := node) Examples.policy_two Examples.cwd
           Cases.spent_twice).
  - reflexivity.
  - reflexivity.
  - discriminate.
Defined.

(** A cost file whose key is not quoted: the limit of ten dollars is not
    enforced. *)
Lemma cost_check_fails_open_witness :
  (exists f,
     files Cases.with_garbled
       !! path_resolve Examples.cwd (cost_file (budget Cases.cost_policy)) = Some f
     /\ JSON_parse (content f) = None)
  /\ session_limit_usd (budget Cases.cost_policy) = Some 10
  /\ exists b,
       checkBudget (RT := node) Cases.cost_policy Examples.cwd Cases.with_garbled
       = (Ret b, set_actionCount (actionCount Cases.with_garbled + 1) Cases.with_garbled)
       /\ action_count b = actionCount Cases.with_garbled + 1
       /\ session_cost_usd b = None
       /\ (exceeded b = true <->
           budget_enabled (budget Cases.cost_policy) = true
           /\ 0 < max_actions_per_session (budget Cases.cost_policy)
                < actionCount Cases.with_garbled + 1).
Proof.
  assert (Hf : files Cases.with_garbled
                 !! path_resolve (Runtime := node) Examples.cwd
                      (cost_file (budget Cases.cost_policy)) = Some Cases.garbled)
    by (vm_compute; reflexivity).
  assert (Hj : JSON_parse (Runtime := node) (content Cases.garbled) = None)
    by (vm_compute; reflexivity).
  split; [exists Cases.garbled; split; [exact Hf|exact Hj]|]. split; [reflexivity|].
  apply (cost_check_fails_open (RT := node) Cases.cost_policy Examples.cwd
           Cases.with_garbled).
  right. exists Cases.garbled. split; [exact Hf|]. left. exact Hj.
Defined.

Lemma critical_denial_kills_witness :
  fst (validate (RT := node) (bash "rm -rf /") default_policy Examples.cwd Examples.s0)
    = Ret Examples.blocked_rm
  /\ exists s',
       validateAndAudit (RT := node) (bash "rm -rf /") default_policy Examples.cwd
         Examples.s0 = (Exit (exit_code (kill_switch default_policy)), s')
       /\ stderr s' = stderr Examples.s0
            ++ [kill_line ("Critical policy violation: "
                           +:+ default "null" (reason Examples.blocked_rm))].
Proof.
  assert (H : fst (validate (RT := node) (bash "rm -rf /") default_policy Examples.cwd
                     Examples.s0) = Ret Examples.blocked_rm)
    by (vm_compute; reflexivity).
  split; [exact H|].
  apply (critical_denial_kills (RT := node) (bash "rm -rf /") default_policy
           Examples.cwd Examples.s0
           (snd (validate (RT := node) (bash "rm -rf /") default_policy Examples.cwd
                   Examples.s0))
           Examples.blocked_rm).
  - apply pair_with_snd. exact H.
  - reflexivity.
  - reflexivity.
  - reflexivity.
  - reflexivity.
Defined.

Lemma scope_under_cwd_witness :
  checkScope (RT := node) (read_file "src/../notes.txt")
    (with_scope Examples.scope_cwd default_policy) Examples.cwd = None
  <-> exists x, In x [""]
        /\ JsString.startsWith
             (path_resolve Examples.cwd (input_string (read_file "src/../notes.txt") "file_path"))
             (Examples.cwd +:+ x) = true.
Proof.
  apply (scope_under_cwd (RT := node) (read_file "src/../notes.txt")
           (with_scope Examples.scope_cwd default_policy) Examples.cwd [""]).
  - repeat constructor; discriminate.
  - reflexivity.
  - reflexivity.
  - discriminate.
  - constructor.
Defined.

Lemma sequence_numbers_witness :
  let path := getAuditPath (RT := node) Examples.policy_plain Examples.cwd in
  let s' := run (RT := node) Examples.policy_plain Examples.cwd Examples.trace Examples.s0 in
  let objs := audit_entries path s' in
  run_parses_back (RT := node) Examples.policy_plain Examples.cwd Examples.trace Examples.s0
  /\ audit_text path s' = render objs
  /\ forall (i : nat) o, objs !! i = Some o ->
       Json.lookup "seq" o = Some (JNum (Z.of_nat i + 1)).
Proof.
  intros path s' objs.
  assert (Hpb : run_parses_back (RT := node) Examples.policy_plain Examples.cwd
                  Examples.trace Examples.s0).
  { vm_compute. repeat apply conj; reflexivity || exact I. }
  split; [exact Hpb|].
  apply (sequence_numbers (RT := node) Examples.policy_plain Examples.cwd Examples.trace
           Examples.s0).
  - reflexivity.
  - vm_compute. reflexivity.
  - reflexivity.
  - exact Hpb.
Defined.

Lemma truncation_undetected_witness :
  let path := getAuditPath (RT := node) default_policy Examples.cwd in
  let s' := run (RT := node) default_policy Examples.cwd Examples.trace Examples.s0 in
  let objs := audit_entries path s' in
  length objs = 3%nat
  /\ verifyAuditChain path (overwrite path (render (take 2 objs)) s')
     = Ret {| valid := true; entries := Z.of_nat (length (take 2 objs)); brokenAt := None |}.
Proof.
  intros path s' objs.
  split; [vm_compute; reflexivity|].
  apply (truncation_undetected (RT := node) default_policy Examples.cwd Examples.trace
           Examples.s0 2).
  - reflexivity.
  - reflexivity.
  - vm_compute. reflexivity.
  - reflexivity.
  - vm_compute. repeat apply conj; reflexivity || exact I.
Defined.

Lemma summary_of_audit_file_witness :
  let path := getAuditPath (RT := node) default_policy Examples.cwd in
  let s' := run (RT := node) default_policy Examples.cwd Examples.trace Examples.s0 in
  let objs := audit_entries path s' in
  let su := getAuditSummary path s' in
  su_total su = Z.of_nat (length objs)
  /\ su_allowed su = Z.of_nat (length (List.filter allowed_entry objs))
  /\ su_denied su = Z.of_nat (length (List.filter (fun o => negb (allowed_entry o)) objs))
  /\ (forall t, Js.Object_prototype t = None ->
        su_byTool su !! t = counted (length (List.filter (has_tool t) objs)))
  /\ (forall sev,
        su_bySeverity su !! Severity_name sev
        = counted (length (List.filter (has_severity sev) objs))).
Proof.
  apply (summary_of_audit_file (RT := node) default_policy Examples.cwd Examples.trace
           Examples.s0).
  - reflexivity.
  - vm_compute. reflexivity.
  - reflexivity.
  - vm_compute. repeat apply conj; reflexivity || exact I.
Defined.

Lemma load_validated_witness :
  let r := loadPolicy (RT := node) Examples.cwd Cases.policy_files (resetCache Cases.cold) in
  fst r = Loaded Cases.minimal_policy
  /\ cache_ok (snd r)
  /\ match fst r with
     | Loaded policy => validated policy
     | Failed _ => snd r = resetCache Cases.cold
     end.
Proof.
  intros r. split; [vm_compute; reflexivity|].
  apply (load_validated (RT := node) Examples.cwd Cases.policy_files
           (resetCache Cases.cold) (snd r) (fst r)).
  - exact I.
  - apply surjective_pairing.
Defined.

Lemma load_cached_witness :
  let c1 := snd (loadPolicy (RT := node) Examples.cwd Cases.policy_files
                   (resetCache Cases.cold)) in
  loadPolicy (RT := node) Examples.cwd Cases.edited_files c1
    = (Loaded Cases.minimal_policy, c1)
  /\ exists f,
       file_at (RT := node) Cases.policy_files (policyPath Examples.cwd) = Some f
       /\ forall fs' f',
            file_at (RT := node) fs' (policyPath Examples.cwd) = Some f' ->
            mtime f' = mtime f ->
            loadPolicy (RT := node) Examples.cwd fs' c1 = (Loaded Cases.minimal_policy, c1).
Proof.
  intros c1.
  assert (H : exists f,
             file_at (RT := node) Cases.policy_files (policyPath Examples.cwd) = Some f
             /\ forall fs' f',
                  file_at (RT := node) fs' (policyPath Examples.cwd) = Some f' ->
                  mtime f' = mtime f ->
                  loadPolicy (RT := node) Examples.cwd fs' c1
                  = (Loaded Cases.minimal_policy, c1)).
  { apply (load_cached (RT := node) Examples.cwd Cases.policy_files
             (resetCache Cases.cold) c1 Cases.minimal_policy).
    vm_compute. reflexivity. }
  split; [|exact H].
  vm_compute. reflexivity.
Defined.

Lemma rotation_starts_anew_witness :
  let s' := snd (writeAuditEntry (RT := node) Examples.safe (allow None) default_policy
                   Examples.cwd None Cases.next_day) in
  let e := entryWithoutHash Examples.t0 1 Examples.safe (allow None) default_policy
             Examples.cwd None in
  rotated s' = rotated Cases.next_day
                 ++ [(getAuditPath (RT := node) default_policy Examples.cwd, Cases.yesterday)]
  /\ files s' !! getAuditPath (RT := node) default_policy Examples.cwd =
       Some {| content :=
                 Json.stringify
                   (JObj (e ++ [("hash", JStr (entryHash (RT := node) default_policy "" e))]))
                 +:+ JsString.nl;
               mtime := Examples.t0 |}
  /\ sequenceNumber s' = 1.
Proof.
  apply (rotation_starts_anew (RT := node) Examples.safe (allow None) default_policy
           Examples.cwd None Cases.next_day Cases.yesterday).
  - reflexivity.
  - vm_compute. reflexivity.
  - right. split; [reflexivity|]. vm_compute. discriminate.
Defined.

Lemma mcp_nested_values_unchecked_witness :
  checkBlocklist (RT := node) Cases.mcp_nested default_policy Cases.warmed
  = (Ret None, Cases.warmed).
Proof.
  assert (H : fst (checkBlocklist (RT := node) (bash "ls") default_policy Examples.s0)
              = Ret None) by (vm_compute; reflexivity).
  destruct (checkBlocklist_caches (RT := node) (bash "ls") default_policy Examples.s0
              Cases.warmed None (pair_with_snd _ _ H)) as (m & Hm).
  apply (mcp_nested_values_unchecked (RT := node) Cases.mcp_nested default_policy
           Cases.warmed m).
  - reflexivity.
  - exact Hm.
  - repeat constructor; discriminate.
Defined.

Lemma unlisted_operation_passes_witness :
  checkBlocklist (RT := node) (read_file "/home/u/proj/.env") Cases.write_only_policy
    Cases.warmed
  = (Ret None, Cases.warmed).
Proof.
  assert (H : fst (checkBlocklist (RT := node) (bash "ls") default_policy Examples.s0)
              = Ret None) by (vm_compute; reflexivity).
  destruct (checkBlocklist_caches (RT := node) (bash "ls") default_policy Examples.s0
              Cases.warmed None (pair_with_snd _ _ H)) as (m & Hm).
  apply (unlisted_operation_passes (RT := node) (read_file "/home/u/proj/.env")
           Cases.write_only_policy Cases.warmed m).
  - reflexivity.
  - exact Hm.
  - repeat constructor.
Defined.

Lemma tool_input_not_logged_witness :
  include_tool_input (audit Cases.private_policy) = false
  /\ writeAuditEntry (RT := node) (bash "echo one") (allow None) Cases.private_policy
       Examples.cwd None Examples.s0
     = writeAuditEntry (RT := node) (bash "echo two") (allow None) Cases.private_policy
         Examples.cwd None Examples.s0.
Proof.
  split; [reflexivity|].
  apply (tool_input_not_logged (RT := node) (bash "echo one") (bash "echo two")
           (allow None) Cases.private_policy Examples.cwd None Examples.s0);
    reflexivity.
Defined.

Lemma corrupt_tail_restarts_witness :
  let s' := snd (writeAuditEntry (RT := node) Examples.safe (allow None) default_policy
                   Examples.cwd None Cases.after_crash) in
  let e := entryWithoutHash Examples.t1 1 Examples.safe (allow None) default_policy
             Examples.cwd None in
  JSON_parse (Runtime := node) "{" = None
  /\ files s' !! getAuditPath (RT := node) default_policy Examples.cwd =
       Some {| content :=
                 content Cases.torn
                 +:+ Json.stringify
                       (JObj (e ++ [("hash",
                                     JStr (entryHash (RT := node) default_policy "" e))]))
                 +:+ JsString.nl;
               mtime := Examples.t1 |}
  /\ sequenceNumber s' = 1
  /\ lastHash s' = entryHash (RT := node) default_policy "" e.
Proof.
  intros s' e.
  assert (H : JSON_parse (Runtime := node) "{" = None) by (vm_compute; reflexivity).
  split; [exact H|].
  apply (corrupt_tail_restarts (RT := node) Examples.safe (allow None) default_policy
           Examples.cwd None Cases.after_crash Cases.torn "{").
  - reflexivity.
  - vm_compute. reflexivity.
  - vm_compute. reflexivity.
  - reflexivity.
  - reflexivity.
  - vm_compute. reflexivity.
  - exact H.
Defined.
